(** * Butler robot: the order-processing controller of [butler_robot.py]

    A shallow embedding of [RobotButler] (scripts/butler_robot.py) and the
    properties of its delivery state machine.

    The controller is a Python object whose methods run on several threads
    and block on three external collaborators: the [move_base] action
    server, the console and the ROS clock.  The embedding keeps the object's
    fields in a record, threads it through a small state-and-failure monad,
    and takes everything the collaborators decide from an [Oracle]: the
    terminal status of each goal, the outcome of each console read, each
    clock reading, and at which blocking wait a SIGINT or the
    queue-modification thread gets to run.  Runs in which the cancellation
    handler and the delivery thread take turns at their blocking calls are
    given by explicit schedules.

    Strings are [string]s of ASCII characters; the floating-point poses of
    the waypoint table are kept as the exact decimal fractions written in
    the source (no arithmetic is ever done on them). *)

From Stdlib Require Import String Ascii List Bool Arith ZArith QArith Lia DecimalString.
Import ListNotations.
Close Scope Q_scope.
Local Open Scope list_scope.
Local Open Scope string_scope.

(* ===================================================================== *)
(** ** Python string operations used by the controller *)
(* ===================================================================== *)

Module PyStr.

(** [str.isspace] on an ASCII character: TAB, LF, VT, FF, CR, the four
    separators FS..US and the space. *)
Definition is_space (c : ascii) : bool :=
  let n := nat_of_ascii c in
  ((9 <=? n)%nat && (n <=? 13)%nat) || ((28 <=? n)%nat && (n <=? 32)%nat).

Fixpoint lstrip (s : string) : string :=
  match s with
  | EmptyString => EmptyString
  | String c r => if is_space c then lstrip r else s
  end.

(** [rstrip] keeps a character when it is not white space or when
    something survives to its right. *)
Fixpoint rstrip (s : string) : string :=
  match s with
  | EmptyString => EmptyString
  | String c r =>
      match rstrip r with
      | EmptyString => if is_space c then EmptyString else String c EmptyString
      | r' => String c r'
      end
  end.

(** [s.strip()] *)
Definition strip (s : string) : string := rstrip (lstrip s).

Definition lower_char (c : ascii) : ascii :=
  let n := nat_of_ascii c in
  if (65 <=? n)%nat && (n <=? 90)%nat then ascii_of_nat (n + 32) else c.

(** [s.lower()] *)
Fixpoint lower (s : string) : string :=
  match s with
  | EmptyString => EmptyString
  | String c r => String (lower_char c) (lower r)
  end.

(** [s.split(sep)] for a one-character separator: never the empty list,
    an empty field between two adjacent separators. *)
Fixpoint split (sep : ascii) (s : string) : list string :=
  match s with
  | EmptyString => [EmptyString]
  | String c r =>
      if Ascii.eqb c sep then EmptyString :: split sep r
      else match split sep r with
           | [] => [String c EmptyString]
           | f :: fs => String c f :: fs
           end
  end.

(** [needle in hay] on strings. *)
Fixpoint contains (needle hay : string) : bool :=
  String.prefix needle hay ||
  match hay with
  | EmptyString => false
  | String _ r => contains needle r
  end.

(** [x in l] on a list of strings. *)
Fixpoint mem (x : string) (l : list string) : bool :=
  match l with
  | [] => false
  | y :: r => String.eqb x y || mem x r
  end.

(** [l.remove(x)]: deletes the first occurrence.  Python raises
    [ValueError] when there is none; every call in the controller is
    guarded by [x in l], and the guard is part of the callers below. *)
Fixpoint remove_first (x : string) (l : list string) : list string :=
  match l with
  | [] => []
  | y :: r => if String.eqb x y then r else y :: remove_first x r
  end.

(** [', '.join(l)] *)
Fixpoint join (sep : string) (l : list string) : string :=
  match l with
  | [] => ""
  | [x] => x
  | x :: r => x ++ sep ++ join sep r
  end.

(** [str(b)] for a Python bool. *)
Definition str_of_bool (b : bool) : string := if b then "True" else "False".

End PyStr.

(* ===================================================================== *)
(** ** Waypoint registry and module constants *)
(* ===================================================================== *)

(** A waypoint is a position [(x, y)] and the [w] component of the
    orientation quaternion. *)
Record pose := mkPose { pose_x : Q; pose_y : Q; pose_w : Q }.

Definition pose_eqb (p q : pose) : bool :=
  Qeq_bool (pose_x p) (pose_x q) && Qeq_bool (pose_y p) (pose_y q)
  && Qeq_bool (pose_w p) (pose_w q).

(** [WAYPOINTS]: the dict literal, in source order. *)
Definition WAYPOINTS : list (string * pose) :=
  [ ("kitchen", mkPose 7.675238132476807%Q (-6.01118278503418)%Q 1.0%Q);
    ("home",    mkPose 0.0%Q 0.0%Q 1.0%Q);
    ("table1",  mkPose 12.085535049438477%Q 4.3402838706970215%Q 0.6417557517388287%Q);
    ("table2",  mkPose (-10.501110076904297)%Q 5.375353813171387%Q 0.8235567479660424%Q);
    ("table3",  mkPose (-7.50412654876709)%Q (-9.034976959228516)%Q 0.21287361489247497%Q) ].

(** [WAYPOINTS[name]]; [None] stands for Python's [KeyError]. *)
Fixpoint assoc (name : string) (d : list (string * pose)) : option pose :=
  match d with
  | [] => None
  | (k, v) :: r => if String.eqb name k then Some v else assoc name r
  end.

(** [name in WAYPOINTS] *)
Definition in_WAYPOINTS (name : string) : bool :=
  match assoc name WAYPOINTS with Some _ => true | None => false end.

(** [CONFIRM_TIMEOUT = 30.0] seconds; the clock of the model counts
    nanoseconds, as [rospy.Time] does. *)
Definition CONFIRM_TIMEOUT : Z := 30 * 1000000000.

Inductive robot_state := IDLE | DELIVERY | WAITING_CONFIRMATION | CANCELED.

Definition robot_state_eqb (a b : robot_state) : bool :=
  match a, b with
  | IDLE, IDLE | DELIVERY, DELIVERY
  | WAITING_CONFIRMATION, WAITING_CONFIRMATION | CANCELED, CANCELED => true
  | _, _ => false
  end.

(** [actionlib.GoalStatus]: the status byte of actionlib_msgs; a client
    that has no goal reports [LOST]. *)
Definition SUCCEEDED : nat := 3.
Definition LOST : nat := 9.

(* ===================================================================== *)
(** ** The object, the outside world and what can be observed *)
(* ===================================================================== *)

Inductive thread_target :=
| T_get_orders_from_user | T_process_order | T_modify_orders_while_moving.

(** [MoveBaseGoal] as filled in by [get_goal]. *)
Record MoveBaseGoal := mkGoal { frame_id : string; stamp : Z; target : pose }.

(** What a run leaves behind, in program order: lock operations, writes to
    the two guarded fields, traffic with the action server, log lines,
    prompts and thread operations. *)
Inductive event :=
| Acquire
| Release
| SetState (s : robot_state)
| SetQueue (q : list string)
| CancelGoal
| SendGoal (g : MoveBaseGoal)
| GoalDone (p : pose) (status : nat)
| LogInfo (msg : string)
| LogErr (msg : string)
| Prompt (msg : string)
| StartThread (t : thread_target)
| JoinThread (t : thread_target)
| Shutdown (reason : string)
| Sleep (secs : nat).

Record World := mkWorld {
  (* fields of [RobotButler] *)
  state : robot_state;
  goal_location : option string;
  order_queue : list string;
  lock : bool;                 (* [true]: held *)
  is_goal_cancel : bool;
  client : nat;                (* which object [self.move_base_client] is *)
  client_status : nat;         (* what [get_state()] answers on it *)
  (* the modification thread has been started and has not run yet *)
  listener_pending : bool;
  (* how much of each oracle stream has been consumed *)
  nav_ix : nat;
  stdin_ix : nat;
  clock_ix : nat;
  wait_ix : nat;
  trace : list event
}.

(** Everything decided outside the controller. *)
Record Oracle := mkOracle {
  nav : nat -> nat;              (* terminal status of the k-th goal *)
  stdin : nat -> option string;  (* k-th console read: a line, or nothing
                                    for as long as that read waits *)
  clock : nat -> Z;              (* k-th [rospy.Time.now()], nanoseconds *)
  sigint : nat -> bool;          (* SIGINT during the k-th blocking wait *)
  listener_runs : nat -> bool    (* the modification thread runs during
                                    the k-th blocking wait *)
}.

(** The object as [__init__] leaves it. *)
Definition initial : World :=
  mkWorld IDLE None [] false false 0 LOST false 0 0 0 0
          [LogInfo "Robot Butler service initialized";
           StartThread T_get_orders_from_user].

Definition with_state (s : robot_state) (w : World) : World :=
  mkWorld s (goal_location w) (order_queue w) (lock w) (is_goal_cancel w)
          (client w) (client_status w) (listener_pending w)
          (nav_ix w) (stdin_ix w) (clock_ix w) (wait_ix w) (trace w).
Definition with_goal_location (g : option string) (w : World) : World :=
  mkWorld (state w) g (order_queue w) (lock w) (is_goal_cancel w)
          (client w) (client_status w) (listener_pending w)
          (nav_ix w) (stdin_ix w) (clock_ix w) (wait_ix w) (trace w).
Definition with_order_queue (q : list string) (w : World) : World :=
  mkWorld (state w) (goal_location w) q (lock w) (is_goal_cancel w)
          (client w) (client_status w) (listener_pending w)
          (nav_ix w) (stdin_ix w) (clock_ix w) (wait_ix w) (trace w).
Definition with_lock (b : bool) (w : World) : World :=
  mkWorld (state w) (goal_location w) (order_queue w) b (is_goal_cancel w)
          (client w) (client_status w) (listener_pending w)
          (nav_ix w) (stdin_ix w) (clock_ix w) (wait_ix w) (trace w).
Definition with_is_goal_cancel (b : bool) (w : World) : World :=
  mkWorld (state w) (goal_location w) (order_queue w) (lock w) b
          (client w) (client_status w) (listener_pending w)
          (nav_ix w) (stdin_ix w) (clock_ix w) (wait_ix w) (trace w).
Definition with_client (c st : nat) (w : World) : World :=
  mkWorld (state w) (goal_location w) (order_queue w) (lock w) (is_goal_cancel w)
          c st (listener_pending w)
          (nav_ix w) (stdin_ix w) (clock_ix w) (wait_ix w) (trace w).
Definition with_listener_pending (b : bool) (w : World) : World :=
  mkWorld (state w) (goal_location w) (order_queue w) (lock w) (is_goal_cancel w)
          (client w) (client_status w) b
          (nav_ix w) (stdin_ix w) (clock_ix w) (wait_ix w) (trace w).
Definition with_nav_ix (n : nat) (w : World) : World :=
  mkWorld (state w) (goal_location w) (order_queue w) (lock w) (is_goal_cancel w)
          (client w) (client_status w) (listener_pending w)
          n (stdin_ix w) (clock_ix w) (wait_ix w) (trace w).
Definition with_stdin_ix (n : nat) (w : World) : World :=
  mkWorld (state w) (goal_location w) (order_queue w) (lock w) (is_goal_cancel w)
          (client w) (client_status w) (listener_pending w)
          (nav_ix w) n (clock_ix w) (wait_ix w) (trace w).
Definition with_clock_ix (n : nat) (w : World) : World :=
  mkWorld (state w) (goal_location w) (order_queue w) (lock w) (is_goal_cancel w)
          (client w) (client_status w) (listener_pending w)
          (nav_ix w) (stdin_ix w) n (wait_ix w) (trace w).
Definition with_wait_ix (n : nat) (w : World) : World :=
  mkWorld (state w) (goal_location w) (order_queue w) (lock w) (is_goal_cancel w)
          (client w) (client_status w) (listener_pending w)
          (nav_ix w) (stdin_ix w) (clock_ix w) n (trace w).
Definition with_trace (t : list event) (w : World) : World :=
  mkWorld (state w) (goal_location w) (order_queue w) (lock w) (is_goal_cancel w)
          (client w) (client_status w) (listener_pending w)
          (nav_ix w) (stdin_ix w) (clock_ix w) (wait_ix w) t.

Arguments with_state _ _ /.
Arguments with_goal_location _ _ /.
Arguments with_order_queue _ _ /.
Arguments with_lock _ _ /.
Arguments with_is_goal_cancel _ _ /.
Arguments with_client _ _ _ /.
Arguments with_listener_pending _ _ /.
Arguments with_nav_ix _ _ /.
Arguments with_stdin_ix _ _ /.
Arguments with_clock_ix _ _ /.
Arguments with_wait_ix _ _ /.
Arguments with_trace _ _ /.

(** *** The monad: world passing, with the ways a call fails to return *)

Inductive result (A : Type) :=
| Ok (a : A) (w : World)
| Blocked                 (* waits for ever: a held lock, a line never typed *)
| OutOfFuel               (* the run is longer than the fuel given *)
| Raised (exn : string).  (* an uncaught Python exception *)
Arguments Ok {A} a w.
Arguments Blocked {A}.
Arguments OutOfFuel {A}.
Arguments Raised {A} exn.

Definition M (A : Type) : Type := World -> result A.

Definition ret {A} (a : A) : M A := fun w => Ok a w.

Definition bind {A B} (m : M A) (k : A -> M B) : M B :=
  fun w => match m w with
           | Ok a w' => k a w'
           | Blocked => Blocked
           | OutOfFuel => OutOfFuel
           | Raised e => Raised e
           end.

Declare Scope butler_scope.
Delimit Scope butler_scope with butler.
Notation "x <- m ;; k" := (bind m (fun x => k))
  (at level 61, m at next level, right associativity) : butler_scope.
Notation "m ;; k" := (bind m (fun _ => k))
  (at level 61, right associativity) : butler_scope.
Local Open Scope butler_scope.

Definition emit (e : event) : M unit :=
  fun w => Ok tt (with_trace (trace w ++ [e])%list w).
Definition loginfo (msg : string) : M unit := emit (LogInfo msg).
Definition logerr (msg : string) : M unit := emit (LogErr msg).

Definition read_state : M robot_state := fun w => Ok (state w) w.
Definition write_state (s : robot_state) : M unit :=
  fun w => Ok tt (with_trace (trace w ++ [SetState s])%list (with_state s w)).
Definition read_queue : M (list string) := fun w => Ok (order_queue w) w.
Definition write_queue (q : list string) : M unit :=
  fun w => Ok tt (with_trace (trace w ++ [SetQueue q])%list (with_order_queue q w)).
Definition read_goal_location : M (option string) := fun w => Ok (goal_location w) w.
Definition write_goal_location (l : string) : M unit :=
  fun w => Ok tt (with_goal_location (Some l) w).
Definition read_is_goal_cancel : M bool := fun w => Ok (is_goal_cancel w) w.
Definition write_is_goal_cancel (b : bool) : M unit :=
  fun w => Ok tt (with_is_goal_cancel b w).

(** [threading.Lock]: not re-entrant; [acquire] on a held lock waits,
    [release] on a free one raises. *)
Definition lock_acquire : M unit :=
  fun w => if lock w then Blocked
           else Ok tt (with_trace (trace w ++ [Acquire])%list (with_lock true w)).
Definition lock_release : M unit :=
  fun w => if lock w
           then Ok tt (with_trace (trace w ++ [Release])%list (with_lock false w))
           else Raised "RuntimeError".

Definition out_of_fuel {A} : M A := fun _ => OutOfFuel.
Definition blocked {A} : M A := fun _ => Blocked.
Definition raise {A} (e : string) : M A := fun _ => Raised e.

(** Decimal rendering of a status byte inside an f-string. *)
Definition str_of_nat (n : nat) : string :=
  DecimalString.NilZero.string_of_uint (Nat.to_uint n).

(* ===================================================================== *)
(** ** The methods of [RobotButler] *)
(* ===================================================================== *)

(** How a Python loop body hands control back. *)
Inductive loop_ctl := Continue | Break.

(** How the confirmation loop is left: by [return False] inside it, or by
    falling out of it ([break], or the window test failing) with the two
    locals [confirmed] and [input_received]. *)
Inductive gate_exit :=
| Returned (answer : bool)
| Fell (confirmed input_received : bool).

(** The validation loop of the intake: [table_name in WAYPOINTS]. *)
Fixpoint valid_tables_of (tables : list string) : list string :=
  match tables with
  | [] => []
  | table :: rest =>
      let table_name := "table" ++ PyStr.strip table in
      if in_WAYPOINTS table_name
      then table_name :: valid_tables_of rest
      else valid_tables_of rest
  end.

(** The validation loop of [add_tables]:
    [table_name in WAYPOINTS and table_name not in self.order_queue]. *)
Fixpoint addable_tables_of (queue tables : list string) : list string :=
  match tables with
  | [] => []
  | table :: rest =>
      let table_name := "table" ++ PyStr.strip table in
      if in_WAYPOINTS table_name && negb (PyStr.mem table_name queue)
      then table_name :: addable_tables_of queue rest
      else addable_tables_of queue rest
  end.

(** The selection loop of the removal: [table_name in self.order_queue]. *)
Fixpoint removable_tables_of (queue tables : list string) : list string :=
  match tables with
  | [] => []
  | table :: rest =>
      let table_name := "table" ++ PyStr.strip table in
      if PyStr.mem table_name queue
      then table_name :: removable_tables_of queue rest
      else removable_tables_of queue rest
  end.

Section Methods.

Variable O : Oracle.
(** What the other threads do while this one is in a blocking call. *)
Variable on_wait : M unit.
(** What [modify_thread.join()] waits for. *)
Variable on_join : M unit.

Definition time_now : M Z :=
  fun w => Ok (clock O (clock_ix w)) (with_clock_ix (S (clock_ix w)) w).
Definition next_status : M nat :=
  fun w => Ok (nav O (nav_ix w)) (with_nav_ix (S (nav_ix w)) w).
Definition read_line : M (option string) :=
  fun w => Ok (stdin O (stdin_ix w)) (with_stdin_ix (S (stdin_ix w)) w).

(** [input(prompt)]: waits until a line comes. *)
Definition input (prompt : string) : M string :=
  emit (Prompt prompt) ;;
  on_wait ;;
  r <- read_line ;;
  match r with
  | Some line => ret line
  | None => blocked
  end.

(** [select.select([sys.stdin], [], [], timeout)] and, when ready,
    [sys.stdin.readline()]. *)
Definition select_line (timeout : nat) : M (option string) :=
  on_wait ;; read_line.

Definition waypoint (name : string) : M pose :=
  match assoc name WAYPOINTS with
  | Some p => ret p
  | None => raise "KeyError"
  end.

Definition get_goal (p : pose) : M MoveBaseGoal :=
  now <- time_now ;;
  ret (mkGoal "map" now p).

(** A fresh [SimpleActionClient] replaces [self.move_base_client]. *)
Definition new_client : M nat :=
  fun w => Ok (S (client w)) (with_client (S (client w)) LOST w).
(** The goal sent on client [c] reaches its terminal status, which that
    client object keeps; [self.move_base_client] may be another object by
    then. *)
Definition settle (c : nat) (p : pose) (st : nat) : M unit :=
  fun w =>
    let status := if Nat.eqb (client w) c then st else client_status w in
    Ok tt (with_trace (trace w ++ [GoalDone p st])%list
                      (with_client (client w) status w)).
(** [self.move_base_client.get_state()] *)
Definition get_state : M nat := fun w => Ok (client_status w) w.
(** [self.move_base_client.cancel_goal()] *)
Definition cancel_goal : M unit := emit CancelGoal.

Definition send_goal (p : pose) : M bool :=
  goal <- get_goal p ;;
  c <- new_client ;;
  emit (SendGoal goal) ;;
  on_wait ;;                       (* wait_for_result() *)
  st <- next_status ;;
  settle c p st ;;
  state <- get_state ;;
  if Nat.eqb state SUCCEEDED
  then loginfo "Goal reached successfully" ;; ret true
  else loginfo ("Failed to reach goal with state: " ++ str_of_nat state) ;;
       ret false.

Definition move_to_kitchen : M bool :=
  write_goal_location "kitchen" ;;
  loginfo "Moving to kitchen.." ;;
  p <- waypoint "kitchen" ;;
  ok <- send_goal p ;;
  if negb ok
  then loginfo "Failed to reach the kitchen, aborting task" ;; ret false
  else ret true.

Definition move_to_table (table : string) : M bool :=
  write_goal_location table ;;
  loginfo ("Moving to " ++ table ++ "..") ;;
  p <- waypoint table ;;
  send_goal p.

Definition return_to_home : M unit :=
  loginfo "Returning to home.." ;;
  p <- waypoint "home" ;;
  _ <- send_goal p ;;
  ret tt.

Definition return_to_kitchen : M unit :=
  loginfo "Returning to kitchen.." ;;
  p <- waypoint "kitchen" ;;
  _ <- send_goal p ;;
  c <- read_is_goal_cancel ;;
  logerr ("self.is_goal_cancel :" ++ PyStr.str_of_bool c) ;;
  st <- get_state ;;
  if Nat.eqb st SUCCEEDED
  then c' <- read_is_goal_cancel ;;
       if c' then return_to_home ;; write_is_goal_cancel false else ret tt
  else ret tt.

Definition timed_input (prompt : string) (timeout : nat) : M (option string) :=
  emit (Prompt prompt) ;;
  ready <- select_line timeout ;;
  match ready with
  | Some line => ret (Some (PyStr.strip line))
  | None => ret None
  end.

Definition signal_handler : M unit :=
  loginfo "Cancellation request received. Pressing Ctrl+C" ;;
  lock_acquire ;;
  write_state CANCELED ;;
  cancel_goal ;;
  g <- read_goal_location ;;
  (match g with
   | Some l =>
       if String.eqb l "kitchen"
       then loginfo "Task canceled while going to the kitchen. Returning home" ;;
            return_to_home
       else if negb (String.eqb l "") && PyStr.contains "table" l
       then loginfo "Task canceled while going to a table. Returning to kitchen first" ;;
            write_is_goal_cancel true ;;
            return_to_kitchen
       else loginfo "Task canceled, returning home" ;;
            return_to_home
   | None =>
       loginfo "Task canceled, returning home" ;;
       return_to_home
   end) ;;
  lock_release.

(** One turn of the [while True] of the intake, up to its [sleep(1)]. *)
Definition get_orders_from_user_step : M loop_ctl :=
  st <- read_state ;;
  if robot_state_eqb st IDLE
  then
    raw <- input "Enter table numbers (comma separated, or type 'exit' to quit): " ;;
    let order_input := PyStr.strip raw in
    if String.eqb (PyStr.lower order_input) "exit"
    then emit (Shutdown "User exited") ;; ret Break
    else
      lock_acquire ;;
      let tables := PyStr.split "," order_input in
      let valid_tables := valid_tables_of tables in
      match valid_tables with
      | _ :: _ =>
          q <- read_queue ;;
          write_queue (q ++ valid_tables)%list ;;
          loginfo ("Orders received for: " ++ PyStr.join ", " valid_tables) ;;
          lock_release ;;
          emit (StartThread T_process_order) ;;
          ret Continue
      | [] =>
          loginfo "Invalid table numbers, please try again" ;;
          lock_release ;;
          ret Continue
      end
  else ret Continue.

Fixpoint get_orders_from_user (fuel : nat) : M unit :=
  match fuel with
  | 0 => out_of_fuel
  | S fuel' =>
      c <- get_orders_from_user_step ;;
      match c with
      | Break => ret tt
      | Continue => emit (Sleep 1) ;; get_orders_from_user fuel'
      end
  end.

Definition add_tables : M unit :=
  raw <- input "Enter table numbers to add (comma separated): " ;;
  let tables := PyStr.split "," (PyStr.strip raw) in
  q <- read_queue ;;
  let valid_tables := addable_tables_of q tables in
  match valid_tables with
  | _ :: _ =>
      q' <- read_queue ;;
      write_queue (q' ++ valid_tables)%list ;;
      loginfo ("Added tables: " ++ PyStr.join ", " valid_tables)
  | [] =>
      loginfo "No valid tables to add or they are already in the queue"
  end.

(** [for table in tables_to_remove: if table in self.order_queue: ...] *)
Fixpoint remove_tables (tables_to_remove : list string) : M unit :=
  match tables_to_remove with
  | [] => ret tt
  | table :: rest =>
      q <- read_queue ;;
      (if PyStr.mem table q
       then write_queue (PyStr.remove_first table q) ;;
            loginfo ("Removed " ++ table ++ " from the queue")
       else ret tt) ;;
      remove_tables rest
  end.

Fixpoint modify_orders_while_moving (fuel : nat) : M unit :=
  match fuel with
  | 0 => out_of_fuel
  | S fuel' =>
      st <- read_state ;;
      if robot_state_eqb st DELIVERY
      then
        loginfo "Do you want to add or remove tables? (add/remove/none):" ;;
        input_ready <- select_line 8 ;;
        match input_ready with
        | None =>
            loginfo "No input received for 8 seconds. Closing modification thread"
        | Some line =>
            let modify_input := PyStr.lower (PyStr.strip line) in
            if String.eqb modify_input "none"
            then loginfo "No modifications requested"
            else if String.eqb modify_input "add"
            then add_tables
            else if String.eqb modify_input "remove"
            then
              raw <- input "Enter the table number(s) to remove (comma separated): " ;;
              q <- read_queue ;;
              let tables_to_remove :=
                removable_tables_of q (PyStr.split "," (PyStr.strip raw)) in
              match tables_to_remove with
              | [] =>
                  loginfo "No valid tables to remove. Please enter valid tables" ;;
                  modify_orders_while_moving fuel'
              | _ :: _ =>
                  remove_tables tables_to_remove ;;
                  q' <- read_queue ;;
                  match q' with
                  | [] =>
                      loginfo "No more tables in the order queue, canceling kitchen trip and returning home" ;;
                      cancel_goal ;;
                      return_to_home ;;
                      write_state IDLE
                  | _ :: _ => ret tt
                  end
              end
            else
              loginfo "Invalid input. Please enter 'add', 'remove', or 'none'" ;;
              modify_orders_while_moving fuel'
        end
      else ret tt
  end.

(** The [while] of [wait_for_confirmation]. *)
Fixpoint confirmation_loop (fuel : nat) (location : string) (start_time : Z)
  : M gate_exit :=
  match fuel with
  | 0 => out_of_fuel
  | S fuel' =>
      now <- time_now ;;
      if (now - start_time <? CONFIRM_TIMEOUT)%Z
      then
        user_input <- timed_input ("Confirm at " ++ location ++ " (yes/no): ") 5 ;;
        let check_canceled : M gate_exit :=
          st <- read_state ;;
          if robot_state_eqb st CANCELED
          then loginfo ("Task canceled at " ++ location) ;; ret (Returned false)
          else confirmation_loop fuel' location start_time in
        match user_input with
        | None =>
            loginfo "No input received, retrying.." ;;
            check_canceled
        | Some text =>
            let user_input := PyStr.lower (PyStr.strip text) in
            if String.eqb user_input "yes"
            then loginfo ("Confirmation received at " ++ location) ;;
                 ret (Fell true true)
            else if String.eqb user_input "no"
            then loginfo ("Confirmation declined at " ++ location) ;;
                 ret (Fell false true)
            else loginfo "Invalid input, please type 'yes' or 'no'" ;;
                 check_canceled
        end
      else ret (Fell false false)
  end.

Definition wait_for_confirmation (fuel : nat) (location : string) : M bool :=
  write_goal_location location ;;
  loginfo ("Waiting for confirmation at " ++ location ++ "..") ;;
  start_time <- time_now ;;
  x <- confirmation_loop fuel location start_time ;;
  match x with
  | Returned answer => ret answer
  | Fell confirmed input_received =>
      if negb input_received
      then
        if PyStr.contains "table" location
        then loginfo ("No confirmation received at " ++ location ++ " within timeout") ;;
             loginfo "Returning to kitchen and home due to lack of confirmation" ;;
             return_to_kitchen ;;
             return_to_home ;;
             ret false
        else loginfo ("No confirmation received at " ++ location ++ " within timeout") ;;
             loginfo "Returning to home due to lack of confirmation" ;;
             return_to_home ;;
             ret false
      else ret confirmed
  end.

(** The [while self.order_queue and self.state != CANCELED] of
    [process_order]. *)
Fixpoint serve_queue (fuel : nat) : M unit :=
  match fuel with
  | 0 => out_of_fuel
  | S fuel' =>
      q <- read_queue ;;
      match q with
      | [] => ret tt
      | current_table :: rest =>
          st <- read_state ;;
          if robot_state_eqb st CANCELED then ret tt
          else
            write_queue rest ;;                      (* pop(0) *)
            write_goal_location current_table ;;
            reached <- move_to_table current_table ;;
            if negb reached
            then loginfo ("Failed to reach " ++ current_table ++ ", skipping") ;;
                 serve_queue fuel'
            else
              confirmed <- wait_for_confirmation fuel' current_table ;;
              if negb confirmed
              then loginfo ("No confirmation at " ++ current_table
                            ++ ", moving to the next table") ;;
                   serve_queue fuel'
              else serve_queue fuel'
      end
  end.

(** [process_order] after its entry check: the delivery cycle. *)
Definition deliver (fuel : nat) : M unit :=
  (fun w => Ok tt (with_listener_pending true w)) ;;
  emit (StartThread T_modify_orders_while_moving) ;;
  at_kitchen <- move_to_kitchen ;;
  if negb at_kitchen
  then loginfo "Failed to reach the kitchen, aborting task" ;;
       write_state IDLE
  else
    confirmed <- wait_for_confirmation fuel "kitchen" ;;
    if negb confirmed
    then loginfo "No confirmation at the kitchen, returning to home" ;;
         return_to_home ;;
         write_state IDLE
    else
      emit (JoinThread T_modify_orders_while_moving) ;;
      on_join ;;
      serve_queue fuel ;;
      st <- read_state ;;
      (if robot_state_eqb st CANCELED
       then loginfo "Order processing was canceled, returning to kitchen" ;;
            return_to_kitchen
       else return_to_home) ;;
      write_state IDLE.

Definition process_order (fuel : nat) : M unit :=
  lock_acquire ;;
  st <- read_state ;;
  if negb (robot_state_eqb st IDLE)
  then loginfo "Robot is busy with another task" ;;
       lock_release
  else
    write_state DELIVERY ;;
    lock_release ;;
    deliver fuel.

(** *** [ask_modify_orders]

    The blocking variant of the modification prompt; nothing in the program
    calls it.  It validates against the registry, as the intake does, and
    changes the queue under the lock. *)

(** [for table in tables_to_modify: if table not in self.order_queue: ...] *)
Fixpoint ask_add_tables (tables_to_modify : list string) : M unit :=
  match tables_to_modify with
  | [] => ret tt
  | table :: rest =>
      q <- read_queue ;;
      (if negb (PyStr.mem table q)
       then write_queue (q ++ [table])%list ;;          (* append(table) *)
            loginfo ("Added " ++ table ++ " to orders")
       else loginfo (table ++ " is already in the order queue")) ;;
      ask_add_tables rest
  end.

(** [for table in tables_to_modify: if table in self.order_queue: ...] *)
Fixpoint ask_remove_tables (tables_to_modify : list string) : M unit :=
  match tables_to_modify with
  | [] => ret tt
  | table :: rest =>
      q <- read_queue ;;
      (if PyStr.mem table q
       then write_queue (PyStr.remove_first table q) ;;
            loginfo ("Removed " ++ table ++ " from orders")
       else loginfo (table ++ " was not found in the order queue")) ;;
      ask_remove_tables rest
  end.

(** The [while self.state == DELIVERY] of [ask_modify_orders]: only "none"
    leaves it; after an add or a remove the prompt comes again. *)
Fixpoint ask_modify_orders (fuel : nat) : M unit :=
  match fuel with
  | 0 => out_of_fuel
  | S fuel' =>
      st <- read_state ;;
      if robot_state_eqb st DELIVERY
      then
        raw <- input "Do you want to add or remove tables? (add/remove/none): " ;;
        let modify_input := PyStr.lower (PyStr.strip raw) in
        if String.eqb modify_input "none"
        then ret tt
        else if String.eqb modify_input "add" || String.eqb modify_input "remove"
        then
          raw' <- input ("Enter table number(s) to " ++ modify_input
                            ++ " (comma separated): ") ;;
          let tables_to_modify :=
            valid_tables_of (PyStr.split "," (PyStr.strip raw')) in
          lock_acquire ;;
          (if String.eqb modify_input "add"
           then ask_add_tables tables_to_modify
           else if String.eqb modify_input "remove"
           then ask_remove_tables tables_to_modify
           else ret tt) ;;
          lock_release ;;
          ask_modify_orders fuel'
        else
          loginfo "Invalid input, please enter 'add', 'remove', or 'none'" ;;
          ask_modify_orders fuel'
      else ret tt
  end.

End Methods.

(* ===================================================================== *)
(** ** The threads *)
(* ===================================================================== *)

(** The methods run on four threads.  In this part a thread is preempted
    only while it is inside a blocking call, and what runs there runs to
    its end before the thread goes on:

    - the SIGINT handler runs undisturbed ([interrupted_handler] is the
      handler that takes a second signal);
    - the modification thread can be interrupted by the handler;
    - the delivery thread can be interrupted by the handler and by the
      modification thread it started, which runs once: during one of the
      delivery thread's waits, or at the latest at [join()];
    - the intake thread can be interrupted by the handler.

    For the handler this is exact as long as no delivery cycle is under
    way: nothing else touches the action client or the state while the
    handler waits for its recovery goal.  When a cycle is under way the
    handler waits on the main thread while the delivery thread goes on;
    the runs in which the two take turns are those of [schedule], in the
    next part. *)

Definition undisturbed : M unit := ret tt.

(** The handler with nothing else running while it waits for its recovery
    goals. *)
Definition sigint_handler (O : Oracle) : M unit :=
  signal_handler O undisturbed.

Definition next_wait : M nat :=
  fun w => Ok (wait_ix w) (with_wait_ix (S (wait_ix w)) w).

Definition deliver_sigint (O : Oracle) : M unit :=
  k <- next_wait ;;
  if sigint O k then sigint_handler O else ret tt.

Definition listener_thread (O : Oracle) (fuel : nat) : M unit :=
  modify_orders_while_moving O (deliver_sigint O) fuel.

Definition run_listener (O : Oracle) (fuel : nat) : M unit :=
  fun w => if listener_pending w
           then listener_thread O fuel (with_listener_pending false w)
           else Ok tt w.

Definition while_delivery_waits (O : Oracle) (fuel : nat) : M unit :=
  k <- next_wait ;;
  (if sigint O k then sigint_handler O else ret tt) ;;
  (if listener_runs O k then run_listener O fuel else ret tt).

Definition delivery_thread (O : Oracle) (fuel : nat) : M unit :=
  process_order O (while_delivery_waits O fuel) (run_listener O fuel) fuel.

Definition intake_step (O : Oracle) : M loop_ctl :=
  get_orders_from_user_step O (deliver_sigint O).

(** A second SIGINT, taken while the handler of the first is inside a
    blocking call. *)
Definition interrupted_handler (O : Oracle) : M unit :=
  signal_handler O (sigint_handler O).

(* ===================================================================== *)
(** ** Threads that take turns *)
(* ===================================================================== *)

(** When a delivery cycle is under way, the handler and the delivery thread
    are both alive: each of them runs up to a blocking call, and while it
    waits there the other one goes on.  For such runs a method is kept as
    far as it has come.  ([client_status] holds terminal statuses only: a
    client whose goal is still out answers [LOST], which stands for any
    status other than [SUCCEEDED].) *)

(** A method run as a thread, as far as it has come: it has come to its
    end, or it is inside a blocking call, and [k] is what it does when that
    call comes back. *)
Inductive thread (A : Type) :=
| Ended (r : result A)
| Waiting (w : World) (k : World -> thread A).
Arguments Ended {A} r.
Arguments Waiting {A} w k.

Definition Th (A : Type) : Type := World -> thread A.

(** Code that does not block. *)
Definition lift {A} (m : M A) : Th A := fun w => Ended (m w).
(** A blocking call. *)
Definition wait : Th unit := fun w => Waiting w (fun w' => Ended (Ok tt w')).

Fixpoint extend {A B} (t : thread A) (k : A -> Th B) : thread B :=
  match t with
  | Ended (Ok a w) => k a w
  | Ended Blocked => Ended Blocked
  | Ended OutOfFuel => Ended OutOfFuel
  | Ended (Raised e) => Ended (Raised e)
  | Waiting w r => Waiting w (fun w' => extend (r w') k)
  end.

Definition bind_t {A B} (m : Th A) (k : A -> Th B) : Th B :=
  fun w => extend (m w) k.

Notation "x <~ m ;; k" := (bind_t m (fun x => k))
  (at level 61, m at next level, right associativity) : butler_scope.
Notation "m ;;; k" := (bind_t m (fun _ => k))
  (at level 61, right associativity) : butler_scope.

(** A thread with [h] run inside each of its blocking calls and nothing
    else in between: the reading of the methods above. *)
Fixpoint run_thread {A} (h : M unit) (t : thread A) : result A :=
  match t with
  | Ended r => r
  | Waiting w k =>
      match h w with
      | Ok _ w1 => run_thread h (k w1)
      | Blocked => Blocked
      | OutOfFuel => OutOfFuel
      | Raised e => Raised e
      end
  end.

Definition alone {A} (h : M unit) (m : Th A) : M A := fun w => run_thread h (m w).

(** The methods of the handler and of the delivery thread once more, with
    their blocking calls as places where the thread can be left: the code
    between two blocking calls is the code of the methods above. *)
Section ThreadMethods.

Variable O : Oracle.
Variable on_join : M unit.

Definition select_line_t (timeout : nat) : Th (option string) :=
  wait ;;; lift (read_line O).

Definition send_goal_t (p : pose) : Th bool :=
  c <~ lift (goal <- get_goal O p ;;
             c <- new_client ;;
             emit (SendGoal goal) ;;
             ret c) ;;
  wait ;;;                         (* wait_for_result() *)
  lift (st <- next_status O ;;
        settle c p st ;;
        state <- get_state ;;
        if Nat.eqb state SUCCEEDED
        then loginfo "Goal reached successfully" ;; ret true
        else loginfo ("Failed to reach goal with state: " ++ str_of_nat state) ;;
             ret false).

Definition move_to_kitchen_t : Th bool :=
  p <~ lift (write_goal_location "kitchen" ;;
             loginfo "Moving to kitchen.." ;;
             waypoint "kitchen") ;;
  ok <~ send_goal_t p ;;
  lift (if negb ok
        then loginfo "Failed to reach the kitchen, aborting task" ;; ret false
        else ret true).

Definition move_to_table_t (table : string) : Th bool :=
  p <~ lift (write_goal_location table ;;
             loginfo ("Moving to " ++ table ++ "..") ;;
             waypoint table) ;;
  send_goal_t p.

Definition return_to_home_t : Th unit :=
  p <~ lift (loginfo "Returning to home.." ;; waypoint "home") ;;
  _ <~ send_goal_t p ;;
  lift (ret tt).

(** The test after the goal is
    [get_state() == SUCCEEDED and self.is_goal_cancel]. *)
Definition return_to_kitchen_t : Th unit :=
  p <~ lift (loginfo "Returning to kitchen.." ;; waypoint "kitchen") ;;
  _ <~ send_goal_t p ;;
  go_home <~ lift (c <- read_is_goal_cancel ;;
                   logerr ("self.is_goal_cancel :" ++ PyStr.str_of_bool c) ;;
                   st <- get_state ;;
                   if Nat.eqb st SUCCEEDED then read_is_goal_cancel else ret false) ;;
  if go_home : bool
  then return_to_home_t ;;; lift (write_is_goal_cancel false)
  else lift (ret tt).

Definition timed_input_t (prompt : string) (timeout : nat) : Th (option string) :=
  lift (emit (Prompt prompt)) ;;;
  ready <~ select_line_t timeout ;;
  lift (match ready with
        | Some line => ret (Some (PyStr.strip line))
        | None => ret None
        end).

Definition signal_handler_t : Th unit :=
  g <~ lift (loginfo "Cancellation request received. Pressing Ctrl+C" ;;
             lock_acquire ;;
             write_state CANCELED ;;
             cancel_goal ;;
             read_goal_location) ;;
  (match g with
   | Some l =>
       if String.eqb l "kitchen"
       then lift (loginfo "Task canceled while going to the kitchen. Returning home") ;;;
            return_to_home_t
       else if negb (String.eqb l "") && PyStr.contains "table" l
       then lift (loginfo "Task canceled while going to a table. Returning to kitchen first" ;;
                  write_is_goal_cancel true) ;;;
            return_to_kitchen_t
       else lift (loginfo "Task canceled, returning home") ;;;
            return_to_home_t
   | None =>
       lift (loginfo "Task canceled, returning home") ;;;
       return_to_home_t
   end) ;;;
  lift lock_release.

Fixpoint confirmation_loop_t (fuel : nat) (location : string) (start_time : Z)
  : Th gate_exit :=
  match fuel with
  | 0 => lift out_of_fuel
  | S fuel' =>
      now <~ lift (time_now O) ;;
      if (now - start_time <? CONFIRM_TIMEOUT)%Z
      then
        user_input <~ timed_input_t ("Confirm at " ++ location ++ " (yes/no): ") 5 ;;
        let check_canceled : Th gate_exit :=
          st <~ lift read_state ;;
          if robot_state_eqb st CANCELED
          then lift (loginfo ("Task canceled at " ++ location) ;; ret (Returned false))
          else confirmation_loop_t fuel' location start_time in
        match user_input with
        | None =>
            lift (loginfo "No input received, retrying..") ;;;
            check_canceled
        | Some text =>
            let user_input := PyStr.lower (PyStr.strip text) in
            if String.eqb user_input "yes"
            then lift (loginfo ("Confirmation received at " ++ location) ;;
                       ret (Fell true true))
            else if String.eqb user_input "no"
            then lift (loginfo ("Confirmation declined at " ++ location) ;;
                       ret (Fell false true))
            else lift (loginfo "Invalid input, please type 'yes' or 'no'") ;;;
                 check_canceled
        end
      else lift (ret (Fell false false))
  end.

Definition wait_for_confirmation_t (fuel : nat) (location : string) : Th bool :=
  start_time <~ lift (write_goal_location location ;;
                      loginfo ("Waiting for confirmation at " ++ location ++ "..") ;;
                      time_now O) ;;
  x <~ confirmation_loop_t fuel location start_time ;;
  match x with
  | Returned answer => lift (ret answer)
  | Fell confirmed input_received =>
      if negb input_received
      then
        if PyStr.contains "table" location
        then lift (loginfo ("No confirmation received at " ++ location ++ " within timeout") ;;
                   loginfo "Returning to kitchen and home due to lack of confirmation") ;;;
             return_to_kitchen_t ;;;
             return_to_home_t ;;;
             lift (ret false)
        else lift (loginfo ("No confirmation received at " ++ location ++ " within timeout") ;;
                   loginfo "Returning to home due to lack of confirmation") ;;;
             return_to_home_t ;;;
             lift (ret false)
      else lift (ret confirmed)
  end.

Fixpoint serve_queue_t (fuel : nat) : Th unit :=
  match fuel with
  | 0 => lift out_of_fuel
  | S fuel' =>
      q <~ lift read_queue ;;
      match q with
      | [] => lift (ret tt)
      | current_table :: rest =>
          st <~ lift read_state ;;
          if robot_state_eqb st CANCELED then lift (ret tt)
          else
            lift (write_queue rest ;;                  (* pop(0) *)
                  write_goal_location current_table) ;;;
            reached <~ move_to_table_t current_table ;;
            if negb reached
            then lift (loginfo ("Failed to reach " ++ current_table ++ ", skipping")) ;;;
                 serve_queue_t fuel'
            else
              confirmed <~ wait_for_confirmation_t fuel' current_table ;;
              if negb confirmed
              then lift (loginfo ("No confirmation at " ++ current_table
                                  ++ ", moving to the next table")) ;;;
                   serve_queue_t fuel'
              else serve_queue_t fuel'
      end
  end.

Definition deliver_t (fuel : nat) : Th unit :=
  lift ((fun w => Ok tt (with_listener_pending true w)) ;;
        emit (StartThread T_modify_orders_while_moving)) ;;;
  at_kitchen <~ move_to_kitchen_t ;;
  if negb at_kitchen
  then lift (loginfo "Failed to reach the kitchen, aborting task" ;;
             write_state IDLE)
  else
    confirmed <~ wait_for_confirmation_t fuel "kitchen" ;;
    if negb confirmed
    then lift (loginfo "No confirmation at the kitchen, returning to home") ;;;
         return_to_home_t ;;;
         lift (write_state IDLE)
    else
      lift (emit (JoinThread T_modify_orders_while_moving) ;;
            on_join) ;;;
      serve_queue_t fuel ;;;
      st <~ lift read_state ;;
      (if robot_state_eqb st CANCELED
       then lift (loginfo "Order processing was canceled, returning to kitchen") ;;;
            return_to_kitchen_t
       else return_to_home_t) ;;;
      lift (write_state IDLE).

Definition process_order_t (fuel : nat) : Th unit :=
  st <~ lift (lock_acquire ;; read_state) ;;
  if negb (robot_state_eqb st IDLE)
  then lift (loginfo "Robot is busy with another task" ;;
             lock_release)
  else
    lift (write_state DELIVERY ;;
          lock_release) ;;;
    deliver_t fuel.

End ThreadMethods.

(** The threads that are inside a blocking call: the delivery thread, and
    the signal handlers on the main thread (a SIGINT taken while a handler
    runs starts a new one on top of it, which has to return first). *)
Record pool := mkPool {
  cycle_at : option (World -> thread unit);
  handlers_at : list (World -> thread unit)
}.

(** What happens next. *)
Inductive step :=
| Sigint            (* a SIGINT arrives: the handler starts on the main
                       thread and runs up to its first blocking call *)
| Handler_goes_on   (* the blocking call of the handler comes back: the
                       handler runs up to its next one, or to its end *)
| Cycle_goes_on     (* the same for the delivery thread *)
| Listener_runs.    (* the modification thread runs, if it has been
                       started and has not run yet *)

Definition runs_on (k : World -> thread unit) : M (option (World -> thread unit)) :=
  fun w => match k w with
           | Ended (Ok _ w') => Ok None w'
           | Ended Blocked => Blocked
           | Ended OutOfFuel => OutOfFuel
           | Ended (Raised e) => Raised e
           | Waiting w' k' => Ok (Some k') w'
           end.

Definition push (h : option (World -> thread unit)) (l : list (World -> thread unit))
  : list (World -> thread unit) :=
  match h with Some k => k :: l | None => l end.

Definition take_step (O : Oracle) (fuel : nat) (s : step) (p : pool) : M pool :=
  match s with
  | Sigint =>
      h <- runs_on (signal_handler_t O) ;;
      ret (mkPool (cycle_at p) (push h (handlers_at p)))
  | Handler_goes_on =>
      match handlers_at p with
      | [] => ret p
      | k :: rest =>
          h <- runs_on k ;;
          ret (mkPool (cycle_at p) (push h rest))
      end
  | Cycle_goes_on =>
      match cycle_at p with
      | None => ret p
      | Some k =>
          c <- runs_on k ;;
          ret (mkPool c (handlers_at p))
      end
  | Listener_runs => run_listener O fuel ;; ret p
  end.

(** A run of the threads: who goes on, turn by turn.  The terminal status
    of a goal and the line of a console read are taken from the oracle when
    the thread that waits for them goes on. *)
Fixpoint schedule (O : Oracle) (fuel : nat) (steps : list step) (p : pool) : M pool :=
  match steps with
  | [] => ret p
  | s :: rest => p' <- take_step O fuel s p ;; schedule O fuel rest p'
  end.

(** The intake has started a delivery thread, which has not run yet. *)
Definition cycle_started (O : Oracle) (fuel : nat) : pool :=
  mkPool (Some (process_order_t O (run_listener O fuel) fuel)) [].

(* ===================================================================== *)
(** ** Reading a trace *)
(* ===================================================================== *)

(** The poses goals were sent to, in order. *)
Fixpoint goals_sent (t : list event) : list pose :=
  match t with
  | [] => []
  | SendGoal g :: r => target g :: goals_sent r
  | _ :: r => goals_sent r
  end.

(** The registry name of a pose ([WAYPOINTS] has no two keys with the same
    pose). *)
Fixpoint name_of_pose (p : pose) (d : list (string * pose)) : option string :=
  match d with
  | [] => None
  | (k, v) :: r => if pose_eqb p v then Some k else name_of_pose p r
  end.

(** The waypoints a run headed for, by name. *)
Fixpoint visits (t : list event) : list string :=
  match t with
  | [] => []
  | SendGoal g :: r =>
      match name_of_pose (target g) WAYPOINTS with
      | Some k => k :: visits r
      | None => visits r
      end
  | _ :: r => visits r
  end.

(** The state writes of a run, in order. *)
Fixpoint state_writes (t : list event) : list robot_state :=
  match t with
  | [] => []
  | SetState s :: r => s :: state_writes r
  | _ :: r => state_writes r
  end.

(** The tables among them: the names the controller itself takes for
    tables, those containing "table". *)
Definition table_visits (t : list event) : list string :=
  filter (PyStr.contains "table") (visits t).

(* ===================================================================== *)
(** ** Vocabulary of the statements *)
(* ===================================================================== *)

(** The name a goal pose stands for, as a list of at most one name. *)
Definition visit_of (p : pose) : list string :=
  match name_of_pose p WAYPOINTS with Some k => [k] | None => [] end.

(** What a call that comes back may have done to the world, as far as the
    delivery cycle cares: it left the queue, the lock and the pending
    modification thread alone, time went on, and the goals it sent to
    tables were [tv]. *)
Record effect (tv : list string) (w w' : World) : Prop := mkEffect {
  eff_queue : order_queue w' = order_queue w;
  eff_lock : lock w' = lock w;
  eff_pending : listener_pending w' = listener_pending w;
  eff_clock : clock_ix w <= clock_ix w';
  eff_trace : exists evs, trace w' = (trace w ++ evs)%list /\ table_visits evs = tv
}.

(** [m] returns from every world satisfying [P], with effect [tv] and a
    value satisfying [V]. *)
Definition does {A} (P : World -> Prop) (m : M A) (tv : list string)
                (V : A -> Prop) : Prop :=
  forall w, P w -> exists a w', m w = Ok a w' /\ effect tv w w' /\ V a.

Definition any {A} : A -> Prop := fun _ => True.

(** A precondition that no such effect can break. *)
Definition stable (P : World -> Prop) : Prop :=
  forall tv w w', effect tv w w' -> P w -> P w'.

(** The clock shows the confirmation window closed after at most [N]
    further readings. *)
Definition window_bound (O : Oracle) (N : nat) : Prop :=
  forall i j, i + N <= j -> (CONFIRM_TIMEOUT <= clock O j - clock O i)%Z.

(** A queue entry the cycle can drive to: a key of the registry that the
    controller takes for a table. *)
Definition table_key (t : string) : Prop :=
  in_WAYPOINTS t = true /\ PyStr.contains "table" t = true.

(** The precondition of the delivery thread between its blocking calls:
    nobody holds the lock, and the modification thread is not waiting to
    run. *)
Definition unlocked (w : World) : Prop :=
  lock w = false /\ listener_pending w = false.

(** The pose registered under a name (the origin if there is none). *)
Definition pose_of (name : string) : pose :=
  match assoc name WAYPOINTS with Some p => p | None => mkPose 0 0 0 end.

(** The events of a run that are lock operations. *)
Definition lock_ops (t : list event) : list event :=
  filter (fun e => match e with Acquire | Release => true | _ => false end) t.

(** What the handler has done when it returns. *)
Record handled (w w' : World) : Prop := mkHandled {
  h_state : state w' = CANCELED;
  h_queue : order_queue w' = order_queue w;
  h_lock : lock w' = false;
  h_pending : listener_pending w' = listener_pending w;
  h_goal : goal_location w' = goal_location w;
  h_stdin : stdin_ix w' = stdin_ix w;
  h_wait : wait_ix w' = wait_ix w;
  h_clock : clock_ix w <= clock_ix w';
  h_trace :
    exists body,
      trace w' = (trace w ++ [LogInfo "Cancellation request received. Pressing Ctrl+C";
                              Acquire; SetState CANCELED; CancelGoal]
                  ++ body ++ [Release])%list
      /\ table_visits body = []
      /\ lock_ops body = []
      /\ state_writes body = []
      /\ exists g rest, goals_sent body = g :: rest
}.

(** The world in which the cycle proper starts: the check-and-set has been
    done under the lock, and the lock has been given back. *)
Definition entered (w : World) : World :=
  with_trace (trace w ++ [Acquire; SetState DELIVERY; Release])%list
             (with_state DELIVERY w).

(** The threads a run started. *)
Fixpoint threads_started (t : list event) : list thread_target :=
  match t with
  | [] => []
  | StartThread x :: r => x :: threads_started r
  | _ :: r => threads_started r
  end.

(** The queue contents a run wrote. *)
Fixpoint queue_writes (t : list event) : list (list string) :=
  match t with
  | [] => []
  | SetQueue q :: r => q :: queue_writes r
  | _ :: r => queue_writes r
  end.

Definition valid_queue (q : list string) : Prop :=
  Forall (fun t => in_WAYPOINTS t = true) q.

(** How the gate reads an answer: [user_input.strip().lower()] on what
    [timed_input] returned stripped. *)
Definition answer_of (line : string) : string :=
  PyStr.lower (PyStr.strip (PyStr.strip line)).

(** Whether a console read brought a recognised answer. *)
Definition is_answer (r : option string) : bool :=
  match r with
  | None => false
  | Some line => String.eqb (answer_of line) "yes" || String.eqb (answer_of line) "no"
  end.

(** The world [n] unanswered, undisturbed attempts later. *)
Definition after_attempts (n : nat) (evs : list event) (w : World) : World :=
  mkWorld (state w) (goal_location w) (order_queue w) (lock w) (is_goal_cancel w)
          (client w) (client_status w) (listener_pending w)
          (nav_ix w) (n + stdin_ix w) (n + clock_ix w) (n + wait_ix w)
          (trace w ++ evs).

(** The events after the first occurrence of a log line. *)
Fixpoint after_log (msg : string) (t : list event) : option (list event) :=
  match t with
  | [] => None
  | LogInfo m :: r => if String.eqb m msg then Some r else after_log msg r
  | _ :: r => after_log msg r
  end.

(** The queue after the removal loop. *)
Fixpoint remove_all (tables_to_remove queue : list string) : list string :=
  match tables_to_remove with
  | [] => queue
  | table :: rest =>
      remove_all rest (if PyStr.mem table queue
                       then PyStr.remove_first table queue else queue)
  end.

(** What the removal loop writes and logs. *)
Fixpoint removal_events (tables_to_remove queue : list string) : list event :=
  match tables_to_remove with
  | [] => []
  | table :: rest =>
      if PyStr.mem table queue
      then SetQueue (PyStr.remove_first table queue)
           :: LogInfo ("Removed " ++ table ++ " from the queue")
           :: removal_events rest (PyStr.remove_first table queue)
      else removal_events rest queue
  end.

(** One turn of the modification thread that changes nothing and asks
    again, as the console decides it: a line that is no command, or
    "remove" followed by names none of which is in the queue, with no
    SIGINT arriving while the thread waits.  The pair is the console read
    and the wait the turn starts at; the result, those the next turn starts
    at. *)
Definition idle_prompt (O : Oracle) (queue : list string) (ix : nat * nat)
  : option (nat * nat) :=
  let (si, wi) := ix in
  if sigint O wi then None
  else
    match stdin O si with
    | None => None
    | Some line =>
        let modify_input := PyStr.lower (PyStr.strip line) in
        if String.eqb modify_input "none" then None
        else if String.eqb modify_input "add" then None
        else if String.eqb modify_input "remove"
        then
          if sigint O (S wi) then None
          else
            match stdin O (S si) with
            | None => None
            | Some raw =>
                match removable_tables_of queue (PyStr.split "," (PyStr.strip raw)) with
                | [] => Some (S (S si), S (S wi))
                | _ :: _ => None
                end
            end
        else Some (S si, S wi)
    end.

Fixpoint idle_prompts (O : Oracle) (queue : list string) (n : nat) (ix : nat * nat)
  : option (nat * nat) :=
  match n with
  | 0 => Some ix
  | S n' =>
      match idle_prompt O queue ix with
      | Some ix' => idle_prompts O queue n' ix'
      | None => None
      end
  end.

(** The world after such turns. *)
Definition after_prompts (ix : nat * nat) (evs : list event) (w : World) : World :=
  mkWorld (state w) (goal_location w) (order_queue w) (lock w) (is_goal_cancel w)
          (client w) (client_status w) (listener_pending w)
          (nav_ix w) (fst ix) (clock_ix w) (snd ix) (trace w ++ evs).

(** Every write of the state or of the queue in the trace is made while
    the lock is held ([held]: whether it is held at the start). *)
Fixpoint writes_under_lock (held : bool) (t : list event) : bool :=
  match t with
  | [] => true
  | Acquire :: r => writes_under_lock true r
  | Release :: r => writes_under_lock false r
  | SetState _ :: r | SetQueue _ :: r => held && writes_under_lock held r
  | _ :: r => writes_under_lock held r
  end.

(** No goal is sent to the action server (and waited for) and no console
    prompt is waited at while the lock is held. *)
Fixpoint no_blocking_call_under_lock (held : bool) (t : list event) : bool :=
  match t with
  | [] => true
  | Acquire :: r => no_blocking_call_under_lock true r
  | Release :: r => no_blocking_call_under_lock false r
  | SendGoal _ :: r | Prompt _ :: r => negb held && no_blocking_call_under_lock held r
  | _ :: r => no_blocking_call_under_lock held r
  end.


(** The world in which a cycle started from [w] waits for the result of
    its kitchen goal: the check-and-set is done, the modification thread is
    started, the goal is out. *)
Definition on_the_way_to_the_kitchen (O : Oracle) (w : World) : World :=
  mkWorld DELIVERY (Some "kitchen") (order_queue w) (lock w) (is_goal_cancel w)
          (S (client w)) LOST true (nav_ix w) (stdin_ix w) (S (clock_ix w)) (wait_ix w)
          (trace w ++ [Acquire; SetState DELIVERY; Release;
                       StartThread T_modify_orders_while_moving;
                       LogInfo "Moving to kitchen..";
                       SendGoal (mkGoal "map" (clock O (clock_ix w)) (pose_of "kitchen"))]).

(** What ends the modification thread at its prompt without a change:
    nothing typed within its 8 seconds, or "none". *)
Definition leaves_the_prompt (r : option string) : bool :=
  match r with
  | None => true
  | Some line => String.eqb (PyStr.lower (PyStr.strip line)) "none"
  end.

(** [s] is [l] with some entries left out, the others in their order. *)
Inductive subsequence : list string -> list string -> Prop :=
| sub_nil : subsequence [] []
| sub_skip x s l : subsequence s l -> subsequence s (x :: l)
| sub_take x s l : subsequence s l -> subsequence (x :: s) (x :: l).

(** [m] keeps [R] between the world it is called in and every world it
    returns in. *)
Definition keeps {A} (R : World -> World -> Prop) (m : M A) : Prop :=
  forall w a w', m w = Ok a w' -> R w w'.

(** Nothing has happened to the state or to the pending modification
    thread. *)
Definition state_untouched (w w' : World) : Prop :=
  state w' = state w
  /\ listener_pending w' = listener_pending w
  /\ exists evs, trace w' = (trace w ++ evs)%list /\ state_writes evs = [].

(** The same, as long as the modification thread is out of the way. *)
Definition calm (w w' : World) : Prop :=
  listener_pending w = false -> state_untouched w w'.

(** The state is never set to [WAITING_CONFIRMATION]. *)
Definition never_waits (w w' : World) : Prop :=
  (state w <> WAITING_CONFIRMATION -> state w' <> WAITING_CONFIRMATION)
  /\ exists evs,
       trace w' = (trace w ++ evs)%list
       /\ ~ In WAITING_CONFIRMATION (state_writes evs).

(* ---- vocabulary ---- *)
(** What the add loop of [ask_modify_orders] appends to queue [q]. *)
Fixpoint added_by (tables_to_modify q : list string) : list string :=
  match tables_to_modify with
  | [] => []
  | table :: rest =>
      if PyStr.mem table q then added_by rest q
      else table :: added_by rest (q ++ [table])%list
  end.

(** What it writes and logs. *)
Fixpoint ask_add_events (tables_to_modify q : list string) : list event :=
  match tables_to_modify with
  | [] => []
  | table :: rest =>
      if PyStr.mem table q
      then LogInfo (table ++ " is already in the order queue")
           :: ask_add_events rest q
      else SetQueue (q ++ [table])%list
           :: LogInfo ("Added " ++ table ++ " to orders")
           :: ask_add_events rest (q ++ [table])%list
  end.

(** A string of white space only. *)
Fixpoint blank (s : string) : bool :=
  match s with
  | EmptyString => true
  | String c r => PyStr.is_space c && blank r
  end.

(** [r] is [q] after the mentions have been dealt with in turn: a mention
    of a table that is not queued (any more) changes nothing, and a mention
    of a queued table takes out its earliest occurrence. *)
Inductive taken_out : list string -> list string -> list string -> Prop :=
| out_done q : taken_out [] q q
| out_absent t ts q r :
    ~ In t q -> taken_out ts q r -> taken_out (t :: ts) q r
| out_earliest t ts q1 q2 r :
    ~ In t q1 -> taken_out ts (q1 ++ q2)%list r ->
    taken_out (t :: ts) (q1 ++ t :: q2)%list r.

(** The events of a run from [w] to [w']. *)
Definition events_since (w w' : World) : list event :=
  skipn (length (trace w)) (trace w').

(** The writes of the state and of the queue that are made while the lock
    is free ([held]: whether it is held at the start). *)
Fixpoint unguarded_writes (held : bool) (t : list event) : list event :=
  match t with
  | [] => []
  | Acquire :: r => unguarded_writes true r
  | Release :: r => unguarded_writes false r
  | SetState s :: r =>
      if held then unguarded_writes held r else SetState s :: unguarded_writes held r
  | SetQueue q :: r =>
      if held then unguarded_writes held r else SetQueue q :: unguarded_writes held r
  | _ :: r => unguarded_writes held r
  end.

(** The goals sent and the prompts put up while the lock is held. *)
Fixpoint calls_under_lock (held : bool) (t : list event) : list event :=
  match t with
  | [] => []
  | Acquire :: r => calls_under_lock true r
  | Release :: r => calls_under_lock false r
  | SendGoal g :: r =>
      if held then SendGoal g :: calls_under_lock held r else calls_under_lock held r
  | Prompt msg :: r =>
      if held then Prompt msg :: calls_under_lock held r else calls_under_lock held r
  | _ :: r => calls_under_lock held r
  end.

(** The traffic with the action server: cancellations, goals sent, goals
    come to their terminal status. *)
Definition goal_traffic (t : list event) : list event :=
  filter (fun e => match e with
                   | CancelGoal | SendGoal _ | GoalDone _ _ => true
                   | _ => false
                   end) t.

(** No thread of the pool is left inside a blocking call. *)
Definition all_ended (p : pool) : bool :=
  match cycle_at p, handlers_at p with
  | None, [] => true
  | _, _ => false
  end.

(** What a schedule comes to: the world, and whether every thread has come
    to its end. *)
Definition comes_to (r : result pool) : result bool :=
  match r with
  | Ok p w => Ok (all_ended p) w
  | Blocked => Blocked
  | OutOfFuel => OutOfFuel
  | Raised e => Raised e
  end.

(* ===================================================================== *)
(** ** The model on small inputs *)
(* ===================================================================== *)

Example strip_ex : PyStr.strip "  table1 " = "table1".
Proof. reflexivity. Qed.

Example split_ex : PyStr.split "," "1, 2,,3" = ["1"; " 2"; ""; "3"].
Proof. reflexivity. Qed.

Example split_empty_ex : PyStr.split "," "" = [""].
Proof. reflexivity. Qed.

Example lower_ex : PyStr.lower "YeS" = "yes".
Proof. reflexivity. Qed.

Example contains_ex :
  PyStr.contains "table" "table2" = true /\ PyStr.contains "table" "kitchen" = false.
Proof. split; reflexivity. Qed.

(** The operator types "1, 2" at the idle robot; the modification prompt
    is left unanswered; the kitchen and table1 are reached and confirmed,
    the goal to table2 is aborted. *)
Example scenario_two_tables :
  let O := mkOracle (fun k => match k with 2 => 4 | _ => SUCCEEDED end)
                    (fun k => match k with
                              | 0 => Some "1, 2" | 1 => None | _ => Some "yes"
                              end)
                    (fun k => Z.of_nat k * 1000000000)%Z
                    (fun _ => false) (fun _ => true) in
  exists w1 w2,
    intake_step O initial = Ok Continue w1
    /\ order_queue w1 = ["table1"; "table2"]
    /\ threads_started (trace w1) = [T_get_orders_from_user; T_process_order]
    /\ delivery_thread O 10 w1 = Ok tt w2
    /\ visits (trace w2) = ["kitchen"; "table1"; "table2"; "home"]
    /\ state w2 = IDLE.
Proof.
  cbv zeta. eexists; eexists.
  split; [vm_compute; reflexivity|].
  split; [reflexivity|]. split; [reflexivity|].
  split; [vm_compute; reflexivity|].
  split; vm_compute; reflexivity.
Qed.

(** Nobody answers at the kitchen: the gate sends the robot home when the
    window has elapsed, [process_order] sends it home once more, and no
    table is visited. *)
Example scenario_no_answer_at_the_kitchen :
  let O := mkOracle (fun _ => SUCCEEDED) (fun _ => None)
                    (fun k => Z.of_nat k * 5000000000)%Z
                    (fun _ => false) (fun _ => true) in
  exists w',
    delivery_thread O 10 (with_order_queue ["table1"] initial) = Ok tt w'
    /\ visits (trace w') = ["kitchen"; "home"; "home"]
    /\ order_queue w' = ["table1"]
    /\ state w' = IDLE.
Proof.
  cbv zeta. eexists.
  split; [vm_compute; reflexivity|].
  split; [vm_compute; reflexivity|]. split; reflexivity.
Qed.

(* ===================================================================== *)
(** ** Reasoning about runs *)
(* ===================================================================== *)

Lemma bind_Ok {A B} (m : M A) (k : A -> M B) w a w' :
  m w = Ok a w' -> bind m k w = k a w'.
Proof. intros H. unfold bind. now rewrite H. Qed.

Lemma bind_assoc {A B C} (m : M A) (f : A -> M B) (g : B -> M C) w :
  bind (bind m f) g w = bind m (fun a => bind (f a) g) w.
Proof. unfold bind. now destruct (m w). Qed.

Lemma visits_app t1 t2 : visits (t1 ++ t2)%list = (visits t1 ++ visits t2)%list.
Proof.
  induction t1 as [|e t1 IH]; [reflexivity|].
  destruct e; cbn [visits app]; try apply IH.
  destruct (name_of_pose (target g) WAYPOINTS); cbn [app]; now rewrite IH.
Qed.

Lemma table_visits_app t1 t2 :
  table_visits (t1 ++ t2)%list = (table_visits t1 ++ table_visits t2)%list.
Proof. unfold table_visits. now rewrite visits_app, filter_app. Qed.

Lemma visits_SendGoal g t : visits (SendGoal g :: t) = (visit_of (target g) ++ visits t)%list.
Proof. unfold visit_of. cbn [visits]. now destruct (name_of_pose (target g) WAYPOINTS). Qed.

Lemma effect_refl w : effect [] w w.
Proof.
  constructor; try reflexivity; try lia.
  exists []. now rewrite app_nil_r.
Qed.

Lemma effect_trans tv1 tv2 w1 w2 w3 :
  effect tv1 w1 w2 -> effect tv2 w2 w3 -> effect (tv1 ++ tv2) w1 w3.
Proof.
  intros [q1 l1 p1 c1 (e1 & t1 & v1)] [q2 l2 p2 c2 (e2 & t2 & v2)].
  constructor; try congruence; try lia.
  exists (e1 ++ e2)%list. split.
  - now rewrite t2, t1, app_assoc.
  - now rewrite table_visits_app, v1, v2.
Qed.

Lemma stable_effect P tv w w' : stable P -> effect tv w w' -> P w -> P w'.
Proof. intros HP E. now apply (HP tv). Qed.

Lemma does_ret {A} P (a : A) : does P (ret a) [] (eq a).
Proof. intros w _. exists a, w. split; [reflexivity|]. split; [apply effect_refl | reflexivity]. Qed.

Lemma does_bind {A B} P (m : M A) (k : A -> M B) tv1 tv2 V1 V2 :
  stable P -> does P m tv1 V1 -> (forall a, V1 a -> does P (k a) tv2 V2) ->
  does P (bind m k) (tv1 ++ tv2) V2.
Proof.
  intros HP Hm Hk w Hw.
  destruct (Hm w Hw) as (a & w1 & E1 & F1 & Va).
  destruct (Hk a Va w1 (stable_effect _ _ _ _ HP F1 Hw)) as (b & w2 & E2 & F2 & Vb).
  exists b, w2. split; [|split].
  - now rewrite (bind_Ok _ _ _ _ _ E1).
  - eapply effect_trans; eassumption.
  - exact Vb.
Qed.

Lemma does_seq {A B} P (m : M A) (k : A -> M B) tv V1 V2 :
  stable P -> does P m [] V1 -> (forall a, V1 a -> does P (k a) tv V2) ->
  does P (bind m k) tv V2.
Proof. intros. change tv with ([] ++ tv)%list. eapply does_bind; eauto. Qed.

Lemma does_then {A B} P (m : M A) (k : A -> M B) tv V1 V2 :
  stable P -> does P m tv V1 -> (forall a, V1 a -> does P (k a) [] V2) ->
  does P (bind m k) tv V2.
Proof. intros. rewrite <- (app_nil_r tv). eapply does_bind; eauto. Qed.

Lemma does_any {A} P (m : M A) tv V : does P m tv V -> does P m tv any.
Proof.
  intros H w Hw. destruct (H w Hw) as (a & w' & E & F & _).
  exists a, w'. split; [exact E|]. split; [exact F | exact I].
Qed.

Lemma does_weaken {A} (P P' : World -> Prop) (m : M A) tv V :
  (forall w, P' w -> P w) -> does P m tv V -> does P' m tv V.
Proof. intros H Hm w Hw. apply Hm, H, Hw. Qed.

(** A step that only touches fields the cycle does not care about. *)
Lemma does_quiet_step {A} P (m : M A) (V : A -> Prop) :
  (forall w, exists a w' evs,
      m w = Ok a w' /\ order_queue w' = order_queue w /\ lock w' = lock w
      /\ listener_pending w' = listener_pending w /\ clock_ix w <= clock_ix w'
      /\ trace w' = (trace w ++ evs)%list /\ table_visits evs = [] /\ V a) ->
  does P m [] V.
Proof.
  intros H w _. destruct (H w) as (a & w' & evs & E & q & l & p & c & t & v & Va).
  exists a, w'. split; [exact E|]. split; [|exact Va].
  constructor; auto. now exists evs.
Qed.

Ltac quiet_step evs :=
  apply does_quiet_step; intros w; eexists; eexists; exists evs;
  split; [reflexivity|]; cbn; repeat split;
  try lia; try reflexivity; try (now rewrite app_nil_r); try exact I.

(** Projections of updated worlds. *)
Ltac simpl_world :=
  cbn [state goal_location order_queue lock is_goal_cancel client client_status
       listener_pending nav_ix stdin_ix clock_ix wait_ix trace
       with_state with_goal_location with_order_queue with_lock
       with_is_goal_cancel with_client with_listener_pending with_nav_ix
       with_stdin_ix with_clock_ix with_wait_ix with_trace].
Ltac simpl_world_in H :=
  cbn [state goal_location order_queue lock is_goal_cancel client client_status
       listener_pending nav_ix stdin_ix clock_ix wait_ix trace
       with_state with_goal_location with_order_queue with_lock
       with_is_goal_cancel with_client with_listener_pending with_nav_ix
       with_stdin_ix with_clock_ix with_wait_ix with_trace] in H.

(** One step of a run whose first call evaluates by itself. *)
Ltac run1 := erewrite bind_Ok by reflexivity; cbv beta; simpl_world.

Lemma does_emit P e : table_visits [e] = [] -> does P (emit e) [] any.
Proof.
  intros H. apply does_quiet_step. intros w.
  exists tt, (with_trace (trace w ++ [e])%list w), [e]. cbn. repeat split; auto.
Qed.

Lemma does_loginfo P msg : does P (loginfo msg) [] any.
Proof. now apply does_emit. Qed.

Lemma does_logerr P msg : does P (logerr msg) [] any.
Proof. now apply does_emit. Qed.

Lemma does_write_state P s : does P (write_state s) [] any.
Proof. quiet_step [SetState s]. Qed.

Lemma does_read_state P : does P read_state [] any.
Proof. quiet_step (@nil event). Qed.

Lemma does_read_queue P : does P read_queue [] any.
Proof. quiet_step (@nil event). Qed.

Lemma does_write_goal_location P l : does P (write_goal_location l) [] any.
Proof. quiet_step (@nil event). Qed.

Lemma does_read_goal_location P : does P read_goal_location [] any.
Proof. quiet_step (@nil event). Qed.

Lemma does_read_is_goal_cancel P : does P read_is_goal_cancel [] any.
Proof. quiet_step (@nil event). Qed.

Lemma does_write_is_goal_cancel P b : does P (write_is_goal_cancel b) [] any.
Proof. quiet_step (@nil event). Qed.

Lemma does_next_wait P : does P next_wait [] any.
Proof. quiet_step (@nil event). Qed.

(* ===================================================================== *)
(** ** Validation of table entries *)
(* ===================================================================== *)

Lemma in_WAYPOINTS_table x :
  in_WAYPOINTS ("table" ++ x) = true <-> x = "1" \/ x = "2" \/ x = "3".
Proof.
  unfold in_WAYPOINTS, WAYPOINTS. cbn [assoc append String.eqb Ascii.eqb Bool.eqb].
  destruct (String.eqb_spec x "1") as [->|n1]; [tauto|].
  destruct (String.eqb_spec x "2") as [->|n2]; [tauto|].
  destruct (String.eqb_spec x "3") as [->|n3]; [tauto|].
  split; [discriminate | tauto].
Qed.

Lemma in_WAYPOINTS_keys name :
  in_WAYPOINTS name = true <->
  In name ["kitchen"; "home"; "table1"; "table2"; "table3"].
Proof.
  unfold in_WAYPOINTS, WAYPOINTS. cbn [assoc In].
  destruct (String.eqb_spec name "kitchen") as [->|n1]; [tauto|].
  destruct (String.eqb_spec name "home") as [->|n2]; [tauto|].
  destruct (String.eqb_spec name "table1") as [->|n3]; [tauto|].
  destruct (String.eqb_spec name "table2") as [->|n4]; [tauto|].
  destruct (String.eqb_spec name "table3") as [->|n5]; [tauto|].
  split; [discriminate|]. intuition congruence.
Qed.

Lemma valid_tables_of_app l1 l2 :
  valid_tables_of (l1 ++ l2)%list = (valid_tables_of l1 ++ valid_tables_of l2)%list.
Proof.
  induction l1 as [|t l1 IH]; [reflexivity|].
  cbn [valid_tables_of app].
  destruct (in_WAYPOINTS ("table" ++ PyStr.strip t)); cbn [app]; now rewrite IH.
Qed.

Lemma addable_tables_of_app q l1 l2 :
  addable_tables_of q (l1 ++ l2)%list
  = (addable_tables_of q l1 ++ addable_tables_of q l2)%list.
Proof.
  induction l1 as [|t l1 IH]; [reflexivity|].
  cbn [addable_tables_of app].
  destruct (in_WAYPOINTS ("table" ++ PyStr.strip t)
            && negb (PyStr.mem ("table" ++ PyStr.strip t) q));
    cbn [app]; now rewrite IH.
Qed.

Lemma valid_tables_of_valid l : Forall (fun t => in_WAYPOINTS t = true) (valid_tables_of l).
Proof.
  induction l as [|t l IH]; [constructor|].
  cbn [valid_tables_of].
  destruct (in_WAYPOINTS ("table" ++ PyStr.strip t)) eqn:E; auto.
Qed.

Lemma mem_In x l : PyStr.mem x l = true <-> In x l.
Proof.
  induction l as [|y l IH]; cbn [PyStr.mem In]; [split; [discriminate|tauto]|].
  rewrite orb_true_iff, IH, String.eqb_eq. intuition congruence.
Qed.

Lemma addable_tables_of_fresh q l :
  Forall (fun t => in_WAYPOINTS t = true /\ ~ In t q) (addable_tables_of q l).
Proof.
  induction l as [|t l IH]; [constructor|].
  cbn [addable_tables_of].
  destruct (in_WAYPOINTS ("table" ++ PyStr.strip t)) eqn:E; cbn [andb]; auto.
  destruct (PyStr.mem ("table" ++ PyStr.strip t) q) eqn:E'; cbn [negb]; auto.
  constructor; auto. split; auto.
  rewrite <- mem_In. congruence.
Qed.

(** C10.  An entry that already carries the "table" prefix is validated as
    "table" followed by the entry (so "table1" is looked up as
    "tabletable1"), which is no key of the registry: it contributes nothing
    to what the intake or [add_tables] accepts, whatever the other entries
    of the batch and whatever the queue.  What is accepted is exactly an
    entry that strips to the bare number of a defined table. *)
Theorem table_prefixed_entry_never_accepted :
  forall entry,
    String.prefix "table" (PyStr.strip entry) = true ->
    in_WAYPOINTS ("table" ++ PyStr.strip entry) = false
    /\ (forall before after,
          valid_tables_of (before ++ entry :: after)%list
          = (valid_tables_of before ++ valid_tables_of after)%list)
    /\ (forall queue before after,
          addable_tables_of queue (before ++ entry :: after)%list
          = (addable_tables_of queue before ++ addable_tables_of queue after)%list)
    /\ (forall e, in_WAYPOINTS ("table" ++ PyStr.strip e) = true
                  <-> PyStr.strip e = "1" \/ PyStr.strip e = "2" \/ PyStr.strip e = "3").
Proof.
  intros entry Hpre.
  assert (Hno : in_WAYPOINTS ("table" ++ PyStr.strip entry) = false).
  { destruct (in_WAYPOINTS ("table" ++ PyStr.strip entry)) eqn:E; [|reflexivity].
    apply in_WAYPOINTS_table in E.
    destruct E as [E|[E|E]]; rewrite E in Hpre; discriminate. }
  split; [exact Hno|]. split; [|split].
  - intros before after. rewrite valid_tables_of_app.
    cbn [valid_tables_of]. now rewrite Hno.
  - intros queue before after. rewrite addable_tables_of_app.
    cbn [addable_tables_of]. now rewrite Hno.
  - intros e. apply in_WAYPOINTS_table.
Qed.

Lemma table_prefixed_entry_never_accepted_witness :
  in_WAYPOINTS ("table" ++ PyStr.strip "table1") = false
  /\ valid_tables_of ["2"; "table1"; " 3"] = ["table2"; "table3"]
  /\ addable_tables_of ["table3"] ["2"; "table1"; " 3"] = ["table2"].
Proof.
  destruct (table_prefixed_entry_never_accepted "table1" eq_refl) as (H1 & H2 & H3 & _).
  split; [exact H1|]. split.
  - exact (eq_trans (H2 ["2"] [" 3"]) eq_refl).
  - exact (eq_trans (H3 ["table3"] ["2"] [" 3"]) eq_refl).
Defined.

(* ===================================================================== *)
(** ** What each method does, whatever runs during its waits *)
(* ===================================================================== *)

Lemma table_key_cases t :
  table_key t <-> t = "table1" \/ t = "table2" \/ t = "table3".
Proof.
  unfold table_key. rewrite in_WAYPOINTS_keys. cbn [In]. split.
  - intros [[ <- | [ <- | [ <- | [ <- | [ <- | [] ]]]]] H]; auto; discriminate.
  - intros [ -> | [ -> | -> ]]; (split; [tauto | reflexivity]).
Qed.

Section MethodFacts.

Variable O : Oracle.
Variable on_wait : M unit.
Variable P : World -> Prop.
Hypothesis P_stable : stable P.
Hypothesis wait_ok : does P on_wait [] any.

Ltac step L := eapply does_seq; [exact P_stable | apply L | intros ? ?; cbv beta in * ].

Lemma does_time_now : does P (time_now O) [] any.
Proof. quiet_step (@nil event). Qed.

Lemma does_next_status : does P (next_status O) [] any.
Proof. quiet_step (@nil event). Qed.

Lemma does_read_line : does P (read_line O) [] any.
Proof. quiet_step (@nil event). Qed.

Lemma does_new_client : does P new_client [] any.
Proof. quiet_step (@nil event). Qed.

Lemma does_get_state : does P get_state [] any.
Proof. quiet_step (@nil event). Qed.

Lemma does_cancel_goal : does P cancel_goal [] any.
Proof. now apply does_emit. Qed.

Lemma does_settle c p st : does P (settle c p st) [] any.
Proof.
  apply does_quiet_step. intros w. unfold settle.
  eexists; eexists; exists [GoalDone p st]. split; [reflexivity|].
  cbn. repeat split; auto.
Qed.

Lemma does_get_goal p : does P (get_goal O p) [] (fun g => target g = p).
Proof. quiet_step (@nil event). Qed.

Lemma does_emit_goal g :
  does P (emit (SendGoal g)) (filter (PyStr.contains "table") (visit_of (target g))) any.
Proof.
  intros w _. exists tt, (with_trace (trace w ++ [SendGoal g])%list w).
  split; [reflexivity|]. split; [|exact I].
  constructor; cbn; auto. exists [SendGoal g]. split; [reflexivity|].
  unfold table_visits. rewrite visits_SendGoal. cbn [visits]. now rewrite app_nil_r.
Qed.

Lemma does_waypoint name :
  in_WAYPOINTS name = true ->
  does P (waypoint name) [] (fun p => visit_of p = [name]).
Proof.
  intros H. apply in_WAYPOINTS_keys in H. cbn [In] in H.
  intros w _.
  destruct H as [ <- | [ <- | [ <- | [ <- | [ <- | [] ]]]]];
    (eexists; exists w; split; [reflexivity|];
     split; [apply effect_refl | vm_compute; reflexivity]).
Qed.

Lemma does_send_goal p :
  does P (send_goal O on_wait p) (filter (PyStr.contains "table") (visit_of p)) any.
Proof.
  unfold send_goal.
  step does_get_goal. subst p.
  step does_new_client.
  eapply does_then; [exact P_stable | apply does_emit_goal | intros ? ?].
  step wait_ok.
  step does_next_status.
  step does_settle.
  step does_get_state.
  match goal with |- context [Nat.eqb ?x SUCCEEDED] => destruct (Nat.eqb x SUCCEEDED) end;
    (step does_loginfo; eapply does_any, does_ret).
Qed.

Lemma does_send_goal_to name p :
  PyStr.contains "table" name = false -> visit_of p = [name] ->
  does P (send_goal O on_wait p) [] any.
Proof.
  intros Hn Hp. pose proof (does_send_goal p) as H.
  rewrite Hp in H. cbn [filter] in H. now rewrite Hn in H.
Qed.

Lemma does_return_to_home : does P (return_to_home O on_wait) [] any.
Proof.
  unfold return_to_home.
  step does_loginfo.
  step (does_waypoint "home" eq_refl).
  step (does_send_goal_to "home"); [reflexivity | assumption |].
  eapply does_any, does_ret.
Qed.

Lemma does_return_to_kitchen : does P (return_to_kitchen O on_wait) [] any.
Proof.
  unfold return_to_kitchen.
  step does_loginfo.
  step (does_waypoint "kitchen" eq_refl).
  step (does_send_goal_to "kitchen"); [reflexivity | assumption |].
  step does_read_is_goal_cancel.
  step does_logerr.
  step does_get_state.
  match goal with |- context [Nat.eqb ?x SUCCEEDED] => destruct (Nat.eqb x SUCCEEDED) end;
    [| eapply does_any, does_ret].
  step does_read_is_goal_cancel.
  match goal with |- context [if ?c then _ else _] => destruct c end;
    [| eapply does_any, does_ret].
  step does_return_to_home. apply does_write_is_goal_cancel.
Qed.

Lemma does_move_to_kitchen : does P (move_to_kitchen O on_wait) [] any.
Proof.
  unfold move_to_kitchen.
  step does_write_goal_location.
  step does_loginfo.
  step (does_waypoint "kitchen" eq_refl).
  step (does_send_goal_to "kitchen"); [reflexivity | assumption |].
  match goal with |- context [if ?c then _ else _] => destruct c end;
    [step does_loginfo|]; eapply does_any, does_ret.
Qed.

Lemma does_move_to_table t :
  table_key t -> does P (move_to_table O on_wait t) [t] any.
Proof.
  intros [Hk Ht]. unfold move_to_table.
  step does_write_goal_location.
  step does_loginfo.
  step (does_waypoint t Hk).
  match goal with p : pose, Hp : visit_of _ = _ |- _ =>
    pose proof (does_send_goal p) as Hsend; rewrite Hp in Hsend;
    cbn [filter] in Hsend; rewrite Ht in Hsend; exact Hsend end.
Qed.

Lemma does_timed_input prompt timeout :
  does P (timed_input O on_wait prompt timeout) [] any.
Proof.
  unfold timed_input, select_line.
  step does_emit; [reflexivity|].
  eapply does_seq; [exact P_stable| |intros ready _].
  - step wait_ok. apply does_read_line.
  - destruct ready; eapply does_any, does_ret.
Qed.

End MethodFacts.

Lemma unlocked_stable : stable unlocked.
Proof.
  intros tv w w' E [Hl Hp]. split.
  - now rewrite (eff_lock _ _ _ E).
  - now rewrite (eff_pending _ _ _ E).
Qed.

Lemma stable_later P c : stable P -> stable (fun w => P w /\ c < clock_ix w).
Proof.
  intros HP tv w w' E [Hw Hc]. split.
  - now apply (HP tv w).
  - pose proof (eff_clock _ _ _ E). lia.
Qed.

Section GateFacts.

Variable O : Oracle.
Variable on_wait : M unit.
Variable P : World -> Prop.
Hypothesis P_stable : stable P.
Hypothesis wait_ok : does P on_wait [] any.
Variable N : nat.
Hypothesis window : window_bound O N.

(** The loop comes back once it has fuel for the readings that are left
    in the window. *)
Lemma confirmation_loop_returns f : forall location s w,
  P w -> 1 <= f -> s + N < clock_ix w + f ->
  exists x w', confirmation_loop O on_wait f location (clock O s) w = Ok x w'
               /\ effect [] w w'.
Proof.
  induction f as [|f IH]; intros location s w Pw Hf Hfuel; [lia|].
  cbn [confirmation_loop].
  erewrite bind_Ok by reflexivity. cbv beta.
  set (w1 := with_clock_ix (S (clock_ix w)) w).
  assert (F1 : effect [] w w1).
  { constructor; cbn; auto. exists []. now rewrite app_nil_r. }
  destruct (Z.ltb_spec (clock O (clock_ix w) - clock O s) CONFIRM_TIMEOUT) as [Hin|Hout].
  2:{ exists (Fell false false), w1. split; [reflexivity | exact F1]. }
  assert (Hc : clock_ix w < s + N).
  { destruct (Nat.lt_ge_cases (clock_ix w) (s + N)) as [|Hge]; [assumption|].
    specialize (window s (clock_ix w) Hge). lia. }
  set (P' := fun w' => P w' /\ clock_ix w < clock_ix w').
  assert (P'_stable : stable P') by (apply stable_later, P_stable).
  assert (wait' : does P' on_wait [] any).
  { eapply does_weaken; [|exact wait_ok]. now intros ? []. }
  assert (Hrec : does P' (confirmation_loop O on_wait f location (clock O s)) [] any).
  { intros w' [Pw' Hlt].
    destruct (IH location s w' Pw') as (x & w'' & E & F); [lia | lia |].
    exists x, w''. split; [exact E | split; [exact F | exact I]]. }
  assert (Hcheck : does P'
            (st <- read_state ;;
             if robot_state_eqb st CANCELED
             then loginfo ("Task canceled at " ++ location) ;; ret (Returned false)
             else confirmation_loop O on_wait f location (clock O s)) [] any).
  { eapply does_seq; [exact P'_stable | apply does_read_state | intros st _].
    destruct (robot_state_eqb st CANCELED); [|exact Hrec].
    eapply does_seq; [exact P'_stable | apply does_loginfo | intros _ _].
    eapply does_any, does_ret. }
  assert (Hbody : does P'
            (user_input <- timed_input O on_wait ("Confirm at " ++ location ++ " (yes/no): ") 5 ;;
             let check_canceled : M gate_exit :=
               st <- read_state ;;
               if robot_state_eqb st CANCELED
               then loginfo ("Task canceled at " ++ location) ;; ret (Returned false)
               else confirmation_loop O on_wait f location (clock O s) in
             match user_input with
             | None => loginfo "No input received, retrying.." ;; check_canceled
             | Some text =>
                 let user_input := PyStr.lower (PyStr.strip text) in
                 if String.eqb user_input "yes"
                 then loginfo ("Confirmation received at " ++ location) ;;
                      ret (Fell true true)
                 else if String.eqb user_input "no"
                 then loginfo ("Confirmation declined at " ++ location) ;;
                      ret (Fell false true)
                 else loginfo "Invalid input, please type 'yes' or 'no'" ;;
                      check_canceled
             end) [] any).
  { eapply does_seq; [exact P'_stable | now apply does_timed_input | intros ui _].
    cbv zeta. destruct ui as [text|].
    - destruct (String.eqb (PyStr.lower (PyStr.strip text)) "yes").
      { eapply does_seq; [exact P'_stable | apply does_loginfo | intros _ _].
        eapply does_any, does_ret. }
      destruct (String.eqb (PyStr.lower (PyStr.strip text)) "no").
      { eapply does_seq; [exact P'_stable | apply does_loginfo | intros _ _].
        eapply does_any, does_ret. }
      eapply does_seq; [exact P'_stable | apply does_loginfo | intros _ _].
      exact Hcheck.
    - eapply does_seq; [exact P'_stable | apply does_loginfo | intros _ _].
      exact Hcheck. }
  destruct (Hbody w1) as (x & w2 & E2 & F2 & _).
  { split; [apply (P_stable [] w), Pw; exact F1 | cbn; lia]. }
  exists x, w2. split; [exact E2|].
  change (@nil string) with (@nil string ++ [])%list.
  eapply effect_trans; eassumption.
Qed.

Lemma wait_for_confirmation_returns fuel location w :
  P w -> N < fuel ->
  exists b w', wait_for_confirmation O on_wait fuel location w = Ok b w'
               /\ effect [] w w'.
Proof.
  intros Pw Hfuel. unfold wait_for_confirmation.
  run1. run1. run1.
  match goal with |- context [bind _ _ ?w0] => set (w1 := w0) end.
  assert (F1 : effect [] w w1).
  { constructor; cbn; auto.
    eexists. split; [reflexivity | reflexivity]. }
  destruct (confirmation_loop_returns fuel location (clock_ix w) w1)
    as (x & w2 & E2 & F2); [eapply P_stable; eauto | lia | cbn; lia |].
  erewrite bind_Ok by exact E2.
  assert (F12 : effect [] w w2).
  { change (@nil string) with (@nil string ++ [])%list.
    eapply effect_trans; eassumption. }
  assert (Pw2 : P w2) by (eapply P_stable; eauto).
  assert (Htail : forall (m : M bool), does P m [] any ->
             exists b w', m w2 = Ok b w' /\ effect [] w w').
  { intros m Hm. destruct (Hm w2 Pw2) as (b & w3 & E3 & F3 & _).
    exists b, w3. split; [exact E3|].
    change (@nil string) with (@nil string ++ [])%list.
    eapply effect_trans; eassumption. }
  destruct x as [answer | confirmed input_received].
  - apply Htail. eapply does_any, does_ret.
  - apply Htail.
    destruct input_received; cbn [negb]; [eapply does_any, does_ret|].
    destruct (PyStr.contains "table" location).
    + eapply does_seq; [exact P_stable | apply does_loginfo | intros _ _].
      eapply does_seq; [exact P_stable | apply does_loginfo | intros _ _].
      eapply does_seq; [exact P_stable | now apply does_return_to_kitchen | intros _ _].
      eapply does_seq; [exact P_stable | now apply does_return_to_home | intros _ _].
      eapply does_any, does_ret.
    + eapply does_seq; [exact P_stable | apply does_loginfo | intros _ _].
      eapply does_seq; [exact P_stable | apply does_loginfo | intros _ _].
      eapply does_seq; [exact P_stable | now apply does_return_to_home | intros _ _].
      eapply does_any, does_ret.
Qed.

End GateFacts.

(* ===================================================================== *)
(** ** The cancellation handler *)
(* ===================================================================== *)

Lemma waypoint_kitchen : waypoint "kitchen" = ret (pose_of "kitchen").
Proof. reflexivity. Qed.

Lemma waypoint_home : waypoint "home" = ret (pose_of "home").
Proof. reflexivity. Qed.

Lemma visit_of_kitchen : visit_of (pose_of "kitchen") = ["kitchen"].
Proof. vm_compute. reflexivity. Qed.

Lemma visit_of_home : visit_of (pose_of "home") = ["home"].
Proof. vm_compute. reflexivity. Qed.

Lemma lock_acquire_free w :
  lock w = false ->
  lock_acquire w = Ok tt (with_trace (trace w ++ [Acquire])%list (with_lock true w)).
Proof. intros H. unfold lock_acquire. now rewrite H. Qed.

Lemma lock_release_held w :
  lock w = true ->
  lock_release w = Ok tt (with_trace (trace w ++ [Release])%list (with_lock false w)).
Proof. intros H. unfold lock_release. now rewrite H. Qed.

(** Symbolic execution of straight-line code: evaluate as far as the
    calls evaluate by themselves. *)
Ltac exec1 :=
  rewrite ?bind_assoc;
  cbn [bind ret emit loginfo logerr read_state write_state read_queue write_queue
       read_goal_location write_goal_location read_is_goal_cancel
       write_is_goal_cancel time_now next_status read_line new_client settle
       get_state cancel_goal get_goal next_wait undisturbed
       send_goal return_to_home return_to_kitchen
       state goal_location order_queue lock is_goal_cancel client client_status
       listener_pending nav_ix stdin_ix clock_ix wait_ix trace
       with_state with_goal_location with_order_queue with_lock
       with_is_goal_cancel with_client with_listener_pending with_nav_ix
       with_stdin_ix with_clock_ix with_wait_ix with_trace
       robot_state_eqb negb andb orb].
Ltac exec := exec1; repeat (progress exec1).

(** ... and get it going again where it stops in undisturbed code. *)
Ltac unstick :=
  first
    [ rewrite waypoint_kitchen
    | rewrite waypoint_home
    | rewrite Nat.eqb_refl
    | match goal with
      | H : Nat.eqb (nav ?O ?i) SUCCEEDED = _
        |- context [Nat.eqb (nav ?O ?i) SUCCEEDED] => rewrite H
      end
    | match goal with
      | |- context [Nat.eqb (nav ?O ?i) SUCCEEDED] =>
          let E := fresh "Hnav" in destruct (Nat.eqb (nav O i) SUCCEEDED) eqn:E
      end ].

Ltac sym_exec :=
  unfold return_to_kitchen, return_to_home, send_goal;
  exec; repeat (unstick; exec).

Lemma sigint_handler_returns O w :
  lock w = false -> exists w', sigint_handler O w = Ok tt w' /\ handled w w'.
Proof.
  intros Hl. unfold sigint_handler, signal_handler.
  exec. erewrite bind_Ok by (apply lock_acquire_free; exact Hl).
  exec.
  destruct (goal_location w) as [l|] eqn:Hg;
    [destruct (String.eqb l "kitchen") eqn:Hk;
     [|destruct (negb (String.eqb l "") && PyStr.contains "table" l) eqn:Ht]|];
    sym_exec.
  all: rewrite lock_release_held by reflexivity.
  all: eexists; (split; [reflexivity|]);
    constructor; simpl_world;
    try reflexivity; try lia; try (now rewrite Hg);
    rewrite <- ?app_assoc; cbn [app].
  all: match goal with
       | |- exists body, (_ ++ _ :: _ :: _ :: _ :: ?tl)%list = _ /\ _ =>
           exists (removelast tl)
       end;
    cbn [removelast app].
  all: split; [reflexivity|].
  all: split; [vm_compute; reflexivity|].
  all: split; [reflexivity|].
  all: split; [reflexivity|].
  all: eexists; eexists; reflexivity.
Qed.

Lemma does_sigint_handler O :
  does (fun w => lock w = false) (sigint_handler O) [] any.
Proof.
  intros w Hl. destruct (sigint_handler_returns O w Hl) as (w' & E & H).
  exists tt, w'. split; [exact E|]. split; [|exact I].
  destruct H as [_ Hq Hlk Hp _ _ _ Hc (body & Ht & Hv & _)].
  constructor; auto; [congruence|].
  eexists. split; [exact Ht|].
  rewrite !table_visits_app, Hv. reflexivity.
Qed.

Lemma does_deliver_sigint O : does unlocked (deliver_sigint O) [] any.
Proof.
  unfold deliver_sigint.
  eapply does_seq; [exact unlocked_stable | apply does_next_wait | intros k _].
  destruct (sigint O k).
  - eapply does_weaken; [|apply does_sigint_handler]. now intros ? [].
  - eapply does_any, does_ret.
Qed.

Lemma does_while_delivery_waits O fuel :
  does unlocked (while_delivery_waits O fuel) [] any.
Proof.
  unfold while_delivery_waits.
  eapply does_seq; [exact unlocked_stable | apply does_next_wait | intros k _].
  eapply does_seq; [exact unlocked_stable | | intros _ _].
  - destruct (sigint O k).
    + eapply does_weaken; [|apply does_sigint_handler]. now intros ? [].
    + eapply does_any, does_ret.
  - destruct (listener_runs O k); [|eapply does_any, does_ret].
    intros w [Hl Hp]. exists tt, w. unfold run_listener. rewrite Hp.
    split; [reflexivity|]. split; [apply effect_refl | exact I].
Qed.

(* ===================================================================== *)
(** ** Entry of a delivery cycle *)
(* ===================================================================== *)

(** C1.  [process_order] starts a delivery cycle only from [IDLE], and then
    its first act is the transition to [DELIVERY], made under the lock,
    before anything else of the cycle runs.  Called in any other state it
    returns at once: state, queue and goal location are as before, and all
    it leaves behind is the log line between taking and giving back the
    lock (no goal sent, no thread started). *)
Theorem process_order_begins_only_when_idle :
  forall O on_wait on_join fuel w,
    lock w = false ->
    (state w <> IDLE ->
     exists w',
       process_order O on_wait on_join fuel w = Ok tt w'
       /\ state w' = state w
       /\ order_queue w' = order_queue w
       /\ goal_location w' = goal_location w
       /\ lock w' = false
       /\ trace w' = (trace w ++ [Acquire; LogInfo "Robot is busy with another task";
                                  Release])%list)
    /\ (state w = IDLE ->
        process_order O on_wait on_join fuel w
        = deliver O on_wait on_join fuel (entered w)
        /\ state (entered w) = DELIVERY).
Proof.
  intros O on_wait on_join fuel w Hl. unfold process_order. split; intros Hs.
  - erewrite bind_Ok by (apply lock_acquire_free; exact Hl).
    exec. destruct (state w); [congruence| | |]; exec;
      (rewrite lock_release_held by reflexivity);
      (eexists; split; [reflexivity|]); simpl_world;
      rewrite <- ?app_assoc; repeat split; reflexivity.
  - erewrite bind_Ok by (apply lock_acquire_free; exact Hl).
    exec. rewrite Hs. exec.
    erewrite bind_Ok by (apply lock_release_held; reflexivity).
    split; [|reflexivity].
    f_equal. unfold entered. destruct w; cbn in *. subst.
    now rewrite <- !app_assoc.
Qed.

Lemma process_order_begins_only_when_idle_witness :
  (exists w',
      process_order (mkOracle (fun _ => SUCCEEDED) (fun _ => None) (fun _ => 0%Z)
                              (fun _ => false) (fun _ => false))
                    undisturbed undisturbed 5 (with_state DELIVERY initial)
      = Ok tt w'
      /\ state w' = DELIVERY
      /\ order_queue w' = []
      /\ goal_location w' = None
      /\ lock w' = false
      /\ trace w' = (trace initial
                     ++ [Acquire; LogInfo "Robot is busy with another task"; Release])%list).
Proof.
  apply (process_order_begins_only_when_idle
           (mkOracle (fun _ => SUCCEEDED) (fun _ => None) (fun _ => 0%Z)
                     (fun _ => false) (fun _ => false))
           undisturbed undisturbed 5 (with_state DELIVERY initial) eq_refl).
  discriminate.
Defined.

(* ===================================================================== *)
(** ** Cancellation on the way to a table *)
(* ===================================================================== *)

Lemma contains_table_not_kitchen l :
  PyStr.contains "table" l = true -> String.eqb l "kitchen" = false /\ String.eqb l "" = false.
Proof.
  intros H. split.
  - destruct (String.eqb_spec l "kitchen") as [->|]; [discriminate|reflexivity].
  - destruct (String.eqb_spec l "") as [->|]; [discriminate|reflexivity].
Qed.

(** *** The two readings of a thread agree

    A method kept as a thread and run with [h] inside each of its blocking
    calls is the method above with [h] for [on_wait]. *)

Lemma alone_lift {A} h (m : M A) : alone h (lift m) = m.
Proof. reflexivity. Qed.

Lemma alone_wait h w : alone h wait w = h w.
Proof.
  unfold alone, wait. cbn [run_thread].
  destruct (h w) as [[] w1| | |]; reflexivity.
Qed.

Lemma run_thread_extend {A B} h (t : thread A) (k : A -> Th B) :
  run_thread h (extend t k)
  = match run_thread h t with
    | Ok a w => run_thread h (k a w)
    | Blocked => Blocked
    | OutOfFuel => OutOfFuel
    | Raised e => Raised e
    end.
Proof.
  induction t as [r|w r IH]; cbn [extend run_thread].
  - destruct r; reflexivity.
  - destruct (h w) as [u w1| | |]; auto.
Qed.

Lemma alone_bind {A B} h (m : Th A) (k : A -> Th B) w :
  alone h (bind_t m k) w = bind (alone h m) (fun a => alone h (k a)) w.
Proof. unfold alone, bind_t, bind. apply run_thread_extend. Qed.

Lemma bind_ext {A B} (m m' : M A) (k k' : A -> M B) w :
  m w = m' w -> (forall a w', k a w' = k' a w') -> bind m k w = bind m' k' w.
Proof.
  intros Hm Hk. unfold bind. rewrite Hm. destruct (m' w); auto.
Qed.

Lemma bind_ret_l {A B} (a : A) (k : A -> M B) w : bind (ret a) k w = k a w.
Proof. reflexivity. Qed.

Lemma alone_bind_in {A B C} h (m : Th A) (k : A -> Th B) (g : B -> M C) w :
  bind (alone h (bind_t m k)) g w
  = bind (alone h m) (fun a => bind (alone h (k a)) g) w.
Proof.
  rewrite <- bind_assoc. apply bind_ext; [apply alone_bind | reflexivity].
Qed.

Create HintDb agree.

Ltac agree_step :=
  first
    [ reflexivity
    | solve [auto with agree]
    | rewrite alone_bind
    | rewrite alone_bind_in
    | rewrite alone_lift
    | rewrite bind_assoc
    | rewrite bind_ret_l
    | match goal with
      | |- context [if ?b then _ else _] => destruct b
      | |- context [match ?g with Some _ => _ | None => _ end] => destruct g
      | |- context [match ?g with Returned _ => _ | Fell _ _ => _ end] => destruct g
      | |- context [match ?g with [] => _ | _ :: _ => _ end] => destruct g
      end
    | apply bind_ext; [ first [reflexivity | solve [auto with agree]] | intros ? ? ] ].
Ltac agree := repeat agree_step.

Section Agree.

Variable O : Oracle.
Variable on_join : M unit.
Variable h : M unit.

Lemma send_goal_alone p w : alone h (send_goal_t O p) w = send_goal O h p w.
Proof.
  unfold send_goal_t, send_goal. agree.
  all: try apply alone_wait.
Qed.
#[local] Hint Resolve alone_wait send_goal_alone : agree.

Lemma return_to_home_alone w : alone h (return_to_home_t O) w = return_to_home O h w.
Proof. unfold return_to_home_t, return_to_home. agree. Qed.
#[local] Hint Resolve return_to_home_alone : agree.

Lemma return_to_kitchen_alone w :
  alone h (return_to_kitchen_t O) w = return_to_kitchen O h w.
Proof. unfold return_to_kitchen_t, return_to_kitchen. agree. Qed.
#[local] Hint Resolve return_to_kitchen_alone : agree.

Lemma signal_handler_alone w : alone h (signal_handler_t O) w = signal_handler O h w.
Proof. unfold signal_handler_t, signal_handler. agree. Qed.

Lemma move_to_kitchen_alone w : alone h (move_to_kitchen_t O) w = move_to_kitchen O h w.
Proof. unfold move_to_kitchen_t, move_to_kitchen. agree. Qed.

Lemma move_to_table_alone t w : alone h (move_to_table_t O t) w = move_to_table O h t w.
Proof. unfold move_to_table_t, move_to_table. agree. Qed.

Lemma timed_input_alone prompt timeout w :
  alone h (timed_input_t O prompt timeout) w = timed_input O h prompt timeout w.
Proof. unfold timed_input_t, timed_input, select_line_t, select_line. agree. Qed.
#[local] Hint Resolve move_to_kitchen_alone move_to_table_alone timed_input_alone : agree.

Lemma confirmation_loop_alone fuel : forall location start w,
  alone h (confirmation_loop_t O fuel location start) w
  = confirmation_loop O h fuel location start w.
Proof.
  induction fuel as [|f IH]; intros location start w; [reflexivity|].
  cbn [confirmation_loop_t confirmation_loop]. agree.
Qed.
#[local] Hint Resolve confirmation_loop_alone : agree.

Lemma wait_for_confirmation_alone fuel location w :
  alone h (wait_for_confirmation_t O fuel location) w
  = wait_for_confirmation O h fuel location w.
Proof. unfold wait_for_confirmation_t, wait_for_confirmation. agree. Qed.
#[local] Hint Resolve wait_for_confirmation_alone : agree.

Lemma serve_queue_alone fuel : forall w,
  alone h (serve_queue_t O fuel) w = serve_queue O h fuel w.
Proof.
  induction fuel as [|f IH]; intros w; [reflexivity|].
  cbn [serve_queue_t serve_queue]. agree.
Qed.
#[local] Hint Resolve serve_queue_alone : agree.

Lemma deliver_alone fuel w :
  alone h (deliver_t O on_join fuel) w = deliver O h on_join fuel w.
Proof. unfold deliver_t, deliver. agree. Qed.
#[local] Hint Resolve deliver_alone : agree.

Lemma process_order_alone fuel w :
  alone h (process_order_t O on_join fuel) w = process_order O h on_join fuel w.
Proof. unfold process_order_t, process_order. agree. Qed.

End Agree.

(** The handler with nothing else running, and the delivery thread with
    the handler and the modification thread run inside its waits, are the
    threads of the schedules left alone in that way. *)
Lemma sigint_handler_is_the_handler_alone O w :
  sigint_handler O w = alone undisturbed (signal_handler_t O) w.
Proof. symmetry. apply signal_handler_alone. Qed.

Lemma delivery_thread_is_the_cycle_alone O fuel w :
  delivery_thread O fuel w
  = alone (while_delivery_waits O fuel)
          (process_order_t O (run_listener O fuel) fuel) w.
Proof. symmetry. apply process_order_alone. Qed.

(** C2.  The code at the failing schedule.  Tables 1 and 2 are queued, the
    kitchen is reached and confirmed, and the robot is on its way to
    table1 when the SIGINT arrives.  The handler marks the cancellation as
    pending and sends its goal to the kitchen.  While it waits for it the
    delivery thread wakes from its canceled table goal, leaves the drain on
    [CANCELED] and sends a kitchen goal of its own, on a client of its own,
    which takes the place of the handler's in [self.move_base_client].  The
    handler's goal succeeds; but the status the handler reads is that of
    the client the delivery thread has put there, which has none yet: the
    handler sends no goal home and leaves the mark set.  The delivery
    thread's goal is aborted, so it sends no goal home either.  Both
    threads have come to their end: the handler's kitchen goal has
    succeeded with the mark set, no goal home has followed, and the mark is
    still set. *)
Lemma cancellation_races_with_the_cycle :
  let O := mkOracle (fun k => match k with 1 => 2 | 3 => 4 | _ => SUCCEEDED end)
                    (fun k => match k with 0 => None | _ => Some "yes" end)
                    (fun k => Z.of_nat k) (fun _ => false) (fun _ => false) in
  let w := with_order_queue ["table1"; "table2"] initial in
  let after := fun steps => comes_to (schedule O 10 steps (cycle_started O 10) w) in
  let on_the_way := [Cycle_goes_on; Listener_runs; Cycle_goes_on; Cycle_goes_on] in
  exists w1 w2 w3 w4 w',
    (* the robot is on its way to table1 *)
    after on_the_way = Ok false w1
    /\ state w1 = DELIVERY
    /\ goal_location w1 = Some "table1"
    /\ visits (events_since w w1) = ["kitchen"; "table1"]
    (* the SIGINT: the handler sets the mark and sends its kitchen goal *)
    /\ after (on_the_way ++ [Sigint])%list = Ok false w2
    /\ goal_traffic (events_since w1 w2)
       = [CancelGoal; SendGoal (mkGoal "map" 4 (pose_of "kitchen"))]
    /\ is_goal_cancel w2 = true
    /\ lock w2 = true
    (* the delivery thread wakes and sends a kitchen goal of its own *)
    /\ after (on_the_way ++ [Sigint; Cycle_goes_on])%list = Ok false w3
    /\ goal_traffic (events_since w2 w3)
       = [GoalDone (pose_of "table1") 2; SendGoal (mkGoal "map" 5 (pose_of "kitchen"))]
    /\ order_queue w3 = ["table2"]
    (* the handler's goal has succeeded: the handler sends no goal and returns *)
    /\ after (on_the_way ++ [Sigint; Cycle_goes_on; Handler_goes_on])%list = Ok false w4
    /\ goal_traffic (events_since w3 w4) = [GoalDone (pose_of "kitchen") SUCCEEDED]
    /\ lock_ops (events_since w3 w4) = [Release]
    /\ is_goal_cancel w4 = true
    (* the delivery thread's goal is aborted: the cycle ends *)
    /\ after (on_the_way ++ [Sigint; Cycle_goes_on; Handler_goes_on; Cycle_goes_on])%list
       = Ok true w'
    /\ goal_traffic (events_since w4 w') = [GoalDone (pose_of "kitchen") 4]
    /\ state w' = IDLE
    /\ visits (events_since w1 w') = ["kitchen"; "kitchen"]
    /\ is_goal_cancel w' = true.
Proof.
  cbv zeta. do 5 eexists.
  repeat (split; [vm_compute; reflexivity|]).
  reflexivity.
Qed.

(* ===================================================================== *)
(** ** The intake loop *)
(* ===================================================================== *)

Lemma goals_sent_app t1 t2 : goals_sent (t1 ++ t2)%list = (goals_sent t1 ++ goals_sent t2)%list.
Proof.
  induction t1 as [|e t1 IH]; [reflexivity|].
  destruct e; cbn [goals_sent app]; now rewrite ?IH.
Qed.

Lemma state_writes_app t1 t2 :
  state_writes (t1 ++ t2)%list = (state_writes t1 ++ state_writes t2)%list.
Proof.
  induction t1 as [|e t1 IH]; [reflexivity|].
  destruct e; cbn [state_writes app]; now rewrite ?IH.
Qed.

Example invalid_batch_example :
  valid_tables_of (PyStr.split "," (PyStr.strip "table99, table100")) = [].
Proof. reflexivity. Qed.

(** C8.  A turn of the intake loop whose batch has no entry that validates
    against the registry (no SIGINT arriving while it waits for the line)
    leaves the queue and the state as they were, writes neither, sends no
    goal and starts no thread: no delivery cycle begins. *)
Theorem invalid_batch_changes_nothing :
  forall O w line,
    lock w = false ->
    sigint O (wait_ix w) = false ->
    stdin O (stdin_ix w) = Some line ->
    valid_tables_of (PyStr.split "," (PyStr.strip line)) = [] ->
    exists c w' evs,
      intake_step O w = Ok c w'
      /\ order_queue w' = order_queue w
      /\ state w' = state w
      /\ trace w' = (trace w ++ evs)%list
      /\ threads_started evs = []
      /\ queue_writes evs = []
      /\ state_writes evs = []
      /\ goals_sent evs = [].
Proof.
  intros O w line Hl Hsig Hin Hv.
  unfold intake_step, get_orders_from_user_step.
  exec. destruct (state w) eqn:Hs; exec.
  2-4: exists Continue; eexists; exists []; (split; [reflexivity|]);
       rewrite app_nil_r; repeat split; auto.
  unfold input, deliver_sigint. exec. rewrite Hsig. exec. rewrite Hin. exec.
  destruct (String.eqb (PyStr.lower (PyStr.strip line)) "exit").
  - exec. eexists; eexists; eexists. split; [reflexivity|]. simpl_world.
    rewrite <- !app_assoc. cbn [app]. rewrite Hs. repeat split.
  - erewrite bind_Ok by (apply lock_acquire_free; exact Hl).
    rewrite Hv. exec.
    erewrite bind_Ok by (apply lock_release_held; reflexivity). exec.
    eexists; eexists; eexists. split; [reflexivity|]. simpl_world.
    rewrite <- !app_assoc. cbn [app]. rewrite Hs. repeat split.
Qed.

Lemma invalid_batch_changes_nothing_witness :
  exists c w' evs,
    intake_step (mkOracle (fun _ => SUCCEEDED) (fun _ => Some "table99, table100")
                          (fun _ => 0%Z) (fun _ => false) (fun _ => false))
                initial = Ok c w'
    /\ order_queue w' = []
    /\ state w' = IDLE
    /\ trace w' = (trace initial ++ evs)%list
    /\ threads_started evs = []
    /\ queue_writes evs = []
    /\ state_writes evs = []
    /\ goals_sent evs = [].
Proof.
  exact (invalid_batch_changes_nothing
           (mkOracle (fun _ => SUCCEEDED) (fun _ => Some "table99, table100")
                     (fun _ => 0%Z) (fun _ => false) (fun _ => false))
           initial "table99, table100" eq_refl eq_refl eq_refl eq_refl).
Defined.

(** What a wait of the intake or of the modification thread can bring: at
    most the cancellation handler. *)
Lemma deliver_sigint_returns O w :
  lock w = false ->
  exists w',
    deliver_sigint O w = Ok tt w'
    /\ lock w' = false
    /\ stdin_ix w' = stdin_ix w
    /\ wait_ix w' = S (wait_ix w)
    /\ order_queue w' = order_queue w
    /\ listener_pending w' = listener_pending w
    /\ state w' = (if sigint O (wait_ix w) then CANCELED else state w)
    /\ exists evs, trace w' = (trace w ++ evs)%list /\ table_visits evs = [].
Proof.
  intros Hl. unfold deliver_sigint. exec.
  destruct (sigint O (wait_ix w)).
  - match goal with |- context [sigint_handler O ?W] =>
      destruct (sigint_handler_returns O W Hl) as (w' & E & H) end.
    exists w'. split; [exact E|].
    destruct H as [Hs Hq Hlk Hp _ Hi Hw _ (body & Ht & Hv & _)].
    simpl_world_in Hq. simpl_world_in Hp. simpl_world_in Hi.
    simpl_world_in Hw. simpl_world_in Ht.
    repeat split; auto.
    eexists. split; [exact Ht|].
    rewrite !table_visits_app, Hv. reflexivity.
  - exec. eexists. split; [reflexivity|]. simpl_world.
    repeat split; auto. exists []. now rewrite app_nil_r.
Qed.

(** C4.  The code at the failing input.  The intake appends every entry
    of the batch that validates, without looking at the queue or at the
    rest of the batch, as [add_tables] and [ask_modify_orders] do before
    they add: typed at the idle robot, "1,1" queues table1 twice. *)
Lemma intake_queues_a_table_twice :
  exists w',
    intake_step (mkOracle (fun _ => SUCCEEDED) (fun _ => Some "1,1") (fun _ => 0%Z)
                          (fun _ => false) (fun _ => false))
                initial = Ok Continue w'
    /\ order_queue w' = ["table1"; "table1"]
    /\ ~ NoDup (order_queue w').
Proof.
  eexists. split; [vm_compute; reflexivity|]. simpl_world.
  split; [reflexivity|].
  intros H. inversion H as [|x l Hn _]. apply Hn. now left.
Qed.

(** [add_tables] compares each entry with the queue as it is before the
    batch is appended, not with the entries accepted before it. *)
Example add_tables_queues_a_table_twice :
  exists w',
    add_tables (mkOracle (fun _ => SUCCEEDED) (fun _ => Some "2,2") (fun _ => 0%Z)
                         (fun _ => false) (fun _ => false))
               undisturbed
               (with_order_queue ["table1"] (with_state DELIVERY initial))
    = Ok tt w'
    /\ order_queue w' = ["table1"; "table2"; "table2"].
Proof. eexists. split; [vm_compute; reflexivity | reflexivity]. Qed.

(** X23.  Every add keeps the queue a list of registry keys: the intake
    appends the entries of the batch that validate, in order, and
    [add_tables] appends entries that validate and were not in the queue
    before the add. *)
Theorem adds_append_registry_keys :
  (forall O w line,
      state w = IDLE -> lock w = false ->
      stdin O (stdin_ix w) = Some line ->
      String.eqb (PyStr.lower (PyStr.strip line)) "exit" = false ->
      exists w',
        intake_step O w = Ok Continue w'
        /\ order_queue w'
           = (order_queue w ++ valid_tables_of (PyStr.split "," (PyStr.strip line)))%list
        /\ (valid_queue (order_queue w) -> valid_queue (order_queue w')))
  /\ (forall O w line,
         lock w = false ->
         stdin O (stdin_ix w) = Some line ->
         exists w' new,
           add_tables O (deliver_sigint O) w = Ok tt w'
           /\ order_queue w' = (order_queue w ++ new)%list
           /\ Forall (fun t => in_WAYPOINTS t = true /\ ~ In t (order_queue w)) new
           /\ (valid_queue (order_queue w) -> valid_queue (order_queue w'))).
Proof.
  split.
  - intros O w line Hs Hl Hin Hexit.
    unfold intake_step, get_orders_from_user_step.
    exec. rewrite Hs. exec. unfold input. exec.
    match goal with |- context [bind (deliver_sigint O) _ ?W] =>
      destruct (deliver_sigint_returns O W Hl)
        as (w1 & E & Hl1 & Hi1 & _ & Hq1 & _ & _ & _) end.
    erewrite bind_Ok by exact E. exec.
    rewrite Hi1. simpl_world. rewrite Hin. exec. rewrite Hexit.
    erewrite bind_Ok by (apply lock_acquire_free; exact Hl1).
    simpl_world_in Hq1.
    destruct (valid_tables_of (PyStr.split "," (PyStr.strip line))) as [|t ts] eqn:Hv.
    + exec. erewrite bind_Ok by (apply lock_release_held; reflexivity). exec.
      eexists. split; [reflexivity|]. simpl_world.
      rewrite Hq1, app_nil_r. split; [reflexivity | auto].
    + exec. erewrite bind_Ok by (apply lock_release_held; reflexivity). exec.
      eexists. split; [reflexivity|]. simpl_world.
      rewrite Hq1. split; [reflexivity|].
      intros Hvq. apply Forall_app. split; [exact Hvq|].
      rewrite <- Hv. apply valid_tables_of_valid.
  - intros O w line Hl Hin.
    unfold add_tables, input. exec.
    match goal with |- context [bind (deliver_sigint O) _ ?W] =>
      destruct (deliver_sigint_returns O W Hl)
        as (w1 & E & Hl1 & Hi1 & _ & Hq1 & _ & _ & _) end.
    erewrite bind_Ok by exact E. exec.
    rewrite Hi1. simpl_world. rewrite Hin. exec.
    simpl_world_in Hq1. rewrite Hq1.
    pose proof (addable_tables_of_fresh (order_queue w)
                  (PyStr.split "," (PyStr.strip line))) as Hfresh.
    destruct (addable_tables_of (order_queue w) (PyStr.split "," (PyStr.strip line)))
      as [|t ts] eqn:Hv.
    + exec. eexists; exists []. split; [reflexivity|]. simpl_world.
      rewrite ?Hq1, app_nil_r. repeat split; auto.
    + exec. eexists; exists (t :: ts). split; [reflexivity|]. simpl_world.
      split; [reflexivity|]. split; [exact Hfresh|].
      intros Hvq. apply Forall_app. split; [exact Hvq|].
      eapply Forall_impl; [|exact Hfresh]. now intros a [Ha _].
Qed.

Lemma adds_append_registry_keys_witness :
  exists w',
    intake_step (mkOracle (fun _ => SUCCEEDED) (fun _ => Some "1, 2") (fun _ => 0%Z)
                          (fun _ => false) (fun _ => false))
                initial = Ok Continue w'
    /\ order_queue w' = ["table1"; "table2"]
    /\ (valid_queue [] -> valid_queue (order_queue w')).
Proof.
  exact (proj1 adds_append_registry_keys
           (mkOracle (fun _ => SUCCEEDED) (fun _ => Some "1, 2") (fun _ => 0%Z)
                     (fun _ => false) (fun _ => false))
           initial "1, 2" eq_refl eq_refl eq_refl eq_refl).
Defined.

(* ===================================================================== *)
(** ** The confirmation gate *)
(* ===================================================================== *)





(** A wait of the delivery thread during which nothing else runs. *)
Lemma quiet_wait O fuel w :
  sigint O (wait_ix w) = false -> listener_pending w = false ->
  while_delivery_waits O fuel w = Ok tt (with_wait_ix (S (wait_ix w)) w).
Proof.
  intros Hs Hp. unfold while_delivery_waits. exec. rewrite Hs. exec.
  destruct (listener_runs O (wait_ix w)); [|reflexivity].
  unfold run_listener. simpl_world. now rewrite Hp.
Qed.

Lemma goals_sent_nil_visits t : goals_sent t = [] -> visits t = [].
Proof.
  induction t as [|e t IH]; [reflexivity|].
  destruct e; cbn [goals_sent visits]; auto. discriminate.
Qed.

Lemma unanswered_attempt O fuel f location start w :
  listener_pending w = false ->
  state w <> CANCELED ->
  sigint O (wait_ix w) = false ->
  (clock O (clock_ix w) - start < CONFIRM_TIMEOUT)%Z ->
  is_answer (stdin O (stdin_ix w)) = false ->
  exists evs,
    goals_sent evs = [] /\ state_writes evs = []
    /\ confirmation_loop O (while_delivery_waits O fuel) (S f) location start w
       = confirmation_loop O (while_delivery_waits O fuel) f location start
           (after_attempts 1 evs w).
Proof.
  intros Hp Hs Hsig Hin Hans.
  cbn [confirmation_loop]. exec.
  rewrite (proj2 (Z.ltb_lt _ _) Hin).
  unfold timed_input, select_line. exec.
  erewrite bind_Ok by (apply quiet_wait; [exact Hsig | exact Hp]).
  exec.
  assert (Hne : robot_state_eqb (state w) CANCELED = false)
    by (destruct (state w); try reflexivity; congruence).
  unfold is_answer, answer_of in Hans.
  destruct (stdin O (stdin_ix w)) as [line|]; exec.
  - apply orb_false_iff in Hans. destruct Hans as [Hy Hn].
    rewrite Hy, Hn. exec. rewrite Hne.
    eexists. split; [|split; [|unfold after_attempts; rewrite <- !app_assoc; reflexivity]];
      reflexivity.
  - rewrite Hne.
    eexists. split; [|split; [|unfold after_attempts; rewrite <- !app_assoc; reflexivity]];
      reflexivity.
Qed.

Lemma after_attempts_S n evs1 evs w :
  after_attempts n evs (after_attempts 1 evs1 w) = after_attempts (S n) (evs1 ++ evs) w.
Proof.
  unfold after_attempts. simpl_world.
  rewrite <- app_assoc. f_equal; lia.
Qed.

Lemma unanswered_attempts O fuel location start n : forall f w,
  listener_pending w = false ->
  state w <> CANCELED ->
  (forall i, i < n ->
     sigint O (i + wait_ix w) = false
     /\ (clock O (i + clock_ix w) - start < CONFIRM_TIMEOUT)%Z
     /\ is_answer (stdin O (i + stdin_ix w)) = false) ->
  exists evs,
    goals_sent evs = [] /\ state_writes evs = []
    /\ confirmation_loop O (while_delivery_waits O fuel) (n + f) location start w
       = confirmation_loop O (while_delivery_waits O fuel) f location start
           (after_attempts n evs w).
Proof.
  induction n as [|n IH]; intros f w Hp Hs Hq.
  - exists []. split; [reflexivity|]. split; [reflexivity|].
    unfold after_attempts. cbn [Nat.add]. rewrite app_nil_r. now destruct w.
  - destruct (Hq 0 (Nat.lt_0_succ n)) as (Hsig & Hin & Hans).
    destruct (unanswered_attempt O fuel (n + f) location start w Hp Hs Hsig Hin Hans)
      as (evs1 & Hg1 & Hw1 & E1).
    destruct (IH f (after_attempts 1 evs1 w)) as (evs & Hg & Hw & E); auto.
    { intros i Hi. unfold after_attempts. simpl_world.
      replace (i + (1 + wait_ix w)) with (S i + wait_ix w) by lia.
      replace (i + (1 + clock_ix w)) with (S i + clock_ix w) by lia.
      replace (i + (1 + stdin_ix w)) with (S i + stdin_ix w) by lia.
      apply Hq. lia. }
    exists (evs1 ++ evs)%list.
    rewrite goals_sent_app, state_writes_app, Hg1, Hg, Hw1, Hw.
    split; [reflexivity|]. split; [reflexivity|].
    cbn [Nat.add]. rewrite E1, E. now rewrite after_attempts_S.
Qed.

(** Symbolic execution in the delivery thread while nothing else runs. *)
Ltac quiet_exec Hquiet Hp :=
  unfold return_to_kitchen, return_to_home, send_goal;
  exec;
  repeat (first
    [ unstick
    | erewrite bind_Ok by (apply quiet_wait; [apply Hquiet | exact Hp])
    | match goal with
      | |- context [if is_goal_cancel ?w then _ else _] =>
          let E := fresh "Hflag" in destruct (is_goal_cancel w) eqn:E
      end ];
    exec).

(** C6.  Let the gate make [n] attempts inside the window that bring no
    yes and no no, with no cancellation and no other thread acting.  If
    the window has then elapsed, the gate reports "not confirmed" after
    forcing a recovery: at a location whose name contains "table", a goal
    to the kitchen and then a goal home (with one more home goal in
    between when a cancellation was still pending and the kitchen was
    reached); at any other location (the kitchen, home), a goal home only.
    If instead the next attempt brings "no", the gate reports "not
    confirmed" and sends no goal at all. *)
Theorem gate_without_confirmation :
  forall O fuel f n location w,
    listener_pending w = false ->
    state w <> CANCELED ->
    (forall k, sigint O k = false) ->
    (forall i, i < n ->
       (clock O (i + S (clock_ix w)) - clock O (clock_ix w) < CONFIRM_TIMEOUT)%Z
       /\ is_answer (stdin O (i + stdin_ix w)) = false) ->
    ((CONFIRM_TIMEOUT <= clock O (n + S (clock_ix w)) - clock O (clock_ix w))%Z ->
     exists w' evs,
       wait_for_confirmation O (while_delivery_waits O fuel) (n + S f) location w
       = Ok false w'
       /\ trace w' = (trace w ++ evs)%list
       /\ visits evs
          = if PyStr.contains "table" location
            then ("kitchen"
                  :: (if Nat.eqb (nav O (nav_ix w)) SUCCEEDED && is_goal_cancel w
                      then ["home"] else [])
                  ++ ["home"])%list
            else ["home"])
    /\ (forall line,
          (clock O (n + S (clock_ix w)) - clock O (clock_ix w) < CONFIRM_TIMEOUT)%Z ->
          stdin O (n + stdin_ix w) = Some line ->
          answer_of line = "no" ->
          exists w' evs,
            wait_for_confirmation O (while_delivery_waits O fuel) (n + S f) location w
            = Ok false w'
            /\ trace w' = (trace w ++ evs)%list
            /\ goals_sent evs = []).
Proof.
  intros O fuel f n location w Hp Hs Hquiet Hq.
  assert (Hloop : exists evs,
    goals_sent evs = [] /\
      wait_for_confirmation O (while_delivery_waits O fuel) (n + S f) location w
      = (x <- confirmation_loop O (while_delivery_waits O fuel) (S f) location
                (clock O (clock_ix w)) ;;
         match x with
         | Returned answer => ret answer
         | Fell confirmed input_received =>
             if negb input_received
             then
               if PyStr.contains "table" location
               then loginfo ("No confirmation received at " ++ location ++ " within timeout") ;;
                    loginfo "Returning to kitchen and home due to lack of confirmation" ;;
                    return_to_kitchen O (while_delivery_waits O fuel) ;;
                    return_to_home O (while_delivery_waits O fuel) ;;
                    ret false
               else loginfo ("No confirmation received at " ++ location ++ " within timeout") ;;
                    loginfo "Returning to home due to lack of confirmation" ;;
                    return_to_home O (while_delivery_waits O fuel) ;;
                    ret false
             else ret confirmed
         end)
          (mkWorld (state w) (Some location) (order_queue w) (lock w) (is_goal_cancel w)
                   (client w) (client_status w) (listener_pending w)
                   (nav_ix w) (n + stdin_ix w) (n + S (clock_ix w)) (n + wait_ix w)
                   ((trace w ++ [LogInfo ("Waiting for confirmation at " ++ location ++ "..")])
                    ++ evs)%list)).
  { match type of Hp with _ = false =>
      destruct (unanswered_attempts O fuel location (clock O (clock_ix w)) n (S f)
                  (mkWorld (state w) (Some location) (order_queue w) (lock w) (is_goal_cancel w)
                     (client w) (client_status w) (listener_pending w)
                     (nav_ix w) (stdin_ix w) (S (clock_ix w)) (wait_ix w)
                     (trace w ++ [LogInfo ("Waiting for confirmation at " ++ location ++ "..")])%list))
        as (evs & Hg & _ & E) end.
    - exact Hp.
    - exact Hs.
    - intros i Hi. simpl_world. destruct (Hq i Hi) as [Hc Ha].
      split; [apply Hquiet|]. split; assumption.
    - exists evs. split; [exact Hg|].
      unfold wait_for_confirmation. exec.
      unfold bind at 1. rewrite E. reflexivity. }
  destruct Hloop as (evs & Hg & Hloop).
  pose proof (goals_sent_nil_visits _ Hg) as Hv.
  split.
  - intros Hout. rewrite Hloop. clear Hloop.
    cbn [confirmation_loop]. exec.
    rewrite (proj2 (Z.ltb_ge _ _) Hout). exec.
    destruct (PyStr.contains "table" location); quiet_exec Hquiet Hp.
    all: eexists; eexists; (split; [reflexivity|]); simpl_world;
      rewrite <- !app_assoc; (split; [reflexivity|]);
      rewrite !visits_app, Hv; vm_compute; reflexivity.
  - intros line Hin Hline Hno. rewrite Hloop. clear Hloop.
    cbn [confirmation_loop]. exec.
    rewrite (proj2 (Z.ltb_lt _ _) Hin).
    unfold timed_input, select_line. exec.
    erewrite bind_Ok by (apply quiet_wait; [apply Hquiet | exact Hp]).
    exec. rewrite Hline. exec.
    unfold answer_of in Hno. rewrite Hno.
    change (String.eqb "no" "yes") with false.
    change (String.eqb "no" "no") with true.
    exec.
    eexists; eexists. split; [reflexivity|]. simpl_world.
    rewrite <- !app_assoc. split; [reflexivity|].
    rewrite !goals_sent_app, Hg. reflexivity.
Qed.

Lemma gate_without_confirmation_witness :
  let O := mkOracle (fun _ => SUCCEEDED) (fun _ => None)
                    (fun k => Z.of_nat k * 10000000000)%Z
                    (fun _ => false) (fun _ => false) in
  exists w' evs,
    wait_for_confirmation O (while_delivery_waits O 5) (2 + 1) "table1"
                          (with_state DELIVERY initial) = Ok false w'
    /\ trace w' = (trace initial ++ evs)%list
    /\ visits evs = ["kitchen"; "home"].
Proof.
  cbv zeta.
  refine (proj1 (gate_without_confirmation
                   (mkOracle (fun _ => SUCCEEDED) (fun _ => None)
                             (fun k => Z.of_nat k * 10000000000)%Z
                             (fun _ => false) (fun _ => false))
                   5 0 2 "table1" (with_state DELIVERY initial)
                   eq_refl _ (fun _ => eq_refl) _) _).
  - discriminate.
  - intros i Hi. destruct i as [|[|i]]; [split; reflexivity .. | lia].
  - vm_compute. discriminate.
Defined.

(* ===================================================================== *)
(** ** Draining the queue *)
(* ===================================================================== *)

Section DrainFacts.

Variable O : Oracle.
Variable on_wait : M unit.
Hypothesis wait_ok : does unlocked on_wait [] any.
Variable N : nat.
Hypothesis window : window_bound O N.

(** The drain heads for the tables of the queue in order, from the head,
    and stops when the queue is empty or the state is [CANCELED]: what it
    headed for, followed by what it left, is the queue it started with. *)
Lemma serve_queue_fifo q : forall fuel w,
  unlocked w ->
  order_queue w = q ->
  Forall table_key q ->
  N + length q < fuel ->
  exists w' evs,
    serve_queue O on_wait fuel w = Ok tt w'
    /\ unlocked w'
    /\ trace w' = (trace w ++ evs)%list
    /\ (table_visits evs ++ order_queue w')%list = q
    /\ (order_queue w' = [] \/ state w' = CANCELED).
Proof.
  induction q as [|t rest IH]; intros fuel w Hu Hq Hk Hfuel.
  - destruct fuel as [|f]; [cbn in Hfuel; lia|].
    cbn [serve_queue]. exec. rewrite Hq.
    exists w, []. rewrite app_nil_r, Hq. repeat split; auto; apply Hu.
  - destruct fuel as [|f]; [cbn in Hfuel; lia|].
    cbn [length] in Hfuel.
    cbn [serve_queue]. exec. rewrite Hq. exec.
    destruct (robot_state_eqb (state w) CANCELED) eqn:Hs.
    { exists w, []. rewrite app_nil_r, Hq. repeat split; auto; try apply Hu.
      right. destruct (state w); try discriminate. reflexivity. }
    inversion Hk as [|? ? Ht Hrest]; subst. exec.
    (* the table is popped and headed for *)
    match goal with |- context [bind (move_to_table O on_wait t) _ ?W] =>
      set (w1 := W) end.
    assert (Hu1 : unlocked w1) by (destruct Hu; split; assumption).
    destruct (does_move_to_table O on_wait unlocked unlocked_stable wait_ok t Ht w1 Hu1)
      as (reached & w2 & E2 & F2 & _).
    erewrite bind_Ok by exact E2.
    pose proof (stable_effect _ _ _ _ unlocked_stable F2 Hu1) as Hu2.
    destruct F2 as [Fq2 _ _ _ (evs2 & Ft2 & Fv2)].
    (* whatever happens at the table, the drain goes on with the rest *)
    assert (Hnext : forall w3 evs3,
              unlocked w3 -> order_queue w3 = rest ->
              trace w3 = (trace w2 ++ evs3)%list -> table_visits evs3 = [] ->
              exists w' evs,
                serve_queue O on_wait f w3 = Ok tt w'
                /\ unlocked w'
                /\ trace w' = (trace w ++ evs)%list
                /\ (table_visits evs ++ order_queue w')%list = t :: rest
                /\ (order_queue w' = [] \/ state w' = CANCELED)).
    { intros w3 evs3 Hu3 Hq3 Ht3 Hv3.
      destruct (IH f w3 Hu3 Hq3 Hrest) as (w' & evs & E & Hu' & Ht' & Hv' & Hend); [lia|].
      exists w', ([SetQueue rest] ++ evs2 ++ evs3 ++ evs)%list.
      split; [exact E|]. split; [exact Hu'|]. split; [|split; [|exact Hend]].
      - rewrite Ht', Ht3, Ft2. subst w1. simpl_world.
        now rewrite <- !app_assoc.
      - rewrite !table_visits_app, Fv2, Hv3.
        cbn [app]. now rewrite <- Hv'. }
    destruct reached; cbn [negb].
    + destruct (wait_for_confirmation_returns O on_wait unlocked unlocked_stable
                  wait_ok N window f t w2 Hu2) as (c & w3 & E3 & F3); [lia|].
      erewrite bind_Ok by exact E3.
      pose proof (stable_effect _ _ _ _ unlocked_stable F3 Hu2) as Hu3.
      destruct F3 as [Fq3 _ _ _ (evs3 & Ft3 & Fv3)].
      destruct c; cbn [negb].
      * apply (Hnext w3 evs3); auto. rewrite Fq3, Fq2. reflexivity.
      * exec.
        eapply (Hnext _ (evs3 ++ [_])%list).
        -- destruct Hu3; split; assumption.
        -- simpl_world. rewrite Fq3, Fq2. reflexivity.
        -- simpl_world. rewrite Ft3. now rewrite <- app_assoc.
        -- rewrite table_visits_app, Fv3. reflexivity.
    + exec.
      eapply (Hnext _ [_]).
      * destruct Hu2; split; assumption.
      * simpl_world. rewrite Fq2. reflexivity.
      * reflexivity.
      * reflexivity.
Qed.

End DrainFacts.

(** C3.  The code at the failing input.  "1,1" is ordered at the idle
    robot, and the intake queues table1 twice.  While the robot is on its
    way to the kitchen the operator removes table 1, and the modification
    thread logs "Removed table1 from the queue": the removal has taken one
    occurrence out of the queue, the other is still there, and after that
    log line the cycle drives to table1. *)
Lemma removed_table_is_still_visited :
  let O := mkOracle (fun _ => SUCCEEDED)
                    (fun k => match k with
                              | 0 => Some "1,1" | 1 => Some "remove" | 2 => Some "1"
                              | _ => Some "yes"
                              end)
                    (fun k => Z.of_nat k) (fun _ => false) (fun _ => true) in
  exists w1 w2 later,
    intake_step O initial = Ok Continue w1
    /\ order_queue w1 = ["table1"; "table1"]
    /\ delivery_thread O 10 w1 = Ok tt w2
    /\ after_log "Removed table1 from the queue" (trace w2) = Some later
    /\ table_visits later = ["table1"].
Proof.
  cbv zeta. eexists; eexists; eexists.
  split; [vm_compute; reflexivity|].
  split; [reflexivity|].
  split; [vm_compute; reflexivity|].
  split; [vm_compute; reflexivity|].
  vm_compute. reflexivity.
Qed.

(* ===================================================================== *)
(** ** The modification thread empties the queue *)
(* ===================================================================== *)

Lemma removal_events_quiet ts : forall q,
  goals_sent (removal_events ts q) = [] /\ state_writes (removal_events ts q) = [].
Proof.
  induction ts as [|t ts IH]; intros q; [split; reflexivity|].
  cbn [removal_events]. destruct (PyStr.mem t q); cbn [goals_sent state_writes]; apply IH.
Qed.

Lemma remove_tables_run ts : forall w,
  remove_tables ts w
  = Ok tt (mkWorld (state w) (goal_location w) (remove_all ts (order_queue w))
                   (lock w) (is_goal_cancel w) (client w) (client_status w)
                   (listener_pending w) (nav_ix w) (stdin_ix w) (clock_ix w)
                   (wait_ix w) (trace w ++ removal_events ts (order_queue w))).
Proof.
  induction ts as [|t ts IH]; intros w.
  - cbn [remove_tables remove_all removal_events]. rewrite app_nil_r. now destruct w.
  - cbn [remove_tables remove_all removal_events]. exec.
    destruct (PyStr.mem t (order_queue w)); exec; rewrite IH; simpl_world.
    + now rewrite <- !app_assoc.
    + reflexivity.
Qed.

Lemma visits_home fr st t :
  visits (SendGoal (mkGoal fr st (pose_of "home")) :: t) = "home" :: visits t.
Proof. rewrite visits_SendGoal. cbn [target]. now rewrite visit_of_home. Qed.

Lemma visits_kitchen fr st t :
  visits (SendGoal (mkGoal fr st (pose_of "kitchen")) :: t) = "kitchen" :: visits t.
Proof. rewrite visits_SendGoal. cbn [target]. now rewrite visit_of_kitchen. Qed.

Lemma visits_skip e t :
  match e with SendGoal _ => False | _ => True end -> visits (e :: t) = visits t.
Proof. now destruct e. Qed.

Lemma table_visits_home fr st t :
  table_visits (SendGoal (mkGoal fr st (pose_of "home")) :: t) = table_visits t.
Proof. unfold table_visits. now rewrite visits_home. Qed.

Lemma table_visits_kitchen fr st t :
  table_visits (SendGoal (mkGoal fr st (pose_of "kitchen")) :: t) = table_visits t.
Proof. unfold table_visits. now rewrite visits_kitchen. Qed.

Lemma table_visits_skip e t :
  match e with SendGoal _ => False | _ => True end ->
  table_visits (e :: t) = table_visits t.
Proof. unfold table_visits. now destruct e. Qed.

Lemma table_visits_unsent t : goals_sent t = [] -> table_visits t = [].
Proof. intros H. unfold table_visits. now rewrite (goals_sent_nil_visits _ H). Qed.

(** Table visits of a list built from known pieces. *)
Ltac no_table_visits :=
  repeat first
    [ rewrite table_visits_app
    | rewrite table_visits_home
    | rewrite table_visits_kitchen
    | rewrite table_visits_skip by exact I
    | match goal with H : table_visits ?l = [] |- context [table_visits ?l] => rewrite H end
    | rewrite (table_visits_unsent (removal_events _ _))
        by apply removal_events_quiet ];
  reflexivity.


Lemma quiet_deliver_sigint O w :
  sigint O (wait_ix w) = false ->
  deliver_sigint O w = Ok tt (with_wait_ix (S (wait_ix w)) w).
Proof. intros H. unfold deliver_sigint. exec. now rewrite H. Qed.

Lemma idle_prompt_turn O f w ix :
  state w = DELIVERY ->
  idle_prompt O (order_queue w) (stdin_ix w, wait_ix w) = Some ix ->
  exists evs,
    goals_sent evs = []
    /\ listener_thread O (S f) w = listener_thread O f (after_prompts ix evs w).
Proof.
  intros Hs Hturn. unfold idle_prompt in Hturn.
  destruct (sigint O (wait_ix w)) eqn:Hsig; [discriminate|].
  destruct (stdin O (stdin_ix w)) as [line|] eqn:Hin; [|discriminate].
  unfold listener_thread. cbn [modify_orders_while_moving]. exec.
  rewrite Hs. exec. unfold select_line. exec.
  erewrite bind_Ok by (apply quiet_deliver_sigint; exact Hsig).
  exec. rewrite Hin. exec.
  destruct (String.eqb (PyStr.lower (PyStr.strip line)) "none"); [discriminate|].
  destruct (String.eqb (PyStr.lower (PyStr.strip line)) "add"); [discriminate|].
  destruct (String.eqb (PyStr.lower (PyStr.strip line)) "remove").
  - destruct (sigint O (S (wait_ix w))) eqn:Hsig2; [discriminate|].
    destruct (stdin O (S (stdin_ix w))) as [raw|] eqn:Hin2; [|discriminate].
    unfold input. exec.
    erewrite bind_Ok by (apply quiet_deliver_sigint; exact Hsig2).
    exec. rewrite Hin2. exec.
    destruct (removable_tables_of (order_queue w) (PyStr.split "," (PyStr.strip raw)));
      [|discriminate].
    injection Hturn as <-. exec.
    eexists. split; [|unfold after_prompts; cbn [fst snd];
                      rewrite <- !app_assoc; reflexivity].
    reflexivity.
  - injection Hturn as <-. exec.
    eexists. split; [|unfold after_prompts; cbn [fst snd];
                      rewrite <- !app_assoc; reflexivity].
    reflexivity.
Qed.

Lemma idle_prompt_turns O n : forall f w ix,
  state w = DELIVERY ->
  idle_prompts O (order_queue w) n (stdin_ix w, wait_ix w) = Some ix ->
  exists evs,
    goals_sent evs = []
    /\ listener_thread O (n + f) w = listener_thread O f (after_prompts ix evs w).
Proof.
  induction n as [|n IH]; intros f w ix Hs Hturns.
  - cbn [idle_prompts] in Hturns. injection Hturns as <-.
    exists []. split; [reflexivity|]. unfold after_prompts. cbn [fst snd Nat.add].
    rewrite app_nil_r. now destruct w.
  - cbn [idle_prompts] in Hturns.
    destruct (idle_prompt O (order_queue w) (stdin_ix w, wait_ix w)) as [ix1|] eqn:H1;
      [|discriminate].
    destruct (idle_prompt_turn O (n + f) w ix1 Hs H1) as (evs1 & Hg1 & E1).
    destruct (IH f (after_prompts ix1 evs1 w) ix) as (evs & Hg & E).
    { exact Hs. }
    { unfold after_prompts. simpl_world. now destruct ix1. }
    exists (evs1 ++ evs)%list. split; [now rewrite goals_sent_app, Hg1, Hg|].
    cbn [Nat.add]. rewrite E1, E. f_equal.
    unfold after_prompts. simpl_world. now rewrite <- app_assoc.
Qed.


Lemma process_order_from_idle O on_wait on_join fuel w :
  lock w = false -> state w = IDLE ->
  process_order O on_wait on_join fuel w = deliver O on_wait on_join fuel (entered w).
Proof.
  intros Hl Hs. unfold process_order.
  erewrite bind_Ok by (apply lock_acquire_free; exact Hl).
  exec. rewrite Hs. exec.
  erewrite bind_Ok by (apply lock_release_held; reflexivity).
  f_equal. unfold entered. destruct w; cbn in *. subst.
  now rewrite <- !app_assoc.
Qed.

Lemma run_listener_pending O fuel w :
  listener_pending w = true ->
  run_listener O fuel w = listener_thread O fuel (with_listener_pending false w).
Proof. intros H. unfold run_listener. now rewrite H. Qed.

Lemma run_listener_joined O fuel w :
  listener_pending w = false -> run_listener O fuel w = Ok tt w.
Proof. intros H. unfold run_listener. now rewrite H. Qed.




(* ===================================================================== *)
(** ** Lock discipline *)
(* ===================================================================== *)

Lemma writes_under_held_lock body rest :
  lock_ops body = [] ->
  writes_under_lock true (body ++ rest) = writes_under_lock true rest.
Proof.
  induction body as [|e body IH]; intros H; [reflexivity|].
  destruct e; cbn [lock_ops filter] in H; try discriminate;
    cbn [app writes_under_lock andb]; auto.
Qed.

Lemma blocking_call_under_held_lock body rest g gs :
  lock_ops body = [] -> goals_sent body = g :: gs ->
  no_blocking_call_under_lock true (body ++ rest) = false.
Proof.
  induction body as [|e body IH]; intros H Hg; [discriminate|].
  destruct e; cbn [lock_ops filter] in H; try discriminate;
    cbn [goals_sent] in Hg;
    cbn [app no_blocking_call_under_lock negb andb]; auto.
Qed.

(** C9.  The code at the failing input.  "1, 2" is ordered at the idle
    robot (the intake appends under the lock); on the way to the kitchen
    the operator removes table 2; the kitchen and table1 are confirmed.
    Of the writes of that cycle only the transition to [DELIVERY] is made
    with the lock held: the removal by the modification thread, the pop of
    the drain and the reset to [IDLE] are made with the lock free.  A
    SIGINT at the robot that has come home then makes the handler send its
    recovery goals, to the kitchen and home, and wait for them, with the
    lock held. *)
Lemma lock_discipline_is_broken :
  let O := mkOracle (fun _ => SUCCEEDED)
                    (fun k => match k with
                              | 0 => Some "1, 2" | 1 => Some "remove" | 2 => Some "2"
                              | _ => Some "yes"
                              end)
                    (fun k => Z.of_nat k) (fun _ => false) (fun _ => true) in
  exists w1 w2 w3,
    intake_step O initial = Ok Continue w1
    /\ queue_writes (events_since initial w1) = [["table1"; "table2"]]
    /\ unguarded_writes false (events_since initial w1) = []
    /\ delivery_thread O 10 w1 = Ok tt w2
    /\ state_writes (events_since w1 w2) = [DELIVERY; IDLE]
    /\ queue_writes (events_since w1 w2) = [["table1"]; []]
    /\ unguarded_writes false (events_since w1 w2)
       = [SetQueue ["table1"]; SetQueue []; SetState IDLE]
    /\ state w2 = IDLE
    /\ sigint_handler O w2 = Ok tt w3
    /\ lock_ops (events_since w2 w3) = [Acquire; Release]
    /\ visits (calls_under_lock false (events_since w2 w3)) = ["kitchen"; "home"].
Proof.
  cbv zeta. eexists; eexists; eexists.
  split; [vm_compute; reflexivity|].
  split; [vm_compute; reflexivity|].
  split; [vm_compute; reflexivity|].
  split; [vm_compute; reflexivity|].
  split; [vm_compute; reflexivity|].
  split; [vm_compute; reflexivity|].
  split; [vm_compute; reflexivity|].
  split; [reflexivity|].
  split; [vm_compute; reflexivity|].
  split; vm_compute; reflexivity.
Qed.

(** X24.  The lock is taken in three places.  The check-and-set that
    starts a cycle is made under it, and it is free again when the cycle
    proper begins.  A turn of the intake that takes a batch in validates
    it and appends to the queue under the lock, after the prompt has been
    answered and with no blocking call while it is held.  The cancellation
    handler (taken at the idle robot, no delivery cycle under way) takes
    the lock before it writes the state and gives it back last, so that
    its forced recovery goal is sent and waited for with the lock held. *)
Theorem where_the_lock_is_held :
  (forall O on_wait on_join fuel w,
      lock w = false -> state w = IDLE ->
      exists evs,
        process_order O on_wait on_join fuel w
        = deliver O on_wait on_join fuel (entered w)
        /\ trace (entered w) = (trace w ++ evs)%list
        /\ state_writes evs = [DELIVERY]
        /\ writes_under_lock false evs = true
        /\ lock (entered w) = false)
  /\ (forall O w line,
         state w = IDLE -> lock w = false ->
         sigint O (wait_ix w) = false ->
         stdin O (stdin_ix w) = Some line ->
         String.eqb (PyStr.lower (PyStr.strip line)) "exit" = false ->
         exists w' evs,
           intake_step O w = Ok Continue w'
           /\ trace w' = (trace w ++ evs)%list
           /\ writes_under_lock false evs = true
           /\ no_blocking_call_under_lock false evs = true
           /\ lock w' = false)
  /\ (forall O w,
         state w = IDLE -> lock w = false ->
         exists w' evs,
           sigint_handler O w = Ok tt w'
           /\ trace w' = (trace w ++ evs)%list
           /\ state_writes evs = [CANCELED]
           /\ writes_under_lock false evs = true
           /\ no_blocking_call_under_lock false evs = false
           /\ lock w' = false).
Proof.
  split; [|split].
  - intros O on_wait on_join fuel w Hl Hs.
    exists [Acquire; SetState DELIVERY; Release].
    split; [now apply process_order_from_idle|].
    unfold entered. simpl_world. repeat split; auto.
  - intros O w line Hs Hl Hsig Hin Hexit.
    unfold intake_step, get_orders_from_user_step.
    exec. rewrite Hs. exec. unfold input, deliver_sigint. exec.
    rewrite Hsig. exec. rewrite Hin. exec. rewrite Hexit.
    erewrite bind_Ok by (apply lock_acquire_free; exact Hl).
    destruct (valid_tables_of (PyStr.split "," (PyStr.strip line))) as [|t ts];
      exec;
      (erewrite bind_Ok by (apply lock_release_held; reflexivity)); exec;
      eexists; eexists; (split; [reflexivity|]); simpl_world;
      rewrite <- !app_assoc; cbn [app]; repeat split.
  - intros O w _ Hl.
    destruct (sigint_handler_returns O w Hl) as (w' & E & H).
    destruct H as [_ _ Hlk _ _ _ _ _ (body & Ht & _ & Hops & Hwr & g & gs & Hg)].
    exists w'. eexists. split; [exact E|]. split; [exact Ht|].
    split; [|split; [|split; [|exact Hlk]]].
    + cbn [app state_writes]. now rewrite state_writes_app, Hwr.
    + cbn [app writes_under_lock andb].
      now rewrite (writes_under_held_lock body [Release] Hops).
    + cbn [app no_blocking_call_under_lock].
      exact (blocking_call_under_held_lock body [Release] g gs Hops Hg).
Qed.

Lemma where_the_lock_is_held_witness :
  let O := mkOracle (fun _ => SUCCEEDED) (fun _ => None) (fun _ => 0%Z)
                    (fun _ => false) (fun _ => false) in
  exists w' evs,
    sigint_handler O (with_goal_location (Some "table1") initial) = Ok tt w'
    /\ trace w' = (trace initial ++ evs)%list
    /\ state_writes evs = [CANCELED]
    /\ writes_under_lock false evs = true
    /\ no_blocking_call_under_lock false evs = false
    /\ lock w' = false.
Proof.
  cbv zeta.
  exact (proj2 (proj2 where_the_lock_is_held)
           (mkOracle (fun _ => SUCCEEDED) (fun _ => None) (fun _ => 0%Z)
                     (fun _ => false) (fun _ => false))
           (with_goal_location (Some "table1") initial)
           eq_refl eq_refl).
Defined.

(* ===================================================================== *)
(** ** The cancellation handler, the other routes *)
(* ===================================================================== *)

Lemma contains_table_false_not_table l :
  PyStr.contains "table" l = false ->
  negb (String.eqb l "") && PyStr.contains "table" l = false.
Proof. intros H. rewrite H. now rewrite andb_false_r. Qed.

(** X1.  The robot is idle, no delivery cycle is under way, and the goal
    location is no table (no location at all: the robot has not moved yet;
    or the kitchen, where the last cycle was given up).  A SIGINT then
    makes the handler send one goal, home, whatever that goal comes to.
    The state is [CANCELED] when the handler returns; the
    pending-cancellation flag, the goal location and the queue are as
    before, and the lock is free again. *)
Theorem cancel_elsewhere_goes_home :
  forall O w,
    state w = IDLE ->
    lock w = false ->
    (forall l, goal_location w = Some l -> PyStr.contains "table" l = false) ->
    exists w' evs,
      sigint_handler O w = Ok tt w'
      /\ trace w' = (trace w ++ evs)%list
      /\ visits evs = ["home"]
      /\ state w' = CANCELED
      /\ is_goal_cancel w' = is_goal_cancel w
      /\ goal_location w' = goal_location w
      /\ order_queue w' = order_queue w
      /\ lock w' = false.
Proof.
  intros O w _ Hl Hg. unfold sigint_handler, signal_handler.
  exec. erewrite bind_Ok by (apply lock_acquire_free; exact Hl).
  exec.
  destruct (goal_location w) as [l|] eqn:Hgl;
    [specialize (Hg l eq_refl);
     destruct (String.eqb l "kitchen") eqn:Hk;
     [|rewrite (contains_table_false_not_table l Hg)]|];
    sym_exec.
  all: rewrite lock_release_held by reflexivity.
  all: eexists; eexists; (split; [reflexivity|]); simpl_world;
    rewrite <- ?app_assoc; cbn [app];
    (split; [reflexivity|]); (split; [vm_compute; reflexivity|]);
    repeat split; auto.
Qed.

Lemma cancel_elsewhere_goes_home_witness :
  exists w' evs,
    sigint_handler (mkOracle (fun _ => SUCCEEDED) (fun _ => None) (fun _ => 0%Z)
                             (fun _ => false) (fun _ => false))
                   (with_goal_location (Some "kitchen") initial)
    = Ok tt w'
    /\ trace w' = (trace initial ++ evs)%list
    /\ visits evs = ["home"]
    /\ state w' = CANCELED
    /\ is_goal_cancel w' = false
    /\ goal_location w' = Some "kitchen"
    /\ order_queue w' = []
    /\ lock w' = false.
Proof.
  apply (cancel_elsewhere_goes_home
           (mkOracle (fun _ => SUCCEEDED) (fun _ => None) (fun _ => 0%Z)
                     (fun _ => false) (fun _ => false))
           (with_goal_location (Some "kitchen") initial)
           eq_refl eq_refl).
  intros l H. injection H as <-. reflexivity.
Defined.

(** X2.  The robot is idle, no delivery cycle is under way, and the goal
    location still names a table (the last one the finished cycle headed
    for).  A SIGINT whose recovery goal to the kitchen does not succeed:
    the handler sends that one goal only, and the pending-cancellation flag
    it has set stays set when it returns (nothing but a later successful
    [return_to_kitchen] takes it back). *)
Theorem failed_recovery_keeps_the_flag :
  forall O w table,
    state w = IDLE ->
    lock w = false ->
    goal_location w = Some table ->
    PyStr.contains "table" table = true ->
    nav O (nav_ix w) <> SUCCEEDED ->
    exists w' evs,
      sigint_handler O w = Ok tt w'
      /\ trace w' = (trace w ++ evs)%list
      /\ visits evs = ["kitchen"]
      /\ is_goal_cancel w' = true
      /\ state w' = CANCELED
      /\ lock w' = false.
Proof.
  intros O w table _ Hl Hg Ht Hnav.
  destruct (contains_table_not_kitchen table Ht) as [Hk He].
  apply Nat.eqb_neq in Hnav.
  unfold sigint_handler, signal_handler.
  exec. erewrite bind_Ok by (apply lock_acquire_free; exact Hl).
  exec. rewrite Hg, Hk, He, Ht. sym_exec.
  all: try congruence.
  all: rewrite lock_release_held by reflexivity.
  all: eexists; eexists; (split; [reflexivity|]); simpl_world;
    rewrite <- ?app_assoc; cbn [app];
    (split; [reflexivity|]); (split; [vm_compute; reflexivity|]);
    repeat split; auto.
Qed.

Lemma failed_recovery_keeps_the_flag_witness :
  exists w' evs,
    sigint_handler (mkOracle (fun _ => 4) (fun _ => None) (fun _ => 0%Z)
                             (fun _ => false) (fun _ => false))
                   (with_goal_location (Some "table2") initial)
    = Ok tt w'
    /\ trace w' = (trace initial ++ evs)%list
    /\ visits evs = ["kitchen"]
    /\ is_goal_cancel w' = true
    /\ state w' = CANCELED
    /\ lock w' = false.
Proof.
  apply (failed_recovery_keeps_the_flag
           (mkOracle (fun _ => 4) (fun _ => None) (fun _ => 0%Z)
                     (fun _ => false) (fun _ => false))
           (with_goal_location (Some "table2") initial)
           "table2" eq_refl eq_refl eq_refl eq_refl).
  discriminate.
Defined.

(** X22.  The goal location is not reset when a cycle ends: at the idle
    robot it still names the last table headed for.  A SIGINT taken then,
    with no delivery cycle under way, goes by the route for tables: the
    handler marks the cancellation as pending and sends the robot to the
    kitchen, and when that goal succeeds it sends it home and takes the
    mark back, whatever the goal home comes to.  The state is [CANCELED]
    and the lock is free when it returns. *)
Theorem cancel_at_rest_goes_by_the_kitchen :
  forall O w table,
    state w = IDLE ->
    lock w = false ->
    goal_location w = Some table ->
    PyStr.contains "table" table = true ->
    nav O (nav_ix w) = SUCCEEDED ->
    exists w' evs,
      sigint_handler O w = Ok tt w'
      /\ trace w' = (trace w ++ evs)%list
      /\ visits evs = ["kitchen"; "home"]
      /\ is_goal_cancel w' = false
      /\ state w' = CANCELED
      /\ lock w' = false.
Proof.
  intros O w table _ Hl Hg Ht Hok.
  destruct (contains_table_not_kitchen table Ht) as [Hk He].
  unfold sigint_handler, signal_handler.
  exec. erewrite bind_Ok by (apply lock_acquire_free; exact Hl).
  exec. rewrite Hg, Hk, He, Ht. sym_exec.
  all: try (rewrite Hok in *; discriminate).
  all: rewrite lock_release_held by reflexivity.
  all: eexists; eexists; (split; [reflexivity|]); simpl_world;
    rewrite <- ?app_assoc; cbn [app];
    (split; [reflexivity|]); (split; [vm_compute; reflexivity|]);
    repeat split; reflexivity.
Qed.

Lemma cancel_at_rest_goes_by_the_kitchen_witness :
  exists w' evs,
    sigint_handler (mkOracle (fun _ => SUCCEEDED) (fun _ => None) (fun _ => 0%Z)
                             (fun _ => false) (fun _ => false))
                   (with_goal_location (Some "table2") initial)
    = Ok tt w'
    /\ trace w' = (trace initial ++ evs)%list
    /\ visits evs = ["kitchen"; "home"]
    /\ is_goal_cancel w' = false
    /\ state w' = CANCELED
    /\ lock w' = false.
Proof.
  apply (cancel_at_rest_goes_by_the_kitchen
           (mkOracle (fun _ => SUCCEEDED) (fun _ => None) (fun _ => 0%Z)
                     (fun _ => false) (fun _ => false))
           (with_goal_location (Some "table2") initial)
           "table2" eq_refl eq_refl eq_refl eq_refl).
  reflexivity.
Defined.

(** X3.  The handler keeps the lock while it waits for its recovery goal,
    and the lock is not re-entrant: a second SIGINT taken during that wait
    runs the handler again on top of the first, and that second handler
    waits for the lock for ever.  Whatever the goal location, the
    interrupted handler never returns. *)
Theorem second_sigint_deadlocks :
  forall O w, lock w = false -> interrupted_handler O w = Blocked.
Proof.
  intros O w Hl. unfold interrupted_handler, signal_handler.
  exec. erewrite bind_Ok by (apply lock_acquire_free; exact Hl).
  exec.
  assert (Hheld : forall w0, lock w0 = true -> sigint_handler O w0 = Blocked).
  { intros w0 H0. unfold sigint_handler, signal_handler. exec.
    unfold lock_acquire, bind. simpl_world. now rewrite H0. }
  destruct (goal_location w) as [l|] eqn:Hgl;
    [destruct (String.eqb l "kitchen") eqn:Hk;
     [|destruct (negb (String.eqb l "") && PyStr.contains "table" l) eqn:Ht]|];
    unfold return_to_kitchen, return_to_home, send_goal; exec;
    rewrite ?waypoint_kitchen, ?waypoint_home; exec;
    unfold bind at 1; rewrite Hheld by reflexivity; reflexivity.
Qed.

Lemma second_sigint_deadlocks_witness :
  interrupted_handler (mkOracle (fun _ => SUCCEEDED) (fun _ => None) (fun _ => 0%Z)
                                (fun _ => false) (fun _ => false))
                      (with_goal_location (Some "table1") (with_state DELIVERY initial))
  = Blocked.
Proof.
  exact (second_sigint_deadlocks
           (mkOracle (fun _ => SUCCEEDED) (fun _ => None) (fun _ => 0%Z)
                     (fun _ => false) (fun _ => false))
           (with_goal_location (Some "table1") (with_state DELIVERY initial))
           eq_refl).
Defined.

(* ===================================================================== *)
(** ** The intake loop as a whole *)
(* ===================================================================== *)

Lemma with_trace_nil w : with_trace (trace w ++ [])%list w = w.
Proof. destruct w. cbn. now rewrite app_nil_r. Qed.

Lemma intake_sleeps O hook n : forall f w,
  state w <> IDLE ->
  get_orders_from_user O hook (n + f) w
  = get_orders_from_user O hook f (with_trace (trace w ++ repeat (Sleep 1) n)%list w).
Proof.
  induction n as [|n IH]; intros f w Hs.
  - cbn [Nat.add repeat]. now rewrite with_trace_nil.
  - cbn [Nat.add get_orders_from_user]. unfold get_orders_from_user_step. exec.
    assert (Hne : robot_state_eqb (state w) IDLE = false)
      by (destruct (state w); try reflexivity; congruence).
    rewrite Hne. exec.
    rewrite IH by exact Hs. simpl_world.
    rewrite <- app_assoc. reflexivity.
Qed.

(** X4.  While the state is not [IDLE] the intake loop does nothing but
    sleep: [n] turns of it leave [n] one-second sleeps behind and nothing
    else (no prompt, no lock operation, no write), whatever else runs, and
    the loop does not come to an end by itself. *)
Theorem busy_intake_only_sleeps :
  forall O hook w,
    state w <> IDLE ->
    (forall n f,
        get_orders_from_user O hook (n + f) w
        = get_orders_from_user O hook f
            (with_trace (trace w ++ repeat (Sleep 1) n)%list w))
    /\ (forall fuel, get_orders_from_user O hook fuel w = OutOfFuel).
Proof.
  intros O hook w Hs. split.
  - intros n f. now apply intake_sleeps.
  - intros fuel. replace fuel with (fuel + 0) by lia.
    rewrite intake_sleeps by exact Hs. reflexivity.
Qed.

Lemma busy_intake_only_sleeps_witness :
  get_orders_from_user (mkOracle (fun _ => SUCCEEDED) (fun _ => Some "1") (fun _ => 0%Z)
                                 (fun _ => false) (fun _ => false))
                       undisturbed 3 (with_state CANCELED initial)
  = OutOfFuel.
Proof.
  refine (proj2 (busy_intake_only_sleeps
                   (mkOracle (fun _ => SUCCEEDED) (fun _ => Some "1") (fun _ => 0%Z)
                             (fun _ => false) (fun _ => false))
                   undisturbed (with_state CANCELED initial) _) 3).
  discriminate.
Defined.

(** X5.  "exit" typed at the intake prompt, in any letter case and with
    blanks around it, ends the intake loop: the shutdown is requested, the
    loop returns, and nothing else has happened (the lock has not been
    asked for, the queue and the state are as before). *)
Theorem exit_ends_the_intake :
  forall O f w line,
    state w = IDLE ->
    sigint O (wait_ix w) = false ->
    stdin O (stdin_ix w) = Some line ->
    PyStr.lower (PyStr.strip line) = "exit" ->
    exists w',
      get_orders_from_user O (deliver_sigint O) (S f) w = Ok tt w'
      /\ trace w'
         = (trace w
            ++ [Prompt "Enter table numbers (comma separated, or type 'exit' to quit): ";
                Shutdown "User exited"])%list
      /\ order_queue w' = order_queue w
      /\ state w' = IDLE
      /\ lock w' = lock w.
Proof.
  intros O f w line Hs Hsig Hin Hexit.
  cbn [get_orders_from_user]. unfold get_orders_from_user_step.
  exec. rewrite Hs. exec. unfold input. exec.
  erewrite bind_Ok by (apply quiet_deliver_sigint; exact Hsig).
  exec. rewrite Hin. exec. rewrite Hexit.
  change (String.eqb "exit" "exit") with true. exec.
  eexists. split; [reflexivity|]. simpl_world.
  rewrite <- !app_assoc. repeat split; auto.
Qed.

Lemma exit_ends_the_intake_witness :
  exists w',
    get_orders_from_user (mkOracle (fun _ => SUCCEEDED) (fun _ => Some " Exit ")
                                   (fun _ => 0%Z) (fun _ => false) (fun _ => false))
                         (deliver_sigint
                            (mkOracle (fun _ => SUCCEEDED) (fun _ => Some " Exit ")
                                      (fun _ => 0%Z) (fun _ => false) (fun _ => false)))
                         1 initial = Ok tt w'
    /\ trace w'
       = (trace initial
          ++ [Prompt "Enter table numbers (comma separated, or type 'exit' to quit): ";
              Shutdown "User exited"])%list
    /\ order_queue w' = []
    /\ state w' = IDLE
    /\ lock w' = false.
Proof.
  exact (exit_ends_the_intake
           (mkOracle (fun _ => SUCCEEDED) (fun _ => Some " Exit ")
                     (fun _ => 0%Z) (fun _ => false) (fun _ => false))
           0 initial " Exit " eq_refl eq_refl eq_refl eq_refl).
Defined.

(** X6.  A SIGINT taken while the idle robot waits at the intake prompt
    wedges the intake.  The handler leaves the state [CANCELED]; the batch
    typed next is still validated and queued and a cycle is started for it,
    but that cycle is rejected (the state is not [IDLE]) and nothing sets
    the state back: the orders stay in the queue, and from then on the
    intake loop only sleeps and never prompts again. *)
Theorem sigint_at_the_idle_prompt_wedges_the_intake :
  forall O fuel w line,
    state w = IDLE -> lock w = false ->
    sigint O (wait_ix w) = true ->
    stdin O (stdin_ix w) = Some line ->
    String.eqb (PyStr.lower (PyStr.strip line)) "exit" = false ->
    valid_tables_of (PyStr.split "," (PyStr.strip line)) <> [] ->
    exists w1 w2,
      intake_step O w = Ok Continue w1
      /\ state w1 = CANCELED
      /\ order_queue w1
         = (order_queue w ++ valid_tables_of (PyStr.split "," (PyStr.strip line)))%list
      /\ (exists evs, trace w1 = (trace w ++ evs ++ [StartThread T_process_order])%list)
      /\ delivery_thread O fuel w1 = Ok tt w2
      /\ trace w2 = (trace w1 ++ [Acquire; LogInfo "Robot is busy with another task";
                                  Release])%list
      /\ state w2 = CANCELED
      /\ order_queue w2 = order_queue w1
      /\ (forall n, get_orders_from_user O (deliver_sigint O) n w2 = OutOfFuel).
Proof.
  intros O fuel w line Hs Hl Hsig Hin Hexit Hv.
  unfold intake_step, get_orders_from_user_step.
  exec. rewrite Hs. exec. unfold input. exec.
  match goal with |- context [bind (deliver_sigint O) _ ?W] =>
    destruct (deliver_sigint_returns O W Hl)
      as (w0 & E & Hl0 & Hi0 & _ & Hq0 & _ & Hs0 & evs0 & Ht0 & Hv0) end.
  simpl_world_in Hi0. simpl_world_in Hq0. simpl_world_in Hs0. simpl_world_in Ht0.
  rewrite Hsig in Hs0.
  erewrite bind_Ok by exact E. exec.
  rewrite Hi0, Hin. exec. rewrite Hexit.
  erewrite bind_Ok by (apply lock_acquire_free; exact Hl0).
  destruct (valid_tables_of (PyStr.split "," (PyStr.strip line))) as [|t ts] eqn:Hvt;
    [congruence|].
  exec. erewrite bind_Ok by (apply lock_release_held; reflexivity). exec.
  match goal with |- exists w1 w2, ret Continue ?W = _ /\ _ => set (w1 := W) end.
  assert (Hl1 : lock w1 = false) by reflexivity.
  assert (Hs1 : state w1 = CANCELED) by exact Hs0.
  assert (Hbusy : exists w2,
             delivery_thread O fuel w1 = Ok tt w2
             /\ trace w2 = (trace w1 ++ [Acquire; LogInfo "Robot is busy with another task";
                                         Release])%list
             /\ state w2 = CANCELED /\ order_queue w2 = order_queue w1).
  { unfold delivery_thread, process_order.
    erewrite bind_Ok by (apply lock_acquire_free; exact Hl1).
    exec. rewrite Hs1. exec.
    rewrite lock_release_held by reflexivity.
    eexists. split; [reflexivity|]. simpl_world.
    rewrite <- !app_assoc. repeat split; auto. }
  destruct Hbusy as (w2 & E2 & Ht2 & Hs2 & Hq2).
  exists w1, w2. split; [reflexivity|]. split; [exact Hs1|].
  split; [subst w1; simpl_world; now rewrite Hq0|].
  split.
  { subst w1. simpl_world. rewrite Ht0.
    exists ([Prompt "Enter table numbers (comma separated, or type 'exit' to quit): "]
            ++ evs0
            ++ [Acquire; SetQueue (order_queue w0 ++ t :: ts);
                LogInfo ("Orders received for: " ++ PyStr.join ", " (t :: ts));
                Release])%list.
    rewrite <- !app_assoc. cbn [app]. reflexivity. }
  split; [exact E2|]. split; [exact Ht2|]. split; [exact Hs2|]. split; [exact Hq2|].
  intros n. replace n with (n + 0) by lia.
  rewrite intake_sleeps by congruence. reflexivity.
Qed.

Lemma sigint_at_the_idle_prompt_wedges_the_intake_witness :
  let O := mkOracle (fun _ => SUCCEEDED) (fun _ => Some "1") (fun _ => 0%Z)
                    (fun k => Nat.eqb k 0) (fun _ => false) in
  exists w1 w2,
    intake_step O initial = Ok Continue w1
    /\ state w1 = CANCELED
    /\ order_queue w1 = ["table1"]
    /\ (exists evs, trace w1 = (trace initial ++ evs ++ [StartThread T_process_order])%list)
    /\ delivery_thread O 3 w1 = Ok tt w2
    /\ trace w2 = (trace w1 ++ [Acquire; LogInfo "Robot is busy with another task";
                                Release])%list
    /\ state w2 = CANCELED
    /\ order_queue w2 = order_queue w1
    /\ (forall n, get_orders_from_user O (deliver_sigint O) n w2 = OutOfFuel).
Proof.
  cbv zeta.
  refine (sigint_at_the_idle_prompt_wedges_the_intake
            (mkOracle (fun _ => SUCCEEDED) (fun _ => Some "1") (fun _ => 0%Z)
                      (fun k => Nat.eqb k 0) (fun _ => false))
            3 initial "1" eq_refl eq_refl eq_refl eq_refl eq_refl _).
  vm_compute. discriminate.
Defined.

(* ===================================================================== *)
(** ** Blanks around what is typed *)
(* ===================================================================== *)

Lemma lstrip_blank_prefix pre s :
  blank pre = true -> PyStr.lstrip (pre ++ s) = PyStr.lstrip s.
Proof.
  induction pre as [|c pre IH]; cbn [blank append PyStr.lstrip]; [reflexivity|].
  intros H. apply andb_true_iff in H. destruct H as [Hc Hp].
  rewrite Hc. now apply IH.
Qed.

Lemma rstrip_blank s : blank s = true -> PyStr.rstrip s = "".
Proof.
  induction s as [|c s IH]; cbn [blank PyStr.rstrip]; [reflexivity|].
  intros H. apply andb_true_iff in H. destruct H as [Hc Hs].
  now rewrite (IH Hs), Hc.
Qed.

Lemma rstrip_blank_suffix s post :
  blank post = true -> PyStr.rstrip (s ++ post) = PyStr.rstrip s.
Proof.
  intros Hp. induction s as [|c s IH]; cbn [append PyStr.rstrip].
  - now apply rstrip_blank.
  - now rewrite IH.
Qed.

Lemma lstrip_blank s : blank s = true -> PyStr.lstrip s = "".
Proof.
  induction s as [|c s IH]; cbn [blank PyStr.lstrip]; [reflexivity|].
  intros H. apply andb_true_iff in H. destruct H as [Hc Hs].
  rewrite Hc. now apply IH.
Qed.

Lemma lstrip_suffix s post :
  blank s = false -> PyStr.lstrip (s ++ post) = PyStr.lstrip s ++ post.
Proof.
  induction s as [|c s IH]; cbn [blank append PyStr.lstrip]; [discriminate|].
  destruct (PyStr.is_space c); cbn [andb]; [exact IH | reflexivity].
Qed.

Lemma strip_padded pre e post :
  blank pre = true -> blank post = true ->
  PyStr.strip (pre ++ e ++ post) = PyStr.strip e.
Proof.
  intros Hpre Hpost. unfold PyStr.strip.
  rewrite lstrip_blank_prefix by exact Hpre.
  destruct (blank e) eqn:He.
  - rewrite (lstrip_blank e He).
    assert (H : blank (e ++ post) = true).
    { clear Hpre. induction e as [|c e IH]; cbn [blank append] in *; [exact Hpost|].
      apply andb_true_iff in He. destruct He as [Hc He]. rewrite Hc. now apply IH. }
    now rewrite (lstrip_blank _ H).
  - rewrite lstrip_suffix by exact He. now apply rstrip_blank_suffix.
Qed.

Lemma rstrip_idempotent s : PyStr.rstrip (PyStr.rstrip s) = PyStr.rstrip s.
Proof.
  induction s as [|c s IH]; [reflexivity|].
  cbn [PyStr.rstrip].
  destruct (PyStr.rstrip s) as [|d r] eqn:E.
  - destruct (PyStr.is_space c) eqn:Hc; [reflexivity|].
    cbn [PyStr.rstrip]. now rewrite Hc.
  - cbn [PyStr.rstrip] in *. rewrite IH. reflexivity.
Qed.

Lemma rstrip_head c r :
  PyStr.is_space c = false -> exists r', PyStr.rstrip (String c r) = String c r'.
Proof.
  intros Hc. cbn [PyStr.rstrip].
  destruct (PyStr.rstrip r); [rewrite Hc|]; eexists; reflexivity.
Qed.

Lemma lstrip_head s :
  PyStr.lstrip s = "" \/ exists c r, PyStr.lstrip s = String c r /\ PyStr.is_space c = false.
Proof.
  induction s as [|c s IH]; [now left|].
  cbn [PyStr.lstrip]. destruct (PyStr.is_space c) eqn:Hc; [exact IH|].
  right. exists c, s. now split.
Qed.

Lemma strip_idempotent s : PyStr.strip (PyStr.strip s) = PyStr.strip s.
Proof.
  unfold PyStr.strip.
  destruct (lstrip_head s) as [E|(c & r & E & Hc)]; rewrite E; [reflexivity|].
  destruct (rstrip_head c r Hc) as (r' & E').
  assert (Hl : PyStr.lstrip (PyStr.rstrip (String c r)) = PyStr.rstrip (String c r)).
  { rewrite E'. cbn [PyStr.lstrip]. now rewrite Hc. }
  rewrite Hl. apply rstrip_idempotent.
Qed.

(** X7.  Every entry of a batch is read without the white space around
    it: padding an entry with blanks changes neither what the intake
    accepts nor what [add_tables] accepts.  The same holds for an answer at
    the confirmation prompt; and since [timed_input] has stripped the line
    already, the second [strip] of the gate changes nothing. *)
Theorem blanks_around_an_entry_are_ignored :
  forall pre e post,
    blank pre = true -> blank post = true ->
    PyStr.strip (pre ++ e ++ post) = PyStr.strip e
    /\ (forall before after,
          valid_tables_of (before ++ (pre ++ e ++ post)%string :: after)%list
          = valid_tables_of (before ++ e :: after)%list)
    /\ (forall queue before after,
          addable_tables_of queue (before ++ (pre ++ e ++ post)%string :: after)%list
          = addable_tables_of queue (before ++ e :: after)%list)
    /\ answer_of (pre ++ e ++ post) = answer_of e
    /\ answer_of e = PyStr.lower (PyStr.strip e).
Proof.
  intros pre e post Hpre Hpost.
  pose proof (strip_padded pre e post Hpre Hpost) as Hs.
  split; [exact Hs|]. split; [|split; [|split]].
  - intros before after. rewrite !valid_tables_of_app.
    cbn [valid_tables_of]. now rewrite Hs.
  - intros queue before after. rewrite !addable_tables_of_app.
    cbn [addable_tables_of]. now rewrite Hs.
  - unfold answer_of. now rewrite Hs.
  - unfold answer_of. now rewrite strip_idempotent.
Qed.

Lemma blanks_around_an_entry_are_ignored_witness :
  PyStr.strip "  2 " = PyStr.strip "2"
  /\ valid_tables_of ["1"; "  2 "; "7"] = valid_tables_of ["1"; "2"; "7"]
  /\ answer_of "  2 " = answer_of "2".
Proof.
  destruct (blanks_around_an_entry_are_ignored "  " "2" " " eq_refl eq_refl)
    as (H1 & H2 & _ & H4 & _).
  split; [exact H1|]. split; [exact (H2 ["1"] ["7"]) | exact H4].
Defined.

(* ===================================================================== *)
(** ** Goals and the registry *)
(* ===================================================================== *)

(** X8.  [send_goal], when nothing else runs while it waits: it makes a
    fresh client, sends one goal (frame "map", stamped with the clock, at
    the pose asked for), and reports success exactly when the terminal
    status of that goal is [SUCCEEDED]; any other status is a failure,
    logged with its number.  It touches neither the state nor the queue
    nor the goal location nor the lock. *)
Theorem send_goal_reports_the_terminal_status :
  forall O fuel p w,
    sigint O (wait_ix w) = false -> listener_pending w = false ->
    exists w',
      send_goal O (while_delivery_waits O fuel) p w
      = Ok (Nat.eqb (nav O (nav_ix w)) SUCCEEDED) w'
      /\ trace w'
         = (trace w
            ++ [SendGoal (mkGoal "map" (clock O (clock_ix w)) p);
                GoalDone p (nav O (nav_ix w));
                LogInfo (if Nat.eqb (nav O (nav_ix w)) SUCCEEDED
                         then "Goal reached successfully"
                         else "Failed to reach goal with state: "
                              ++ str_of_nat (nav O (nav_ix w)))])%list
      /\ client w' = S (client w)
      /\ client_status w' = nav O (nav_ix w)
      /\ nav_ix w' = S (nav_ix w)
      /\ state w' = state w
      /\ order_queue w' = order_queue w
      /\ goal_location w' = goal_location w
      /\ lock w' = lock w.
Proof.
  intros O fuel p w Hsig Hp.
  unfold send_goal. exec.
  erewrite bind_Ok by (apply quiet_wait; [exact Hsig | exact Hp]).
  exec. rewrite Nat.eqb_refl.
  destruct (Nat.eqb (nav O (nav_ix w)) SUCCEEDED); exec;
    (eexists; split; [reflexivity|]); simpl_world;
    rewrite <- !app_assoc; repeat split; reflexivity.
Qed.

Lemma send_goal_reports_the_terminal_status_witness :
  let O := mkOracle (fun _ => 4) (fun _ => None) (fun _ => 7%Z)
                    (fun _ => false) (fun _ => false) in
  exists w',
    send_goal O (while_delivery_waits O 1) (pose_of "table1") initial = Ok false w'
    /\ trace w'
       = (trace initial
          ++ [SendGoal (mkGoal "map" 7%Z (pose_of "table1"));
              GoalDone (pose_of "table1") 4;
              LogInfo "Failed to reach goal with state: 4"])%list
    /\ client w' = 1
    /\ client_status w' = 4
    /\ nav_ix w' = 1
    /\ state w' = IDLE
    /\ order_queue w' = []
    /\ goal_location w' = None
    /\ lock w' = false.
Proof.
  cbv zeta.
  exact (send_goal_reports_the_terminal_status
           (mkOracle (fun _ => 4) (fun _ => None) (fun _ => 7%Z)
                     (fun _ => false) (fun _ => false))
           1 (pose_of "table1") initial eq_refl eq_refl).
Defined.

(** X9.  The drain looks its destination up in the registry without a
    guard: with a name at the head of the queue that is no key of
    [WAYPOINTS], [move_to_table] raises [KeyError] before any goal is sent,
    and the drain (hence the cycle thread) ends with that exception. *)
Theorem unknown_table_kills_the_drain :
  forall O on_wait f w t rest,
    order_queue w = t :: rest ->
    state w <> CANCELED ->
    in_WAYPOINTS t = false ->
    serve_queue O on_wait (S f) w = Raised "KeyError"
    /\ move_to_table O on_wait t w = Raised "KeyError".
Proof.
  intros O on_wait f w t rest Hq Hs Hk.
  assert (Hw : waypoint t = raise "KeyError").
  { unfold waypoint. unfold in_WAYPOINTS in Hk.
    destruct (assoc t WAYPOINTS); [discriminate | reflexivity]. }
  assert (Hne : robot_state_eqb (state w) CANCELED = false)
    by (destruct (state w); try reflexivity; congruence).
  split.
  - cbn [serve_queue]. exec. rewrite Hq. exec. rewrite Hne.
    unfold move_to_table. exec. rewrite Hw. reflexivity.
  - unfold move_to_table. exec. rewrite Hw. reflexivity.
Qed.

Lemma unknown_table_kills_the_drain_witness :
  let O := mkOracle (fun _ => SUCCEEDED) (fun _ => None) (fun _ => 0%Z)
                    (fun _ => false) (fun _ => false) in
  let w := with_order_queue ["table9"; "table1"] (with_state DELIVERY initial) in
  serve_queue O undisturbed 1 w = Raised "KeyError"
  /\ move_to_table O undisturbed "table9" w = Raised "KeyError".
Proof.
  cbv zeta.
  refine (unknown_table_kills_the_drain
            (mkOracle (fun _ => SUCCEEDED) (fun _ => None) (fun _ => 0%Z)
                      (fun _ => false) (fun _ => false))
            undisturbed 0
            (with_order_queue ["table9"; "table1"] (with_state DELIVERY initial))
            "table9" ["table1"] eq_refl _ eq_refl).
  discriminate.
Defined.

(* ===================================================================== *)
(** ** The modification thread, the other answers *)
(* ===================================================================== *)

Lemma subsequence_refl l : subsequence l l.
Proof. induction l; [apply sub_nil | now apply sub_take]. Qed.

Lemma subsequence_trans a b c : subsequence a b -> subsequence b c -> subsequence a c.
Proof.
  intros Hab Hbc. revert a Hab.
  induction Hbc as [|x s l _ IH|x s l _ IH]; intros a Hab.
  - exact Hab.
  - apply sub_skip. now apply IH.
  - inversion Hab; subst.
    + apply sub_skip. now apply IH.
    + apply sub_take. now apply IH.
Qed.

Lemma remove_first_subsequence x l : subsequence (PyStr.remove_first x l) l.
Proof.
  induction l as [|y l IH]; cbn [PyStr.remove_first]; [apply sub_nil|].
  destruct (String.eqb x y).
  - apply sub_skip, subsequence_refl.
  - now apply sub_take.
Qed.

Lemma count_occ_remove_first x l t :
  PyStr.mem x l = true ->
  count_occ string_dec (PyStr.remove_first x l) t
  = count_occ string_dec l t - (if string_dec x t then 1 else 0).
Proof.
  induction l as [|y l IH]; cbn [PyStr.mem PyStr.remove_first]; [discriminate|].
  intros H. destruct (String.eqb_spec x y) as [->|Hxy].
  - cbn [count_occ]. destruct (string_dec y t); lia.
  - cbn [orb] in H. cbn [count_occ]. rewrite (IH H).
    destruct (string_dec y t) as [->|]; [|reflexivity].
    destruct (string_dec x t); [congruence | lia].
Qed.

Lemma count_occ_not_mem x l : PyStr.mem x l = false -> count_occ string_dec l x = 0.
Proof.
  intros H. apply count_occ_not_In. rewrite <- mem_In. congruence.
Qed.

Lemma remove_all_spec ts : forall q,
  subsequence (remove_all ts q) q
  /\ forall t, count_occ string_dec (remove_all ts q) t
               = count_occ string_dec q t - count_occ string_dec ts t.
Proof.
  induction ts as [|x ts IH]; intros q; cbn [remove_all].
  - split; [apply subsequence_refl|]. intros t. cbn [count_occ]. lia.
  - destruct (PyStr.mem x q) eqn:Hm.
    + destruct (IH (PyStr.remove_first x q)) as [Hs Hc]. split.
      * eapply subsequence_trans; [exact Hs | apply remove_first_subsequence].
      * intros t. rewrite Hc, (count_occ_remove_first x q t Hm).
        cbn [count_occ]. destruct (string_dec x t); lia.
    + destruct (IH q) as [Hs Hc]. split; [exact Hs|].
      intros t. rewrite Hc. cbn [count_occ].
      destruct (string_dec x t) as [<-|]; [|reflexivity].
      rewrite (count_occ_not_mem x q Hm). lia.
Qed.

Lemma remove_first_earliest x l :
  PyStr.mem x l = true ->
  exists q1 q2,
    l = (q1 ++ x :: q2)%list /\ ~ In x q1 /\ PyStr.remove_first x l = (q1 ++ q2)%list.
Proof.
  induction l as [|y l IH]; cbn [PyStr.mem PyStr.remove_first]; [discriminate|].
  intros H. destruct (String.eqb_spec x y) as [->|Hxy].
  - exists [], l. repeat split. intros [].
  - cbn [orb] in H. destruct (IH H) as (q1 & q2 & -> & Hn & ->).
    exists (y :: q1), q2. repeat split.
    intros [E|Hin]; [congruence | contradiction].
Qed.

Lemma remove_all_taken_out ts : forall q, taken_out ts q (remove_all ts q).
Proof.
  induction ts as [|t ts IH]; intros q; cbn [remove_all]; [apply out_done|].
  destruct (PyStr.mem t q) eqn:Hm.
  - destruct (remove_first_earliest t q Hm) as (q1 & q2 & -> & Hn & E).
    rewrite E. apply out_earliest; [exact Hn | apply IH].
  - apply out_absent; [|apply IH].
    rewrite <- mem_In. congruence.
Qed.

Lemma removal_events_cancel_nothing ts : forall q, ~ In CancelGoal (removal_events ts q).
Proof.
  induction ts as [|t ts IH]; intros q; cbn [removal_events]; [intros []|].
  destruct (PyStr.mem t q); [|apply IH].
  intros [H|[H|H]]; try discriminate. exact (IH _ H).
Qed.

(** X10.  The removal loop deals with the mentions in turn: a mention of a
    table that is queued takes its earliest occurrence out of the queue, a
    mention of a table that is not queued (any more) changes nothing.  So
    of every table the queue holds afterwards as many occurrences as before
    less the number of its mentions (none, if it was mentioned more often
    than it was queued), and what stays keeps its order.  The loop always
    returns; it writes no state and sends no goal. *)
Theorem removal_takes_one_occurrence_per_mention :
  forall tables_to_remove w,
  exists w' evs,
    remove_tables tables_to_remove w = Ok tt w'
    /\ taken_out tables_to_remove (order_queue w) (order_queue w')
    /\ subsequence (order_queue w') (order_queue w)
    /\ (forall t, count_occ string_dec (order_queue w') t
                  = count_occ string_dec (order_queue w) t
                    - count_occ string_dec tables_to_remove t)
    /\ trace w' = (trace w ++ evs)%list
    /\ goals_sent evs = []
    /\ state_writes evs = []
    /\ state w' = state w.
Proof.
  intros ts w. rewrite remove_tables_run.
  eexists; eexists. split; [reflexivity|]. simpl_world.
  split; [apply remove_all_taken_out|].
  destruct (remove_all_spec ts (order_queue w)) as [Hs Hc].
  split; [exact Hs|]. split; [exact Hc|]. split; [reflexivity|].
  destruct (removal_events_quiet ts (order_queue w)) as [Hg Hw].
  repeat split; assumption.
Qed.

Lemma quiet_listener_leaves O f w :
  state w = DELIVERY ->
  sigint O (wait_ix w) = false ->
  leaves_the_prompt (stdin O (stdin_ix w)) = true ->
  exists evs,
    goals_sent evs = [] /\ state_writes evs = []
    /\ listener_thread O (S f) w
       = Ok tt (mkWorld (state w) (goal_location w) (order_queue w) (lock w)
                        (is_goal_cancel w) (client w) (client_status w)
                        (listener_pending w) (nav_ix w) (S (stdin_ix w)) (clock_ix w)
                        (S (wait_ix w)) (trace w ++ evs)%list).
Proof.
  intros Hs Hsig Hleave.
  assert (Hd : robot_state_eqb (state w) DELIVERY = true) by now rewrite Hs.
  unfold listener_thread. cbn [modify_orders_while_moving]. exec.
  rewrite Hd. exec. unfold select_line. exec.
  erewrite bind_Ok by (apply quiet_deliver_sigint; exact Hsig).
  exec. unfold leaves_the_prompt in Hleave.
  destruct (stdin O (stdin_ix w)) as [line|]; exec; rewrite ?Hleave; exec.
  all: unfold loginfo, emit; simpl_world.
  all: eexists; (split; [shelve|]); (split; [shelve|]).
  all: rewrite <- !app_assoc; reflexivity.
  Unshelve. all: reflexivity.
Qed.

(** X11.  The modification thread asks again after every line that is no
    command, and after "remove" followed by names none of which is queued.
    When, after any number of such turns, its prompt is left unanswered for
    the eight seconds or answered "none", the thread ends, and it has
    changed nothing: no goal was sent, the queue, the state and the lock
    are as they were. *)
Theorem unused_modification_prompt_changes_nothing :
  forall O n fuel w si wi,
    n < fuel ->
    state w = DELIVERY ->
    idle_prompts O (order_queue w) n (stdin_ix w, wait_ix w) = Some (si, wi) ->
    sigint O wi = false ->
    leaves_the_prompt (stdin O si) = true ->
    exists w' evs,
      listener_thread O fuel w = Ok tt w'
      /\ trace w' = (trace w ++ evs)%list
      /\ goals_sent evs = []
      /\ order_queue w' = order_queue w
      /\ state w' = DELIVERY
      /\ lock w' = lock w
      /\ stdin_ix w' = S si.
Proof.
  intros O n fuel w si wi Hfuel Hs Hturns Hsig Hleave.
  replace fuel with (n + S (fuel - S n)) by lia.
  destruct (idle_prompt_turns O n (S (fuel - S n)) w (si, wi) Hs Hturns)
    as (evs & Hg & E).
  rewrite E. clear E.
  destruct (quiet_listener_leaves O (fuel - S n) (after_prompts (si, wi) evs w))
    as (evs' & Hg' & _ & E'); auto.
  rewrite E'. unfold after_prompts. simpl_world.
  eexists; exists (evs ++ evs')%list. split; [reflexivity|]. simpl_world.
  rewrite app_assoc, goals_sent_app, Hg, Hg'.
  repeat split; auto.
Qed.

Lemma unused_modification_prompt_changes_nothing_witness :
  let O := mkOracle (fun _ => SUCCEEDED)
                    (fun k => match k with 0 => Some "what?" | _ => None end)
                    (fun _ => 0%Z) (fun _ => false) (fun _ => false) in
  exists w' evs,
    listener_thread O 2 (with_state DELIVERY initial) = Ok tt w'
    /\ trace w' = (trace initial ++ evs)%list
    /\ goals_sent evs = []
    /\ order_queue w' = []
    /\ state w' = DELIVERY
    /\ lock w' = false
    /\ stdin_ix w' = 2.
Proof.
  cbv zeta.
  refine (unused_modification_prompt_changes_nothing
            (mkOracle (fun _ => SUCCEEDED)
                      (fun k => match k with 0 => Some "what?" | _ => None end)
                      (fun _ => 0%Z) (fun _ => false) (fun _ => false))
            1 2 (with_state DELIVERY initial) 1 1 _ eq_refl eq_refl eq_refl eq_refl).
  lia.
Defined.

Lemma removable_head_is_queued q l t ts :
  removable_tables_of q l = t :: ts -> PyStr.mem t q = true.
Proof.
  induction l as [|x l IH]; cbn [removable_tables_of]; [discriminate|].
  destruct (PyStr.mem ("table" ++ PyStr.strip x) q) eqn:E; [|exact IH].
  intros H. injection H as <- _. exact E.
Qed.

Lemma lock_ops_removal_events ts : forall q, lock_ops (removal_events ts q) = [].
Proof.
  induction ts as [|t ts IH]; intros q; [reflexivity|].
  cbn [removal_events]. destruct (PyStr.mem t q); cbn [lock_ops filter]; apply IH.
Qed.

(** X12.  "remove" answered at the modification prompt, with names of
    which at least one is queued and which leave something in the queue
    (some table is queued more often than it is named): for each mention
    the thread takes the earliest occurrence of the table out of the
    queue, it keeps the order of the rest, and ends.  It cancels no goal,
    sends none and writes no state, so the cycle goes on; and it writes
    the queue without ever taking the lock. *)
Theorem partial_removal_is_made_without_the_lock :
  forall O f w l1 l2,
    state w = DELIVERY ->
    sigint O (wait_ix w) = false -> sigint O (S (wait_ix w)) = false ->
    stdin O (stdin_ix w) = Some l1 ->
    PyStr.lower (PyStr.strip l1) = "remove" ->
    stdin O (S (stdin_ix w)) = Some l2 ->
    removable_tables_of (order_queue w) (PyStr.split "," (PyStr.strip l2)) <> [] ->
    (exists t,
        count_occ string_dec
          (removable_tables_of (order_queue w) (PyStr.split "," (PyStr.strip l2))) t
        < count_occ string_dec (order_queue w) t) ->
    exists w' evs,
      listener_thread O (S f) w = Ok tt w'
      /\ trace w' = (trace w ++ evs)%list
      /\ order_queue w' <> []
      /\ taken_out (removable_tables_of (order_queue w) (PyStr.split "," (PyStr.strip l2)))
                   (order_queue w) (order_queue w')
      /\ subsequence (order_queue w') (order_queue w)
      /\ (forall t,
             count_occ string_dec (order_queue w') t
             = count_occ string_dec (order_queue w) t
               - count_occ string_dec
                   (removable_tables_of (order_queue w)
                      (PyStr.split "," (PyStr.strip l2))) t)
      /\ state w' = DELIVERY
      /\ ~ In CancelGoal evs
      /\ goals_sent evs = []
      /\ state_writes evs = []
      /\ lock_ops evs = []
      /\ writes_under_lock false evs = false.
Proof.
  intros O f w l1 l2 Hs Hsig1 Hsig2 Hin1 Hrm Hin2 Hne Hsome.
  assert (Hd : robot_state_eqb (state w) DELIVERY = true) by now rewrite Hs.
  unfold listener_thread. cbn [modify_orders_while_moving]. exec.
  rewrite Hd. exec. unfold select_line. exec.
  erewrite bind_Ok by (apply quiet_deliver_sigint; exact Hsig1).
  exec. rewrite Hin1. exec. rewrite Hrm.
  change (String.eqb "remove" "none") with false.
  change (String.eqb "remove" "add") with false.
  change (String.eqb "remove" "remove") with true.
  exec. unfold input. exec.
  erewrite bind_Ok by (apply quiet_deliver_sigint; exact Hsig2).
  exec. rewrite Hin2. exec.
  destruct (remove_all_spec
              (removable_tables_of (order_queue w) (PyStr.split "," (PyStr.strip l2)))
              (order_queue w)) as [Hsub Hcount].
  pose proof (remove_all_taken_out
                (removable_tables_of (order_queue w) (PyStr.split "," (PyStr.strip l2)))
                (order_queue w)) as Hout.
  destruct (removable_tables_of (order_queue w) (PyStr.split "," (PyStr.strip l2)))
    as [|t ts] eqn:Hts; [congruence|].
  pose proof (removable_head_is_queued _ _ _ _ Hts) as Hmem.
  erewrite bind_Ok by apply remove_tables_run. exec.
  assert (Hleft : remove_all (t :: ts) (order_queue w) <> []).
  { destruct Hsome as (x & Hx). intros Hnil.
    specialize (Hcount x). rewrite Hnil in Hcount. cbn [count_occ] in Hcount.
    cbn [count_occ] in Hx. lia. }
  destruct (remove_all (t :: ts) (order_queue w)) as [|r rs] eqn:Hall; [congruence|].
  exec.
  eexists; eexists. split; [reflexivity|]. simpl_world.
  rewrite <- !app_assoc. cbn [app].
  split; [reflexivity|]. split; [discriminate|].
  split; [exact Hout|].
  split; [exact Hsub|]. split; [exact Hcount|]. split; [exact Hs|].
  split.
  { intros [H|[H|H]]; try discriminate.
    exact (removal_events_cancel_nothing (t :: ts) (order_queue w) H). }
  destruct (removal_events_quiet (t :: ts) (order_queue w)) as [Hg Hw].
  split; [exact Hg|]. split; [exact Hw|].
  split; [apply (lock_ops_removal_events (t :: ts))|].
  cbn [removal_events]. rewrite Hmem. reflexivity.
Qed.

Lemma partial_removal_is_made_without_the_lock_witness :
  let O := mkOracle (fun _ => SUCCEEDED)
                    (fun k => match k with 0 => Some "remove" | _ => Some "1" end)
                    (fun _ => 0%Z) (fun _ => false) (fun _ => false) in
  let w := with_order_queue ["table1"; "table2"; "table1"] (with_state DELIVERY initial) in
  exists w' evs,
    listener_thread O 1 w = Ok tt w'
    /\ trace w' = (trace w ++ evs)%list
    /\ order_queue w' <> []
    /\ taken_out ["table1"] ["table1"; "table2"; "table1"] (order_queue w')
    /\ subsequence (order_queue w') ["table1"; "table2"; "table1"]
    /\ (forall t,
           count_occ string_dec (order_queue w') t
           = count_occ string_dec ["table1"; "table2"; "table1"] t
             - count_occ string_dec ["table1"] t)
    /\ state w' = DELIVERY
    /\ ~ In CancelGoal evs
    /\ goals_sent evs = []
    /\ state_writes evs = []
    /\ lock_ops evs = []
    /\ writes_under_lock false evs = false.
Proof.
  cbv zeta.
  refine (partial_removal_is_made_without_the_lock
            (mkOracle (fun _ => SUCCEEDED)
                      (fun k => match k with 0 => Some "remove" | _ => Some "1" end)
                      (fun _ => 0%Z) (fun _ => false) (fun _ => false))
            0 (with_order_queue ["table1"; "table2"; "table1"] (with_state DELIVERY initial))
            "remove" "1" eq_refl eq_refl eq_refl eq_refl eq_refl eq_refl _ _).
  - vm_compute. discriminate.
  - exists "table2". vm_compute. lia.
Defined.

(* ===================================================================== *)
(** ** The confirmation gate, answered *)
(* ===================================================================== *)

(** The gate after [n] attempts that brought no answer, with nothing else
    running: it stands before its next look at the clock. *)
Lemma gate_after_unanswered_attempts O fuel f n location w :
  listener_pending w = false ->
  state w <> CANCELED ->
  (forall k, sigint O k = false) ->
  (forall i, i < n ->
     (clock O (i + S (clock_ix w)) - clock O (clock_ix w) < CONFIRM_TIMEOUT)%Z
     /\ is_answer (stdin O (i + stdin_ix w)) = false) ->
  exists evs,
    goals_sent evs = [] /\ state_writes evs = []
    /\ wait_for_confirmation O (while_delivery_waits O fuel) (n + S f) location w
       = (x <- confirmation_loop O (while_delivery_waits O fuel) (S f) location
                 (clock O (clock_ix w)) ;;
          match x with
          | Returned answer => ret answer
          | Fell confirmed input_received =>
              if negb input_received
              then
                if PyStr.contains "table" location
                then loginfo ("No confirmation received at " ++ location ++ " within timeout") ;;
                     loginfo "Returning to kitchen and home due to lack of confirmation" ;;
                     return_to_kitchen O (while_delivery_waits O fuel) ;;
                     return_to_home O (while_delivery_waits O fuel) ;;
                     ret false
                else loginfo ("No confirmation received at " ++ location ++ " within timeout") ;;
                     loginfo "Returning to home due to lack of confirmation" ;;
                     return_to_home O (while_delivery_waits O fuel) ;;
                     ret false
              else ret confirmed
          end)
           (mkWorld (state w) (Some location) (order_queue w) (lock w) (is_goal_cancel w)
                    (client w) (client_status w) (listener_pending w)
                    (nav_ix w) (n + stdin_ix w) (n + S (clock_ix w)) (n + wait_ix w)
                    (trace w ++ evs)%list).
Proof.
  intros Hp Hs Hquiet Hq.
  destruct (unanswered_attempts O fuel location (clock O (clock_ix w)) n (S f)
              (mkWorld (state w) (Some location) (order_queue w) (lock w) (is_goal_cancel w)
                 (client w) (client_status w) (listener_pending w)
                 (nav_ix w) (stdin_ix w) (S (clock_ix w)) (wait_ix w)
                 (trace w ++ [LogInfo ("Waiting for confirmation at " ++ location ++ "..")])%list))
    as (evs & Hg & Hw & E).
  - exact Hp.
  - exact Hs.
  - intros i Hi. simpl_world. destruct (Hq i Hi) as [Hc Ha].
    split; [apply Hquiet|]. split; assumption.
  - exists ([LogInfo ("Waiting for confirmation at " ++ location ++ "..")] ++ evs)%list.
    split; [exact Hg|]. split; [exact Hw|].
    unfold wait_for_confirmation. exec.
    unfold bind at 1. rewrite E. unfold after_attempts. simpl_world.
    rewrite <- app_assoc. reflexivity.
Qed.

(** X13.  Let the gate make [n] attempts inside the window that bring no
    yes and no no, with no cancellation and no other thread acting.  If
    the next attempt, still inside the window, brings "yes" (in any letter
    case, with blanks around it), the gate reports the stop as confirmed.
    It has sent no goal and written no state; the goal location is the
    place confirmed, and one console line per attempt has been used up. *)
Theorem gate_confirms_on_yes :
  forall O fuel f n location w line,
    listener_pending w = false ->
    state w <> CANCELED ->
    (forall k, sigint O k = false) ->
    (forall i, i < n ->
       (clock O (i + S (clock_ix w)) - clock O (clock_ix w) < CONFIRM_TIMEOUT)%Z
       /\ is_answer (stdin O (i + stdin_ix w)) = false) ->
    (clock O (n + S (clock_ix w)) - clock O (clock_ix w) < CONFIRM_TIMEOUT)%Z ->
    stdin O (n + stdin_ix w) = Some line ->
    answer_of line = "yes" ->
    exists w' evs,
      wait_for_confirmation O (while_delivery_waits O fuel) (n + S f) location w
      = Ok true w'
      /\ trace w' = (trace w ++ evs)%list
      /\ goals_sent evs = []
      /\ state_writes evs = []
      /\ state w' = state w
      /\ goal_location w' = Some location
      /\ order_queue w' = order_queue w
      /\ stdin_ix w' = S (n + stdin_ix w).
Proof.
  intros O fuel f n location w line Hp Hs Hquiet Hq Hin Hline Hyes.
  destruct (gate_after_unanswered_attempts O fuel f n location w Hp Hs Hquiet Hq)
    as (evs & Hg & Hw & E).
  rewrite E. clear E.
  cbn [confirmation_loop]. exec.
  rewrite (proj2 (Z.ltb_lt _ _) Hin).
  unfold timed_input, select_line. exec.
  erewrite bind_Ok by (apply quiet_wait; [apply Hquiet | exact Hp]).
  exec. rewrite Hline. exec.
  unfold answer_of in Hyes. rewrite Hyes.
  change (String.eqb "yes" "yes") with true. exec.
  eexists; eexists. split; [reflexivity|]. simpl_world.
  rewrite <- !app_assoc. split; [reflexivity|].
  rewrite !goals_sent_app, !state_writes_app, Hg, Hw.
  repeat split; reflexivity.
Qed.

Lemma gate_confirms_on_yes_witness :
  let O := mkOracle (fun _ => SUCCEEDED)
                    (fun k => match k with 0 => Some "maybe" | _ => Some " Yes " end)
                    (fun k => Z.of_nat k) (fun _ => false) (fun _ => false) in
  exists w' evs,
    wait_for_confirmation O (while_delivery_waits O 1) (1 + 1) "table1"
                          (with_state DELIVERY initial) = Ok true w'
    /\ trace w' = (trace initial ++ evs)%list
    /\ goals_sent evs = []
    /\ state_writes evs = []
    /\ state w' = DELIVERY
    /\ goal_location w' = Some "table1"
    /\ order_queue w' = []
    /\ stdin_ix w' = 2.
Proof.
  cbv zeta.
  refine (gate_confirms_on_yes
            (mkOracle (fun _ => SUCCEEDED)
                      (fun k => match k with 0 => Some "maybe" | _ => Some " Yes " end)
                      (fun k => Z.of_nat k) (fun _ => false) (fun _ => false))
            1 0 1 "table1" (with_state DELIVERY initial) " Yes "
            eq_refl _ (fun _ => eq_refl) _ eq_refl eq_refl eq_refl).
  - discriminate.
  - intros i Hi. destruct i as [|i]; [split; reflexivity | lia].
Defined.

(* ===================================================================== *)
(** ** What a run leaves untouched *)
(* ===================================================================== *)

Lemma state_untouched_refl w : state_untouched w w.
Proof. repeat split. exists []. now rewrite app_nil_r. Qed.

Lemma state_untouched_trans w1 w2 w3 :
  state_untouched w1 w2 -> state_untouched w2 w3 -> state_untouched w1 w3.
Proof.
  intros (s1 & p1 & e1 & t1 & v1) (s2 & p2 & e2 & t2 & v2).
  split; [congruence|]. split; [congruence|].
  exists (e1 ++ e2)%list. split.
  - now rewrite t2, t1, app_assoc.
  - now rewrite state_writes_app, v1, v2.
Qed.

Create HintDb keeps.

Section KeepFacts.

Variable R : World -> World -> Prop.
Hypothesis R_refl : forall w, R w w.
Hypothesis R_trans : forall w1 w2 w3, R w1 w2 -> R w2 w3 -> R w1 w3.
Hypothesis R_quiet : forall w w', state_untouched w w' -> R w w'.

Lemma keeps_ret {A} (a : A) : keeps R (ret a).
Proof. intros w a' w' E. injection E as _ <-. apply R_refl. Qed.

Lemma keeps_bind {A B} (m : M A) (k : A -> M B) :
  keeps R m -> (forall a, keeps R (k a)) -> keeps R (bind m k).
Proof.
  intros Hm Hk w b w' E. unfold bind in E.
  destruct (m w) as [a w1| | |] eqn:E1; try discriminate.
  eapply R_trans; [eapply Hm | eapply Hk]; eassumption.
Qed.

Lemma keeps_fails {A} (m : M A) : (forall w a w', m w <> Ok a w') -> keeps R m.
Proof. intros H w a w' E. now destruct (H w a w'). Qed.

(** A call that touches neither the state nor the pending thread, and
    leaves no state write behind. *)
Lemma keeps_quiet {A} (m : M A) :
  (forall w a w', m w = Ok a w' -> state_untouched w w') -> keeps R m.
Proof. intros H w a w' E. apply R_quiet. eapply H, E. Qed.

Lemma keeps_emit e : state_writes [e] = [] -> keeps R (emit e).
Proof.
  intros H. apply keeps_quiet. intros w a w' E. injection E as _ <-.
  repeat split. now exists [e].
Qed.

Lemma keeps_loginfo msg : keeps R (loginfo msg).
Proof. now apply keeps_emit. Qed.

Lemma keeps_logerr msg : keeps R (logerr msg).
Proof. now apply keeps_emit. Qed.

Lemma keeps_cancel_goal : keeps R cancel_goal.
Proof. now apply keeps_emit. Qed.

Ltac quiet_prim evs :=
  apply keeps_quiet; intros w a w' E;
  try (unfold lock_acquire, lock_release, waypoint in E;
       match type of E with
       | context [if ?c then _ else _] => destruct c
       | context [match ?c with _ => _ end] => destruct c
       end; try discriminate);
  injection E as _ <-;
  repeat split; exists evs; cbn; rewrite ?app_nil_r; split; reflexivity.

Lemma keeps_read_state : keeps R read_state.
Proof. quiet_prim (@nil event). Qed.
Lemma keeps_read_queue : keeps R read_queue.
Proof. quiet_prim (@nil event). Qed.
Lemma keeps_write_queue q : keeps R (write_queue q).
Proof. quiet_prim [SetQueue q]. Qed.
Lemma keeps_read_goal_location : keeps R read_goal_location.
Proof. quiet_prim (@nil event). Qed.
Lemma keeps_write_goal_location l : keeps R (write_goal_location l).
Proof. quiet_prim (@nil event). Qed.
Lemma keeps_read_is_goal_cancel : keeps R read_is_goal_cancel.
Proof. quiet_prim (@nil event). Qed.
Lemma keeps_write_is_goal_cancel b : keeps R (write_is_goal_cancel b).
Proof. quiet_prim (@nil event). Qed.
Lemma keeps_lock_acquire : keeps R lock_acquire.
Proof. quiet_prim [Acquire]. Qed.
Lemma keeps_lock_release : keeps R lock_release.
Proof. quiet_prim [Release]. Qed.
Lemma keeps_get_state : keeps R get_state.
Proof. quiet_prim (@nil event). Qed.
Lemma keeps_new_client : keeps R new_client.
Proof. quiet_prim (@nil event). Qed.
Lemma keeps_settle c p st : keeps R (settle c p st).
Proof. quiet_prim [GoalDone p st]. Qed.
Lemma keeps_next_wait : keeps R next_wait.
Proof. quiet_prim (@nil event). Qed.
Lemma keeps_waypoint name : keeps R (waypoint name).
Proof. quiet_prim (@nil event). Qed.

Variable O : Oracle.

Lemma keeps_time_now : keeps R (time_now O).
Proof. quiet_prim (@nil event). Qed.
Lemma keeps_next_status : keeps R (next_status O).
Proof. quiet_prim (@nil event). Qed.
Lemma keeps_read_line : keeps R (read_line O).
Proof. quiet_prim (@nil event). Qed.

#[local] Hint Resolve keeps_ret keeps_loginfo keeps_logerr keeps_cancel_goal
  keeps_read_state keeps_read_queue keeps_write_queue keeps_read_goal_location
  keeps_write_goal_location keeps_read_is_goal_cancel keeps_write_is_goal_cancel
  keeps_lock_acquire keeps_lock_release keeps_get_state keeps_new_client
  keeps_settle keeps_next_wait keeps_waypoint keeps_time_now keeps_next_status
  keeps_read_line : keeps.

(** Whatever runs during the waits keeps [R] too. *)
Variable on_wait : M unit.
Hypothesis wait_keeps : keeps R on_wait.

Ltac keep :=
  repeat first
    [ solve [eauto with keeps]
    | apply keeps_bind; [|intros ?]
    | apply keeps_emit; reflexivity
    | match goal with
      | |- keeps _ (if ?c then _ else _) => destruct c
      | |- keeps _ (match ?x with _ => _ end) => destruct x
      end ].

Lemma keeps_send_goal p : keeps R (send_goal O on_wait p).
Proof. unfold send_goal, get_goal. keep. Qed.

Lemma keeps_return_to_home : keeps R (return_to_home O on_wait).
Proof. unfold return_to_home. pose proof keeps_send_goal. keep. Qed.

Lemma keeps_return_to_kitchen : keeps R (return_to_kitchen O on_wait).
Proof.
  unfold return_to_kitchen.
  pose proof keeps_send_goal. pose proof keeps_return_to_home. keep.
Qed.

Lemma keeps_move_to_table t : keeps R (move_to_table O on_wait t).
Proof. unfold move_to_table. pose proof keeps_send_goal. keep. Qed.

Lemma keeps_move_to_kitchen : keeps R (move_to_kitchen O on_wait).
Proof. unfold move_to_kitchen. pose proof keeps_send_goal. keep. Qed.

Lemma keeps_timed_input prompt timeout : keeps R (timed_input O on_wait prompt timeout).
Proof. unfold timed_input, select_line. keep. Qed.

Lemma keeps_confirmation_loop fuel : forall location start,
  keeps R (confirmation_loop O on_wait fuel location start).
Proof.
  induction fuel as [|f IH]; intros location start; cbn [confirmation_loop].
  - apply keeps_fails. discriminate.
  - pose proof keeps_timed_input. pose proof (IH location start). keep.
Qed.

Lemma keeps_wait_for_confirmation fuel location :
  keeps R (wait_for_confirmation O on_wait fuel location).
Proof.
  unfold wait_for_confirmation.
  pose proof keeps_confirmation_loop. pose proof keeps_return_to_home.
  pose proof keeps_return_to_kitchen. keep.
Qed.

Lemma keeps_serve_queue fuel : keeps R (serve_queue O on_wait fuel).
Proof.
  induction fuel as [|f IH]; cbn [serve_queue].
  - apply keeps_fails. discriminate.
  - pose proof keeps_move_to_table. pose proof keeps_wait_for_confirmation. keep.
Qed.

(** The methods that write the state, for an [R] that admits the writes
    they make. *)
Variable on_join : M unit.
Hypothesis join_keeps : keeps R on_join.
Hypothesis R_write :
  forall s, s <> WAITING_CONFIRMATION -> keeps R (write_state s).
Hypothesis R_started :
  keeps R (fun w => Ok tt (with_listener_pending true w)).

Lemma keeps_signal_handler : keeps R (signal_handler O on_wait).
Proof.
  unfold signal_handler.
  pose proof keeps_return_to_home. pose proof keeps_return_to_kitchen.
  pose proof (R_write CANCELED ltac:(discriminate)). keep.
Qed.

Lemma keeps_input prompt : keeps R (input O on_wait prompt).
Proof. unfold input. keep. apply keeps_fails. discriminate. Qed.

Lemma keeps_get_orders_from_user_step : keeps R (get_orders_from_user_step O on_wait).
Proof. unfold get_orders_from_user_step. pose proof keeps_input. keep. Qed.

Lemma keeps_add_tables : keeps R (add_tables O on_wait).
Proof. unfold add_tables. pose proof keeps_input. keep. Qed.

Lemma keeps_remove_tables ts : keeps R (remove_tables ts).
Proof. induction ts as [|t ts IH]; cbn [remove_tables]; keep. Qed.

Lemma keeps_modify_orders_while_moving fuel :
  keeps R (modify_orders_while_moving O on_wait fuel).
Proof.
  induction fuel as [|f IH]; cbn [modify_orders_while_moving].
  - apply keeps_fails. discriminate.
  - unfold select_line.
    pose proof keeps_input. pose proof keeps_add_tables.
    pose proof keeps_remove_tables. pose proof keeps_return_to_home.
    pose proof (R_write IDLE ltac:(discriminate)). keep.
Qed.

Lemma keeps_process_order fuel : keeps R (process_order O on_wait on_join fuel).
Proof.
  unfold process_order, deliver.
  pose proof keeps_move_to_kitchen. pose proof keeps_wait_for_confirmation.
  pose proof keeps_serve_queue. pose proof keeps_return_to_home.
  pose proof keeps_return_to_kitchen.
  pose proof (R_write IDLE ltac:(discriminate)).
  pose proof (R_write DELIVERY ltac:(discriminate)).
  keep.
Qed.

End KeepFacts.

Lemma calm_refl w : calm w w.
Proof. intros _. apply state_untouched_refl. Qed.

Lemma calm_trans w1 w2 w3 : calm w1 w2 -> calm w2 w3 -> calm w1 w3.
Proof.
  intros H1 H2 Hp. specialize (H1 Hp).
  eapply state_untouched_trans; [exact H1|].
  apply H2. destruct H1 as (_ & -> & _). exact Hp.
Qed.

Lemma calm_quiet w w' : state_untouched w w' -> calm w w'.
Proof. intros H _. exact H. Qed.

Lemma quiet_waits_are_calm O fuel :
  (forall k, sigint O k = false) -> keeps calm (while_delivery_waits O fuel).
Proof.
  intros Hq w a w' E Hp.
  rewrite (quiet_wait O fuel w (Hq _) Hp) in E. inversion E; subst; clear E.
  repeat split. exists []. now rewrite app_nil_r.
Qed.

Lemma drain_is_calm O fuel0 fuel w w' :
  (forall k, sigint O k = false) ->
  listener_pending w = false ->
  serve_queue O (while_delivery_waits O fuel0) fuel w = Ok tt w' ->
  state_untouched w w'.
Proof.
  intros Hquiet Hp E.
  exact (keeps_serve_queue calm calm_refl calm_trans calm_quiet O
           (while_delivery_waits O fuel0) (quiet_waits_are_calm O fuel0 Hquiet)
           fuel w tt w' E Hp).
Qed.

(** X14.  Without a cancellation the drain leaves nothing behind: once the
    modification thread has been joined and as long as no SIGINT arrives,
    every table of the queue is headed for, once per entry and in queue
    order, whatever the goals come to and whatever is typed (a table that
    cannot be reached or is not confirmed is skipped, not retried); the
    queue is empty when the drain returns, and the state has not been
    written. *)
Theorem undisturbed_drain_serves_every_table :
  forall O N fuel0 fuel w,
    window_bound O N ->
    (forall k, sigint O k = false) ->
    lock w = false -> listener_pending w = false ->
    state w <> CANCELED ->
    Forall table_key (order_queue w) ->
    N + length (order_queue w) < fuel ->
    exists w' evs,
      serve_queue O (while_delivery_waits O fuel0) fuel w = Ok tt w'
      /\ trace w' = (trace w ++ evs)%list
      /\ table_visits evs = order_queue w
      /\ order_queue w' = []
      /\ state w' = state w
      /\ state_writes evs = [].
Proof.
  intros O N fuel0 fuel w Hwin Hquiet Hl Hp Hs Hk Hfuel.
  destruct (serve_queue_fifo O (while_delivery_waits O fuel0)
              (does_while_delivery_waits O fuel0) N Hwin
              (order_queue w) fuel w (conj Hl Hp) eq_refl Hk Hfuel)
    as (w' & evs & E & _ & Ht & Hv & Hend).
  destruct (keeps_serve_queue calm calm_refl calm_trans calm_quiet O
              (while_delivery_waits O fuel0) (quiet_waits_are_calm O fuel0 Hquiet)
              fuel w tt w' E Hp)
    as (Hst & _ & evs' & Ht' & Hw').
  assert (evs' = evs) as -> by (rewrite Ht in Ht'; now apply app_inv_head in Ht').
  assert (Hq : order_queue w' = []) by (destruct Hend; [assumption | congruence]).
  exists w', evs. rewrite Hq, app_nil_r in Hv.
  repeat split; assumption.
Qed.

Lemma undisturbed_drain_serves_every_table_witness :
  let O := mkOracle (fun k => match k with 0 => 4 | _ => SUCCEEDED end)
                    (fun _ => Some "no")
                    (fun k => Z.of_nat k * 10000000000)%Z
                    (fun _ => false) (fun _ => false) in
  let w := with_order_queue ["table1"; "table2"] (with_state DELIVERY initial) in
  exists w' evs,
    serve_queue O (while_delivery_waits O 5) 6 w = Ok tt w'
    /\ trace w' = (trace w ++ evs)%list
    /\ table_visits evs = ["table1"; "table2"]
    /\ order_queue w' = []
    /\ state w' = DELIVERY
    /\ state_writes evs = [].
Proof.
  cbv zeta.
  refine (undisturbed_drain_serves_every_table
            (mkOracle (fun k => match k with 0 => 4 | _ => SUCCEEDED end)
                      (fun _ => Some "no")
                      (fun k => Z.of_nat k * 10000000000)%Z
                      (fun _ => false) (fun _ => false))
            3 5 6 (with_order_queue ["table1"; "table2"] (with_state DELIVERY initial))
            _ (fun _ => eq_refl) eq_refl eq_refl _ _ _).
  - intros i j H. unfold CONFIRM_TIMEOUT. cbn [clock]. lia.
  - discriminate.
  - repeat constructor.
  - cbn. lia.
Defined.

Lemma never_waits_refl w : never_waits w w.
Proof. split; [auto|]. exists []. rewrite app_nil_r. split; [reflexivity|]. intros []. Qed.

Lemma never_waits_trans w1 w2 w3 :
  never_waits w1 w2 -> never_waits w2 w3 -> never_waits w1 w3.
Proof.
  intros (s1 & e1 & t1 & v1) (s2 & e2 & t2 & v2). split; [auto|].
  exists (e1 ++ e2)%list. split.
  - now rewrite t2, t1, app_assoc.
  - rewrite state_writes_app, in_app_iff. tauto.
Qed.

Lemma never_waits_quiet w w' : state_untouched w w' -> never_waits w w'.
Proof.
  intros (s & _ & evs & t & v). split; [congruence|].
  exists evs. split; [exact t|]. rewrite v. intros [].
Qed.

Lemma never_waits_write s :
  s <> WAITING_CONFIRMATION -> keeps never_waits (write_state s).
Proof.
  intros Hs w a w' E. injection E as _ <-. split; [intros _; exact Hs|].
  exists [SetState s]. split; [reflexivity|].
  cbn. intros [H|[]]. congruence.
Qed.

Lemma never_waits_pending b :
  keeps never_waits (fun w => Ok tt (with_listener_pending b w)).
Proof.
  intros w a w' E. injection E as _ <-. split; [auto|].
  exists []. cbn. rewrite app_nil_r. split; [reflexivity|]. intros [].
Qed.

Ltac nw :=
  first [ exact never_waits_refl | exact never_waits_trans | exact never_waits_quiet
        | exact never_waits_write | exact (never_waits_pending true) ].

Lemma never_waits_sigint_handler O : keeps never_waits (sigint_handler O).
Proof.
  unfold sigint_handler.
  apply keeps_signal_handler; try nw.
  apply keeps_ret, never_waits_refl.
Qed.

Lemma never_waits_deliver_sigint O : keeps never_waits (deliver_sigint O).
Proof.
  unfold deliver_sigint.
  apply keeps_bind; [exact never_waits_trans | |intros k].
  - apply keeps_next_wait, never_waits_quiet.
  - destruct (sigint O k); [apply never_waits_sigint_handler|].
    apply keeps_ret, never_waits_refl.
Qed.

Lemma never_waits_listener_thread O fuel : keeps never_waits (listener_thread O fuel).
Proof.
  unfold listener_thread.
  apply keeps_modify_orders_while_moving; try nw.
  apply never_waits_deliver_sigint.
Qed.

Lemma never_waits_run_listener O fuel : keeps never_waits (run_listener O fuel).
Proof.
  intros w a w' E. unfold run_listener in E.
  destruct (listener_pending w).
  - eapply never_waits_trans;
      [eapply (never_waits_pending false w tt); reflexivity
      | eapply never_waits_listener_thread; exact E].
  - injection E as _ <-. apply never_waits_refl.
Qed.

Lemma never_waits_while_delivery_waits O fuel :
  keeps never_waits (while_delivery_waits O fuel).
Proof.
  unfold while_delivery_waits.
  apply keeps_bind; [exact never_waits_trans | |intros k].
  - apply keeps_next_wait, never_waits_quiet.
  - apply keeps_bind; [exact never_waits_trans | |intros _].
    + destruct (sigint O k); [apply never_waits_sigint_handler|].
      apply keeps_ret, never_waits_refl.
    + destruct (listener_runs O k); [apply never_waits_run_listener|].
      apply keeps_ret, never_waits_refl.
Qed.

(** X15.  The state [WAITING_CONFIRMATION] is declared and never entered:
    in every run of a delivery cycle, of a turn of the intake, of the
    cancellation handler or of the modification thread that comes back,
    whatever the console, the clock and the action server do and whenever
    SIGINTs arrive, no write of the state sets it, and the state is not
    [WAITING_CONFIRMATION] afterwards (the confirmation is waited for in
    [DELIVERY]). *)
Theorem waiting_confirmation_is_never_entered :
  forall O fuel w w',
    state w <> WAITING_CONFIRMATION ->
    (delivery_thread O fuel w = Ok tt w'
     \/ (exists c, intake_step O w = Ok c w')
     \/ sigint_handler O w = Ok tt w'
     \/ listener_thread O fuel w = Ok tt w') ->
    state w' <> WAITING_CONFIRMATION
    /\ exists evs,
         trace w' = (trace w ++ evs)%list
         /\ ~ In WAITING_CONFIRMATION (state_writes evs).
Proof.
  intros O fuel w w' Hs Hrun.
  assert (H : never_waits w w').
  { destruct Hrun as [E|[(c & E)|[E|E]]].
    - revert E. unfold delivery_thread.
      apply keeps_process_order; try nw;
        [apply never_waits_while_delivery_waits | apply never_waits_run_listener].
    - revert E. unfold intake_step.
      apply keeps_get_orders_from_user_step; try nw.
      apply never_waits_deliver_sigint.
    - revert E. apply never_waits_sigint_handler.
    - revert E. apply never_waits_listener_thread. }
  destruct H as [H1 H2]. split; auto.
Qed.

Lemma waiting_confirmation_is_never_entered_witness :
  let O := mkOracle (fun _ => SUCCEEDED) (fun _ => None) (fun _ => 0%Z)
                    (fun _ => false) (fun _ => false) in
  exists w',
    sigint_handler O (with_state DELIVERY initial) = Ok tt w'
    /\ state w' <> WAITING_CONFIRMATION
    /\ exists evs,
         trace w' = (trace initial ++ evs)%list
         /\ ~ In WAITING_CONFIRMATION (state_writes evs).
Proof.
  cbv zeta. eexists. split; [vm_compute; reflexivity|].
  refine (waiting_confirmation_is_never_entered
            (mkOracle (fun _ => SUCCEEDED) (fun _ => None) (fun _ => 0%Z)
                      (fun _ => false) (fun _ => false))
            0 (with_state DELIVERY initial) _ _ _).
  - discriminate.
  - right. right. left. vm_compute. reflexivity.
Defined.

(* ===================================================================== *)
(** ** Whole cycles *)
(* ===================================================================== *)

Lemma cycle_after_the_first_wait O N fuel w w1 :
  window_bound O N ->
  lock w = false -> state w = IDLE ->
  while_delivery_waits O fuel (on_the_way_to_the_kitchen O w) = Ok tt w1 ->
  unlocked w1 ->
  Forall table_key (order_queue w1) ->
  N + length (order_queue w1) < fuel ->
  exists w' evs,
    delivery_thread O fuel w = Ok tt w'
    /\ trace w' = (trace w1 ++ evs)%list
    /\ (table_visits evs ++ order_queue w')%list = order_queue w1
    /\ state w' = IDLE
    /\ unlocked w'.
Proof.
  intros Hwin Hl Hs Hfirst Hu1 Hk Hfuel.
  unfold delivery_thread. rewrite (process_order_from_idle _ _ _ _ _ Hl Hs).
  unfold deliver, move_to_kitchen, send_goal, entered. exec.
  rewrite waypoint_kitchen. exec.
  unfold on_the_way_to_the_kitchen in Hfirst.
  rewrite <- !app_assoc. cbn [app].
  erewrite bind_Ok by exact Hfirst. exec.
  set (h := while_delivery_waits O fuel).
  assert (Hh : does unlocked h [] any) by apply does_while_delivery_waits.
  destruct Hu1 as [Hl1 Hp1].
  match goal with |- context [Nat.eqb ?x SUCCEEDED] =>
    destruct (Nat.eqb x SUCCEEDED) end; exec.
  2:{ eexists; eexists. split; [reflexivity|]. simpl_world.
      rewrite <- !app_assoc. cbn [app].
      split; [reflexivity|]. split; [reflexivity|].
      split; [reflexivity|]. split; assumption. }
  match goal with |- context [bind (wait_for_confirmation O h ?fu ?loc) _ ?W] =>
    destruct (wait_for_confirmation_returns O h unlocked unlocked_stable
                Hh N Hwin fu loc W)
      as (c & w2 & E2 & F2); [split; assumption | lia |] end.
  erewrite bind_Ok by exact E2. clear E2.
  destruct F2 as [Fq2 Fl2 Fp2 _ (evs2 & Ft2 & Fv2)].
  simpl_world_in Fq2. simpl_world_in Fl2. simpl_world_in Fp2. simpl_world_in Ft2.
  destruct c; exec.
  - erewrite bind_Ok by (apply run_listener_joined; simpl_world; congruence).
    match goal with |- context [bind (serve_queue O h fuel) _ ?W] =>
      destruct (serve_queue_fifo O h Hh N Hwin (order_queue w1) fuel W)
        as (w3 & evs3 & E3 & Hu3 & Ht3 & Hv3 & _);
        [split; simpl_world; congruence | simpl_world; congruence
        | exact Hk | exact Hfuel |] end.
    erewrite bind_Ok by exact E3. clear E3. simpl_world_in Ht3. exec.
    assert (Hend : forall (m : M unit), does unlocked m [] any ->
               exists w' evs,
                 (m ;; write_state IDLE) w3 = Ok tt w'
                 /\ trace w' = (trace w1 ++ evs)%list
                 /\ (table_visits evs ++ order_queue w')%list = order_queue w1
                 /\ state w' = IDLE /\ unlocked w').
    { intros m Hm. destruct (Hm w3 Hu3) as (? & w4 & E4 & F4 & _).
      erewrite bind_Ok by exact E4. exec.
      pose proof (stable_effect _ _ _ _ unlocked_stable F4 Hu3) as [Hl4 Hp4].
      destruct F4 as [Fq4 _ _ _ (evs4 & Ft4 & Fv4)].
      eexists; eexists. split; [reflexivity|]. simpl_world.
      rewrite Ft4, Ht3, Ft2, <- !app_assoc. cbn [app].
      split; [reflexivity|]. split; [|split; [reflexivity | split; assumption]].
      rewrite Fq4, <- Hv3. f_equal.
      repeat (rewrite ?table_visits_app, ?table_visits_skip by exact I).
      rewrite Fv2, Fv4. cbn [app]. now rewrite app_nil_r. }
    destruct (robot_state_eqb (state w3) CANCELED).
    + apply Hend.
      eapply does_seq; [exact unlocked_stable | apply does_loginfo | intros _ _].
      now apply does_return_to_kitchen; [exact unlocked_stable|].
    + apply Hend. now apply does_return_to_home; [exact unlocked_stable|].
  - match goal with |- context [bind (return_to_home O h) _ ?W] =>
      destruct (does_return_to_home O h unlocked unlocked_stable Hh W)
        as (? & w3 & E3 & F3 & _); [split; simpl_world; congruence|] end.
    erewrite bind_Ok by exact E3. clear E3.
    destruct F3 as [Fq3 Fl3 Fp3 _ (evs3 & Ft3 & Fv3)].
    simpl_world_in Fq3. simpl_world_in Ft3. simpl_world_in Fl3. simpl_world_in Fp3.
    exec.
    eexists; eexists. split; [reflexivity|]. simpl_world.
    rewrite Ft3, Ft2, <- !app_assoc. cbn [app].
    unfold unlocked. simpl_world.
    split; [reflexivity|]. split; [|split; [reflexivity | split; congruence]].
    repeat (rewrite ?table_visits_app, ?table_visits_skip by exact I).
    rewrite Fv2, Fv3. cbn [app table_visits visits filter]. congruence.
Qed.

Lemma listener_not_in_delivery O f w :
  state w <> DELIVERY -> listener_thread O (S f) w = Ok tt w.
Proof.
  intros Hs. unfold listener_thread. cbn [modify_orders_while_moving]. exec.
  destruct (state w); try reflexivity. congruence.
Qed.

Lemma listener_leaves O f w :
  lock w = false -> listener_pending w = false ->
  leaves_the_prompt (stdin O (stdin_ix w)) = true ->
  exists w' evs,
    listener_thread O (S f) w = Ok tt w'
    /\ unlocked w'
    /\ order_queue w' = order_queue w
    /\ trace w' = (trace w ++ evs)%list
    /\ table_visits evs = [].
Proof.
  intros Hl Hp Hleave.
  destruct (robot_state_eqb (state w) DELIVERY) eqn:Hs.
  2:{ rewrite listener_not_in_delivery
        by (intros E; rewrite E in Hs; discriminate).
      exists w, []. rewrite app_nil_r. repeat split; auto. }
  unfold listener_thread. cbn [modify_orders_while_moving]. exec.
  rewrite Hs. exec. unfold select_line. exec.
  match goal with |- context [bind (deliver_sigint O) _ ?W] =>
    destruct (deliver_sigint_returns O W Hl)
      as (w1 & E1 & Hl1 & Hi1 & _ & Hq1 & Hp1 & _ & evs1 & Ht1 & Hv1) end.
  erewrite bind_Ok by exact E1. clear E1. exec.
  simpl_world_in Hi1. simpl_world_in Hq1. simpl_world_in Hp1. simpl_world_in Ht1.
  rewrite Hi1. unfold leaves_the_prompt in Hleave.
  destruct (stdin O (stdin_ix w)) as [line|]; exec; rewrite ?Hleave; exec;
    (eexists; eexists; split; [reflexivity|]); unfold unlocked; simpl_world;
    rewrite Ht1, <- !app_assoc; cbn [app];
    (split; [split; congruence|]); (split; [exact Hq1|]);
    (split; [reflexivity|]); no_table_visits.
Qed.

Lemma first_wait_with_unused_prompt O fuel w :
  lock w = false -> listener_pending w = true ->
  listener_runs O (wait_ix w) = true ->
  leaves_the_prompt (stdin O (stdin_ix w)) = true ->
  exists w1 evs,
    while_delivery_waits O (S fuel) w = Ok tt w1
    /\ unlocked w1
    /\ order_queue w1 = order_queue w
    /\ trace w1 = (trace w ++ evs)%list
    /\ table_visits evs = [].
Proof.
  intros Hl Hp Hruns Hleave.
  unfold while_delivery_waits. exec. rewrite Hruns.
  destruct (sigint O (wait_ix w)).
  - match goal with |- context [bind (sigint_handler O) _ ?W] =>
      destruct (sigint_handler_returns O W Hl) as (w0 & E & H) end.
    erewrite bind_Ok by exact E.
    destruct H as [Hs Hq Hlk Hpe _ Hi Hw Hc (body & Ht & Hv & _)].
    simpl_world_in Hq. simpl_world_in Hpe. simpl_world_in Ht.
    rewrite run_listener_pending by congruence.
    rewrite listener_not_in_delivery by (simpl_world; congruence).
    eexists; eexists. split; [reflexivity|]. unfold unlocked. simpl_world.
    split; [split; [exact Hlk | reflexivity]|]. split; [exact Hq|].
    split; [exact Ht|].
    rewrite !table_visits_app, Hv. reflexivity.
  - exec. rewrite run_listener_pending by exact Hp.
    match goal with |- context [listener_thread O _ ?W] =>
      destruct (listener_leaves O fuel W) as (w1 & evs & E & Hu & Hq & Ht & Hv);
        [exact Hl | reflexivity | exact Hleave |] end.
    exists w1, evs. repeat split; auto; apply Hu.
Qed.

Lemma visits_on_the_way O w :
  exists evs,
    trace (on_the_way_to_the_kitchen O w) = (trace w ++ evs)%list
    /\ visits evs = ["kitchen"] /\ table_visits evs = [].
Proof.
  eexists. split; [reflexivity|]. split; vm_compute; reflexivity.
Qed.

(** X16.  A cycle that no SIGINT interrupts comes to its end.  Let a cycle
    start from [IDLE] with a queue of table names, and let the
    modification prompt, put up during the drive to the kitchen, be left
    unanswered or answered "none".  Then, as long as no SIGINT arrives,
    the cycle returns, whatever the goals come to and whatever is typed at
    the confirmation prompts: the kitchen is the first place headed for,
    the tables headed for are the queue from its head, in order, followed
    in the queue by what was not served (all of it, when the kitchen is
    not reached or not confirmed), the state is [IDLE] again and the lock
    is free. *)
Theorem cycle_comes_to_an_end :
  forall O N fuel w,
    window_bound O N ->
    N + length (order_queue w) < fuel ->
    (forall k, sigint O k = false) ->
    state w = IDLE -> lock w = false ->
    Forall table_key (order_queue w) ->
    listener_runs O (wait_ix w) = true ->
    leaves_the_prompt (stdin O (stdin_ix w)) = true ->
    exists w' evs,
      delivery_thread O fuel w = Ok tt w'
      /\ trace w' = (trace w ++ evs)%list
      /\ (table_visits evs ++ order_queue w')%list = order_queue w
      /\ (exists more, visits evs = "kitchen" :: more)
      /\ state w' = IDLE
      /\ lock w' = false.
Proof.
  intros O N fuel w Hwin Hfuel _ Hs Hl Hk Hruns Hleave.
  destruct fuel as [|f]; [lia|].
  destruct (first_wait_with_unused_prompt O f (on_the_way_to_the_kitchen O w))
    as (w1 & evs1 & E1 & Hu1 & Hq1 & Ht1 & Hv1); auto.
  simpl_world_in Hq1.
  destruct (cycle_after_the_first_wait O N (S f) w w1 Hwin Hl Hs E1 Hu1)
    as (w' & evs & E & Ht & Hv & Hst & Hu');
    [now rewrite Hq1 | now rewrite Hq1 |].
  destruct (visits_on_the_way O w) as (evs0 & Ht0 & Hv0 & Htv0).
  exists w', (evs0 ++ evs1 ++ evs)%list.
  split; [exact E|]. split; [|split; [|split; [|split]]].
  - rewrite Ht, Ht1, Ht0. now rewrite <- !app_assoc.
  - rewrite !table_visits_app, Htv0, Hv1. cbn [app]. now rewrite Hv, Hq1.
  - rewrite visits_app, Hv0. cbn [app]. eexists. reflexivity.
  - exact Hst.
  - apply Hu'.
Qed.

Lemma cycle_comes_to_an_end_witness :
  let O := mkOracle (fun k => match k with 1 => 4 | _ => SUCCEEDED end)
                    (fun k => match k with 0 => None | 2 => Some "no" | _ => Some "yes" end)
                    (fun k => Z.of_nat k * 10000000000)%Z
                    (fun _ => false) (fun _ => true) in
  let w := with_order_queue ["table1"; "table2"] initial in
  exists w' evs,
    delivery_thread O 6 w = Ok tt w'
    /\ trace w' = (trace w ++ evs)%list
    /\ (table_visits evs ++ order_queue w')%list = ["table1"; "table2"]
    /\ (exists more, visits evs = "kitchen" :: more)
    /\ state w' = IDLE
    /\ lock w' = false.
Proof.
  cbv zeta.
  refine (cycle_comes_to_an_end
            (mkOracle (fun k => match k with 1 => 4 | _ => SUCCEEDED end)
                      (fun k => match k with 0 => None | 2 => Some "no" | _ => Some "yes" end)
                      (fun k => Z.of_nat k * 10000000000)%Z
                      (fun _ => false) (fun _ => true))
            3 6 (with_order_queue ["table1"; "table2"] initial)
            _ _ (fun _ => eq_refl) eq_refl eq_refl _ eq_refl eq_refl).
  - intros i j H. unfold CONFIRM_TIMEOUT. cbn [clock]. lia.
  - cbn. lia.
  - repeat constructor.
Defined.

Lemma validated_is_table_key x :
  in_WAYPOINTS ("table" ++ x) = true -> table_key ("table" ++ x).
Proof.
  intros H. apply in_WAYPOINTS_table in H. apply table_key_cases.
  destruct H as [ -> | [ -> | -> ]]; auto.
Qed.

Lemma valid_tables_of_table_keys l : Forall table_key (valid_tables_of l).
Proof.
  induction l as [|t l IH]; [constructor|].
  cbn [valid_tables_of].
  destruct (in_WAYPOINTS ("table" ++ PyStr.strip t)) eqn:E; auto.
  constructor; auto. now apply validated_is_table_key.
Qed.





(** The wait for the kitchen goal when no SIGINT comes and the
    modification prompt, put up during it, is left without a command. *)
Lemma quiet_first_wait O f w :
  sigint O (wait_ix w) = false -> sigint O (S (wait_ix w)) = false ->
  listener_runs O (wait_ix w) = true ->
  leaves_the_prompt (stdin O (stdin_ix w)) = true ->
  exists evs,
    goals_sent evs = [] /\ state_writes evs = []
    /\ while_delivery_waits O (S f) (on_the_way_to_the_kitchen O w)
       = Ok tt (mkWorld DELIVERY (Some "kitchen") (order_queue w) (lock w)
                        (is_goal_cancel w) (S (client w)) LOST false
                        (nav_ix w) (S (stdin_ix w)) (S (clock_ix w)) (S (S (wait_ix w)))
                        (trace (on_the_way_to_the_kitchen O w) ++ evs)%list).
Proof.
  intros Hsig Hsig' Hruns Hleave.
  unfold while_delivery_waits, on_the_way_to_the_kitchen. exec.
  rewrite Hsig, Hruns. exec. rewrite run_listener_pending by reflexivity.
  match goal with |- context [listener_thread O _ ?W] =>
    destruct (quiet_listener_leaves O f W) as (evs & Hg & Hw & E); auto end.
  exists evs. split; [exact Hg|]. split; [exact Hw|]. exact E.
Qed.

(** The visits and the state writes of a list built from known pieces. *)
Ltac known_visits :=
  repeat first
    [ rewrite visits_app
    | rewrite visits_home
    | rewrite visits_kitchen
    | rewrite visits_skip by exact I
    | match goal with
      | H : goals_sent ?l = [] |- context [visits ?l] =>
          rewrite (goals_sent_nil_visits l H)
      end ];
  cbn [app]; try reflexivity.

Ltac known_writes :=
  repeat first
    [ rewrite state_writes_app
    | progress cbn [state_writes app]
    | match goal with
      | H : state_writes ?l = [] |- context [state_writes ?l] => rewrite H
      end ];
  try reflexivity.

Ltac to_the_first_wait Hl Hs :=
  unfold delivery_thread; rewrite (process_order_from_idle _ _ _ _ _ Hl Hs);
  unfold deliver, move_to_kitchen, send_goal, entered; exec;
  rewrite waypoint_kitchen; exec;
  rewrite <- ?app_assoc; cbn [app].

(** X18.  A cycle whose kitchen goal fails is given up at once: the
    kitchen is the only place headed for, the state goes back to [IDLE]
    and the lock is free, and the orders stay in the queue.  The
    modification thread the cycle has started is not joined. *)
Theorem unreachable_kitchen_aborts_the_cycle :
  forall O fuel w,
    state w = IDLE -> lock w = false ->
    sigint O (wait_ix w) = false ->
    listener_runs O (wait_ix w) = false ->
    nav O (nav_ix w) <> SUCCEEDED ->
    exists w' evs,
      delivery_thread O fuel w = Ok tt w'
      /\ trace w' = (trace w ++ evs)%list
      /\ visits evs = ["kitchen"]
      /\ state_writes evs = [DELIVERY; IDLE]
      /\ order_queue w' = order_queue w
      /\ state w' = IDLE
      /\ lock w' = false
      /\ listener_pending w' = true.
Proof.
  intros O fuel w Hs Hl Hsig Hruns Hnav.
  apply Nat.eqb_neq in Hnav.
  to_the_first_wait Hl Hs.
  unfold while_delivery_waits. exec. rewrite Hsig, Hruns. exec.
  rewrite Nat.eqb_refl, Hnav. exec.
  eexists; eexists. split; [reflexivity|]. simpl_world.
  rewrite <- !app_assoc. cbn [app].
  split; [reflexivity|]. split; [vm_compute; reflexivity|].
  repeat split; auto.
Qed.

Lemma unreachable_kitchen_aborts_the_cycle_witness :
  let O := mkOracle (fun _ => 4) (fun _ => None) (fun _ => 0%Z)
                    (fun _ => false) (fun _ => false) in
  let w := with_order_queue ["table1"] initial in
  exists w' evs,
    delivery_thread O 0 w = Ok tt w'
    /\ trace w' = (trace w ++ evs)%list
    /\ visits evs = ["kitchen"]
    /\ state_writes evs = [DELIVERY; IDLE]
    /\ order_queue w' = ["table1"]
    /\ state w' = IDLE
    /\ lock w' = false
    /\ listener_pending w' = true.
Proof.
  cbv zeta.
  refine (unreachable_kitchen_aborts_the_cycle
            (mkOracle (fun _ => 4) (fun _ => None) (fun _ => 0%Z)
                      (fun _ => false) (fun _ => false))
            0 (with_order_queue ["table1"] initial)
            eq_refl eq_refl eq_refl eq_refl _).
  discriminate.
Defined.

(** X19.  Nobody confirms at the kitchen.  The kitchen is reached, the
    modification prompt and then every attempt of the gate go by without a
    yes or a no, no SIGINT arrives, and the window elapses: the gate sends
    the robot home, [process_order] sends it home once more, and the cycle
    ends in [IDLE] with the orders still in the queue and no table headed
    for. *)
Theorem unanswered_kitchen_sends_home_twice :
  forall O f n w,
    state w = IDLE -> lock w = false ->
    (forall k, sigint O k = false) ->
    listener_runs O (wait_ix w) = true ->
    leaves_the_prompt (stdin O (stdin_ix w)) = true ->
    nav O (nav_ix w) = SUCCEEDED ->
    (forall i, i < n ->
       (clock O (i + S (S (clock_ix w))) - clock O (S (clock_ix w)) < CONFIRM_TIMEOUT)%Z
       /\ is_answer (stdin O (i + S (stdin_ix w))) = false) ->
    (CONFIRM_TIMEOUT <= clock O (n + S (S (clock_ix w))) - clock O (S (clock_ix w)))%Z ->
    exists w' evs,
      delivery_thread O (n + S f) w = Ok tt w'
      /\ trace w' = (trace w ++ evs)%list
      /\ visits evs = ["kitchen"; "home"; "home"]
      /\ state_writes evs = [DELIVERY; IDLE]
      /\ order_queue w' = order_queue w
      /\ state w' = IDLE.
Proof.
  intros O f n w Hs Hl Hquiet Hruns Hleave Hnav Hq Hout.
  rewrite Nat.add_succ_r.
  destruct (quiet_first_wait O (n + f) w (Hquiet _) (Hquiet _) Hruns Hleave)
    as (evs1 & Hg1 & Hw1 & E1).
  to_the_first_wait Hl Hs.
  unfold on_the_way_to_the_kitchen in E1.
  erewrite bind_Ok by exact E1. clear E1. exec.
  rewrite Nat.eqb_refl, Hnav, Nat.eqb_refl. exec.
  rewrite <- Nat.add_succ_r.
  match goal with |- context [bind (wait_for_confirmation O _ _ _) _ ?W] =>
    destruct (gate_after_unanswered_attempts O (n + S f) f n "kitchen" W)
      as (evs2 & Hg2 & Hw2 & E2);
      [reflexivity | discriminate | exact Hquiet | exact Hq |] end.
  unfold bind at 1. rewrite E2. clear E2. simpl_world.
  cbn [confirmation_loop]. exec.
  rewrite (proj2 (Z.ltb_ge _ _) Hout). exec.
  change (PyStr.contains "table" "kitchen") with false. cbv iota.
  assert (Hp : false = false) by reflexivity.
  quiet_exec Hquiet Hp.
  all: eexists; eexists; (split; [reflexivity|]); simpl_world;
    rewrite <- !app_assoc; cbn [app];
    (split; [reflexivity|]);
    (split; [known_visits|]);
    (split; [known_writes|]);
    split; reflexivity.
Qed.

Lemma unanswered_kitchen_sends_home_twice_witness :
  let O := mkOracle (fun _ => SUCCEEDED) (fun _ => None)
                    (fun k => Z.of_nat k * 10000000000)%Z
                    (fun _ => false) (fun _ => true) in
  let w := with_order_queue ["table1"] initial in
  exists w' evs,
    delivery_thread O (2 + 1) w = Ok tt w'
    /\ trace w' = (trace w ++ evs)%list
    /\ visits evs = ["kitchen"; "home"; "home"]
    /\ state_writes evs = [DELIVERY; IDLE]
    /\ order_queue w' = ["table1"]
    /\ state w' = IDLE.
Proof.
  cbv zeta.
  refine (unanswered_kitchen_sends_home_twice
            (mkOracle (fun _ => SUCCEEDED) (fun _ => None)
                      (fun k => Z.of_nat k * 10000000000)%Z
                      (fun _ => false) (fun _ => true))
            0 2 (with_order_queue ["table1"] initial)
            eq_refl eq_refl (fun _ => eq_refl) eq_refl eq_refl eq_refl _ _).
  - intros i Hi. destruct i as [|[|i]]; [split; reflexivity .. | lia].
  - vm_compute. discriminate.
Defined.

(** X20.  A confirmed cycle without a cancellation serves the whole
    queue.  The kitchen is reached and confirmed with "yes" (after any
    number of attempts that brought no answer), the modification prompt has
    gone by, and no SIGINT arrives: then the robot heads for the kitchen
    first, for every table of the queue in queue order (also for those that
    turn out unreachable or are not confirmed), and home last; the queue is
    empty at the end, and the state has been written twice, [DELIVERY] at
    the start and [IDLE] at the end. *)
Theorem confirmed_cycle_serves_the_whole_queue :
  forall O N f n w line,
    window_bound O N ->
    N + length (order_queue w) < n + S f ->
    state w = IDLE -> lock w = false ->
    Forall table_key (order_queue w) ->
    (forall k, sigint O k = false) ->
    listener_runs O (wait_ix w) = true ->
    leaves_the_prompt (stdin O (stdin_ix w)) = true ->
    nav O (nav_ix w) = SUCCEEDED ->
    (forall i, i < n ->
       (clock O (i + S (S (clock_ix w))) - clock O (S (clock_ix w)) < CONFIRM_TIMEOUT)%Z
       /\ is_answer (stdin O (i + S (stdin_ix w))) = false) ->
    (clock O (n + S (S (clock_ix w))) - clock O (S (clock_ix w)) < CONFIRM_TIMEOUT)%Z ->
    stdin O (n + S (stdin_ix w)) = Some line ->
    answer_of line = "yes" ->
    exists w' evs,
      delivery_thread O (n + S f) w = Ok tt w'
      /\ trace w' = (trace w ++ evs)%list
      /\ table_visits evs = order_queue w
      /\ (exists mid, visits evs = ("kitchen" :: mid ++ ["home"])%list)
      /\ state_writes evs = [DELIVERY; IDLE]
      /\ order_queue w' = []
      /\ state w' = IDLE.
Proof.
  intros O N f n w line Hwin Hfuel Hs Hl Hk Hquiet Hruns Hleave Hnav Hq Hin Hline Hyes.
  revert Hfuel. rewrite Nat.add_succ_r. intros Hfuel.
  destruct (quiet_first_wait O (n + f) w (Hquiet _) (Hquiet _) Hruns Hleave)
    as (evs1 & Hg1 & Hw1 & E1).
  to_the_first_wait Hl Hs.
  unfold on_the_way_to_the_kitchen in E1.
  erewrite bind_Ok by exact E1. clear E1. exec.
  rewrite Nat.eqb_refl, Hnav, Nat.eqb_refl. exec.
  rewrite <- Nat.add_succ_r in *.
  (* the kitchen gate *)
  match goal with |- context [bind (wait_for_confirmation O _ _ _) _ ?W] =>
    destruct (gate_after_unanswered_attempts O (n + S f) f n "kitchen" W)
      as (evs2 & Hg2 & Hw2 & E2);
      [reflexivity | discriminate | exact Hquiet | exact Hq |] end.
  unfold bind at 1. rewrite E2. clear E2. simpl_world.
  cbn [confirmation_loop]. exec.
  rewrite (proj2 (Z.ltb_lt _ _) Hin).
  unfold timed_input, select_line. exec.
  erewrite bind_Ok by (apply quiet_wait; [apply Hquiet | reflexivity]).
  exec. rewrite Hline. exec.
  unfold answer_of in Hyes. rewrite Hyes.
  change (String.eqb "yes" "yes") with true. exec.
  (* the join and the drain *)
  erewrite bind_Ok by (apply run_listener_joined; reflexivity).
  match goal with |- context [bind (serve_queue O ?h ?fu) _ ?W] =>
    destruct (serve_queue_fifo O h (does_while_delivery_waits O _) N Hwin
                (order_queue w) fu W)
      as (w3 & evs3 & E3 & Hu3 & Ht3 & Hv3 & Hend);
      [split; simpl_world; [exact Hl | reflexivity] | reflexivity
      | exact Hk | exact Hfuel |];
    destruct (drain_is_calm O _ fu W w3 Hquiet eq_refl E3)
      as (Hst3 & Hp3 & evs3' & Ht3' & Hw3)
  end.
  erewrite bind_Ok by exact E3. clear E3.
  simpl_world_in Ht3. simpl_world_in Ht3'. simpl_world_in Hst3. simpl_world_in Hp3.
  assert (evs3' = evs3) as -> by (rewrite Ht3 in Ht3'; now apply app_inv_head in Ht3').
  assert (Hq3 : order_queue w3 = []) by (destruct Hend; [assumption | congruence]).
  rewrite Hq3, app_nil_r in Hv3.
  exec. rewrite Hst3. exec.
  quiet_exec Hquiet Hp3.
  all: eexists; eexists; (split; [reflexivity|]); simpl_world;
    rewrite Ht3, <- !app_assoc; cbn [app];
    (split; [reflexivity|]);
    (split; [unfold table_visits; known_visits;
             change (filter (PyStr.contains "table") ("kitchen" :: ?l))
               with (filter (PyStr.contains "table") l);
             rewrite filter_app; cbn [filter]; fold (table_visits evs3);
             rewrite Hv3; apply app_nil_r|]);
    (split; [exists (visits evs3); known_visits|]);
    (split; [known_writes|]);
    split; [exact Hq3 | reflexivity].
Qed.

Lemma confirmed_cycle_serves_the_whole_queue_witness :
  let O := mkOracle (fun k => match k with 1 => 4 | _ => SUCCEEDED end)
                    (fun k => match k with 0 => None | _ => Some "yes" end)
                    (fun k => Z.of_nat k * 10000000000)%Z
                    (fun _ => false) (fun _ => true) in
  let w := with_order_queue ["table1"; "table2"] initial in
  exists w' evs,
    delivery_thread O (0 + 6) w = Ok tt w'
    /\ trace w' = (trace w ++ evs)%list
    /\ table_visits evs = ["table1"; "table2"]
    /\ (exists mid, visits evs = ("kitchen" :: mid ++ ["home"])%list)
    /\ state_writes evs = [DELIVERY; IDLE]
    /\ order_queue w' = []
    /\ state w' = IDLE.
Proof.
  cbv zeta.
  refine (confirmed_cycle_serves_the_whole_queue
            (mkOracle (fun k => match k with 1 => 4 | _ => SUCCEEDED end)
                      (fun k => match k with 0 => None | _ => Some "yes" end)
                      (fun k => Z.of_nat k * 10000000000)%Z
                      (fun _ => false) (fun _ => true))
            3 5 0 (with_order_queue ["table1"; "table2"] initial) "yes"
            _ _ eq_refl eq_refl _ (fun _ => eq_refl) eq_refl eq_refl eq_refl
            _ eq_refl eq_refl eq_refl).
  - intros i j H. unfold CONFIRM_TIMEOUT. cbn [clock]. lia.
  - cbn. lia.
  - repeat constructor.
  - intros i Hi. lia.
Defined.

(* ===================================================================== *)
(** ** The blocking variant of the modification prompt *)
(* ===================================================================== *)

(* ---- facts ---- *)
Lemma ask_add_tables_run ts : forall w,
  ask_add_tables ts w
  = Ok tt (mkWorld (state w) (goal_location w) (order_queue w ++ added_by ts (order_queue w))%list
                   (lock w) (is_goal_cancel w) (client w) (client_status w)
                   (listener_pending w) (nav_ix w) (stdin_ix w) (clock_ix w)
                   (wait_ix w) (trace w ++ ask_add_events ts (order_queue w))%list).
Proof.
  induction ts as [|t ts IH]; intros w.
  - cbn [ask_add_tables added_by ask_add_events]. rewrite !app_nil_r. now destruct w.
  - cbn [ask_add_tables added_by ask_add_events]. exec.
    destruct (PyStr.mem t (order_queue w)); exec; rewrite IH; simpl_world;
      rewrite <- !app_assoc; reflexivity.
Qed.

Lemma added_by_spec ts : forall q,
  NoDup (added_by ts q)
  /\ (forall t, In t (added_by ts q) <-> In t ts /\ ~ In t q).
Proof.
  induction ts as [|x ts IH]; intros q; cbn [added_by].
  - split; [constructor|]. intros t. cbn [In]. tauto.
  - destruct (PyStr.mem x q) eqn:Hm.
    + destruct (IH q) as [Hn Hi]. split; [exact Hn|].
      intros t. rewrite Hi. cbn [In]. apply mem_In in Hm.
      split; [tauto|]. intros [[->|H] Hq]; tauto.
    + destruct (IH (q ++ [x])%list) as [Hn Hi].
      assert (Hx : ~ In x q) by (rewrite <- mem_In; congruence).
      split.
      * constructor; [|exact Hn]. rewrite Hi, in_app_iff. cbn [In]. tauto.
      * intros t. cbn [In]. rewrite Hi, in_app_iff. cbn [In].
        destruct (string_dec x t) as [->|Hne]; [tauto|]. tauto.
Qed.

Lemma ask_add_events_quiet ts : forall q,
  lock_ops (ask_add_events ts q) = []
  /\ goals_sent (ask_add_events ts q) = []
  /\ no_blocking_call_under_lock true (ask_add_events ts q) = true.
Proof.
  induction ts as [|t ts IH]; intros q; [repeat split|].
  cbn [ask_add_events]. destruct (PyStr.mem t q);
    cbn [lock_ops filter goals_sent no_blocking_call_under_lock]; apply IH.
Qed.

Lemma no_blocking_call_app body rest :
  lock_ops body = [] -> goals_sent body = [] ->
  no_blocking_call_under_lock true body = true ->
  no_blocking_call_under_lock true (body ++ rest)
  = no_blocking_call_under_lock true rest.
Proof.
  induction body as [|e body IH]; intros H Hg Hb; [reflexivity|].
  destruct e; cbn [lock_ops filter] in H; try discriminate;
    cbn [goals_sent] in Hg; try discriminate;
    cbn [no_blocking_call_under_lock negb andb] in Hb; try discriminate;
    cbn [app no_blocking_call_under_lock]; auto.
Qed.

(** X21.  [ask_modify_orders] (called from nowhere in the program) adds
    under the lock and without duplicates.  Answered "add", a batch and
    then "none", it appends every table of the batch that validates and is
    not queued yet, once, however often the batch names it (each entry is
    compared with the queue as it has grown so far); the queue is written
    only while the lock is held, no prompt is waited at while it is held,
    and the lock is free at the end. *)
Theorem ask_modify_orders_adds_without_duplicates :
  forall O f w l1 l2 l3,
    state w = DELIVERY -> lock w = false ->
    sigint O (wait_ix w) = false ->
    sigint O (S (wait_ix w)) = false ->
    sigint O (S (S (wait_ix w))) = false ->
    stdin O (stdin_ix w) = Some l1 ->
    PyStr.lower (PyStr.strip l1) = "add" ->
    stdin O (S (stdin_ix w)) = Some l2 ->
    stdin O (S (S (stdin_ix w))) = Some l3 ->
    PyStr.lower (PyStr.strip l3) = "none" ->
    exists w' new evs,
      ask_modify_orders O (deliver_sigint O) (S (S f)) w = Ok tt w'
      /\ order_queue w' = (order_queue w ++ new)%list
      /\ NoDup new
      /\ (forall t, In t new
                    <-> In t (valid_tables_of (PyStr.split "," (PyStr.strip l2)))
                        /\ ~ In t (order_queue w))
      /\ trace w' = (trace w ++ evs)%list
      /\ writes_under_lock false evs = true
      /\ no_blocking_call_under_lock false evs = true
      /\ lock w' = false.
Proof.
  intros O f w l1 l2 l3 Hs Hl Hsig1 Hsig2 Hsig3 Hin1 Hadd Hin2 Hin3 Hnone.
  assert (Hd : robot_state_eqb (state w) DELIVERY = true) by now rewrite Hs.
  cbn [ask_modify_orders]. exec. rewrite Hd. exec.
  unfold input. exec.
  erewrite bind_Ok by (apply quiet_deliver_sigint; exact Hsig1).
  exec. rewrite Hin1. exec. rewrite Hadd.
  change (String.eqb "add" "none") with false.
  change (String.eqb "add" "add") with true.
  exec.
  erewrite bind_Ok by (apply quiet_deliver_sigint; exact Hsig2).
  exec. rewrite Hin2. exec.
  erewrite bind_Ok by (apply lock_acquire_free; exact Hl).
  erewrite bind_Ok by apply ask_add_tables_run. exec.
  erewrite bind_Ok by (apply lock_release_held; reflexivity). exec.
  rewrite Hd. exec.
  erewrite bind_Ok by (apply quiet_deliver_sigint; exact Hsig3).
  exec. rewrite Hin3. exec. rewrite Hnone.
  change (String.eqb "none" "none") with true. exec.
  set (ts := valid_tables_of (PyStr.split "," (PyStr.strip l2))).
  destruct (added_by_spec ts (order_queue w)) as [Hn Hi].
  destruct (ask_add_events_quiet ts (order_queue w)) as (Hops & Hg & Hb).
  eexists; exists (added_by ts (order_queue w)); eexists.
  split; [reflexivity|]. simpl_world.
  split; [reflexivity|]. split; [exact Hn|]. split; [exact Hi|].
  rewrite <- !app_assoc. cbn [app].
  split; [reflexivity|].
  split; [|split; [|reflexivity]].
  - cbn [writes_under_lock]. now rewrite (writes_under_held_lock _ _ Hops).
  - cbn [no_blocking_call_under_lock negb andb].
    now rewrite (no_blocking_call_app _ _ Hops Hg Hb).
Qed.

Lemma ask_modify_orders_adds_without_duplicates_witness :
  let O := mkOracle (fun _ => SUCCEEDED)
                    (fun k => match k with
                              | 0 => Some "add" | 1 => Some "2,2,1" | _ => Some "none"
                              end)
                    (fun _ => 0%Z) (fun _ => false) (fun _ => false) in
  let w := with_order_queue ["table1"] (with_state DELIVERY initial) in
  exists w' new evs,
    ask_modify_orders O (deliver_sigint O) 2 w = Ok tt w'
    /\ order_queue w' = (["table1"] ++ new)%list
    /\ NoDup new
    /\ (forall t, In t new <-> In t ["table2"; "table2"; "table1"] /\ ~ In t ["table1"])
    /\ trace w' = (trace w ++ evs)%list
    /\ writes_under_lock false evs = true
    /\ no_blocking_call_under_lock false evs = true
    /\ lock w' = false.
Proof.
  cbv zeta.
  exact (ask_modify_orders_adds_without_duplicates
           (mkOracle (fun _ => SUCCEEDED)
                     (fun k => match k with
                               | 0 => Some "add" | 1 => Some "2,2,1" | _ => Some "none"
                               end)
                     (fun _ => 0%Z) (fun _ => false) (fun _ => false))
           0 (with_order_queue ["table1"] (with_state DELIVERY initial))
           "add" "2,2,1" "none"
           eq_refl eq_refl eq_refl eq_refl eq_refl eq_refl eq_refl eq_refl eq_refl eq_refl).
Defined.

(* ===================================================================== *)
(** ** Cancellation while a cycle is under way *)
(* ===================================================================== *)

(** Runs of the handler and of the delivery thread that take turns, step
    by step. *)

Lemma bind_t_lift {A B} (m : M A) (k : A -> Th B) w a w' :
  m w = Ok a w' -> bind_t (lift m) k w = k a w'.
Proof. intros E. unfold bind_t, lift. rewrite E. reflexivity. Qed.

Lemma bind_t_wait {B} (k : unit -> Th B) w :
  bind_t wait k w = Waiting w (fun w' => k tt w').
Proof. reflexivity. Qed.

Lemma bind_t_waiting {A B} (m : Th A) (k : A -> Th B) w w' r :
  m w = Waiting w' r -> bind_t m k w = Waiting w' (fun w2 => extend (r w2) k).
Proof. intros E. unfold bind_t. rewrite E. reflexivity. Qed.

Lemma extend_ended {A B} (r : result A) (k : A -> Th B) a w :
  r = Ok a w -> extend (Ended r) k = k a w.
Proof. intros ->. reflexivity. Qed.

Lemma runs_on_waiting k w w' k' :
  k w = Waiting w' k' -> runs_on k w = Ok (Some k') w'.
Proof. intros E. unfold runs_on. now rewrite E. Qed.

Lemma runs_on_ended k w u w' :
  k w = Ended (Ok u w') -> runs_on k w = Ok None w'.
Proof. intros E. unfold runs_on. now rewrite E. Qed.

(** A goal is sent: the thread waits for its result. *)
Lemma send_goal_t_waits O p w :
  send_goal_t O p w
  = Waiting (with_trace (trace w ++ [SendGoal (mkGoal "map" (clock O (clock_ix w)) p)])%list
               (with_client (S (client w)) LOST (with_clock_ix (S (clock_ix w)) w)))
            (fun w' => lift (st <- next_status O ;;
                             settle (S (client w)) p st ;;
                             state <- get_state ;;
                             if Nat.eqb state SUCCEEDED
                             then loginfo "Goal reached successfully" ;; ret true
                             else loginfo ("Failed to reach goal with state: "
                                           ++ str_of_nat state) ;;
                                  ret false) w').
Proof. reflexivity. Qed.

(** The wait comes back when another client has taken the place of the
    thread's own, and that client's goal has not succeeded: the outcome of
    the thread's own goal goes unseen, and [send_goal] reports a failure. *)
Lemma send_goal_wakes_to_another_client O c p w :
  client w <> c -> client_status w <> SUCCEEDED ->
  (st <- next_status O ;;
   settle c p st ;;
   state <- get_state ;;
   if Nat.eqb state SUCCEEDED
   then loginfo "Goal reached successfully" ;; ret true
   else loginfo ("Failed to reach goal with state: " ++ str_of_nat state) ;;
        ret false) w
  = Ok false
       (with_trace (trace w ++ [GoalDone p (nav O (nav_ix w));
                                LogInfo ("Failed to reach goal with state: "
                                         ++ str_of_nat (client_status w))])%list
          (with_nav_ix (S (nav_ix w)) w)).
Proof.
  intros Hc Hst. exec.
  rewrite (proj2 (Nat.eqb_neq _ _) Hc), (proj2 (Nat.eqb_neq _ _) Hst).
  exec. rewrite <- app_assoc. destruct w; reflexivity.
Qed.

(** The wait comes back to the thread's own client. *)
Lemma send_goal_wakes_to_its_client O c p w :
  client w = c ->
  exists ok msg,
    (st <- next_status O ;;
     settle c p st ;;
     state <- get_state ;;
     if Nat.eqb state SUCCEEDED
     then loginfo "Goal reached successfully" ;; ret true
     else loginfo ("Failed to reach goal with state: " ++ str_of_nat state) ;;
          ret false) w
    = Ok ok
         (with_trace (trace w ++ [GoalDone p (nav O (nav_ix w)); LogInfo msg])%list
            (with_client c (nav O (nav_ix w)) (with_nav_ix (S (nav_ix w)) w))).
Proof.
  intros <-. exec. rewrite Nat.eqb_refl.
  destruct (Nat.eqb (nav O (nav_ix w)) SUCCEEDED); exec;
    eexists; eexists; rewrite <- app_assoc; reflexivity.
Qed.

(** X25.  A SIGINT on the way to the kitchen, the delivery thread waking
    first.  The cycle has started and its kitchen goal is out; the
    modification prompt has not been used.  The handler cancels the goal
    and sends its goal home, on a client of its own.  When the delivery
    thread wakes from its canceled goal before the goal home has ended, it
    finds the handler's client in [self.move_base_client]: whatever its
    kitchen goal has come to, it takes it for failed, gives the cycle up
    and writes [IDLE], while the handler still holds the lock and waits
    (the outcome of the goal home comes after the write).  Then the
    handler returns.  The goals are the kitchen and home, the state ends
    [IDLE], not [CANCELED], the lock is free, and the orders are still in
    the queue. *)
Theorem cancel_on_the_way_to_the_kitchen :
  forall O f w,
    state w = IDLE -> lock w = false ->
    sigint O (wait_ix w) = false ->
    leaves_the_prompt (stdin O (stdin_ix w)) = true ->
    exists w' evs,
      comes_to (schedule O (S f)
                  [Cycle_goes_on; Listener_runs; Sigint; Cycle_goes_on; Handler_goes_on]
                  (cycle_started O (S f)) w) = Ok true w'
      /\ trace w' = (trace w ++ evs)%list
      /\ visits evs = ["kitchen"; "home"]
      /\ state_writes evs = [DELIVERY; CANCELED; IDLE]
      /\ (exists before status after,
             evs = (before ++ SetState IDLE
                           :: GoalDone (pose_of "home") status :: after)%list)
      /\ state w' = IDLE
      /\ lock w' = false
      /\ order_queue w' = order_queue w
      /\ is_goal_cancel w' = is_goal_cancel w.
Proof.
  intros O f w Hs Hl Hsig Hleave.
  unfold cycle_started.
  cbn [schedule take_step cycle_at handlers_at].
  (* the delivery thread, up to its kitchen goal *)
  rewrite !bind_assoc. erewrite bind_Ok.
  2:{ apply runs_on_waiting.
      unfold process_order_t.
      erewrite bind_t_lift
        by (erewrite bind_Ok by (apply lock_acquire_free; exact Hl); exec;
            rewrite Hs; reflexivity).
      simpl_world. cbn [robot_state_eqb negb].
      erewrite bind_t_lift
        by (exec; rewrite lock_release_held by reflexivity; reflexivity).
      unfold deliver_t.
      erewrite bind_t_lift by (exec; reflexivity).
      unfold move_to_kitchen_t.
      erewrite bind_t_waiting; [reflexivity|].
      erewrite bind_t_lift by (exec; rewrite waypoint_kitchen; exec; reflexivity).
      erewrite bind_t_waiting; [reflexivity|].
      apply send_goal_t_waits. }
  cbv beta. run1. cbn [cycle_at handlers_at push]. rewrite ?bind_assoc.
  (* the modification thread: its prompt is not used *)
  match goal with |- context [bind (run_listener O _) _ ?W] =>
    destruct (quiet_listener_leaves O f (with_listener_pending false W))
      as (evl & Hgl & Hwl & El); [reflexivity | exact Hsig | exact Hleave |]
  end.
  erewrite bind_Ok by (rewrite run_listener_pending by reflexivity; exact El).
  clear El. simpl_world.
  cbv beta. run1. cbn [cycle_at handlers_at push]. rewrite ?bind_assoc.
  (* the SIGINT: the handler, up to its goal home *)
  erewrite bind_Ok.
  2:{ apply runs_on_waiting.
      unfold signal_handler_t.
      erewrite bind_t_lift
        by (exec; erewrite bind_Ok by (apply lock_acquire_free; reflexivity); exec;
            reflexivity).
      simpl_world. cbn [String.eqb Ascii.eqb Bool.eqb].
      erewrite bind_t_waiting; [reflexivity|].
      erewrite bind_t_lift by (exec; reflexivity).
      unfold return_to_home_t.
      erewrite bind_t_lift by (exec; rewrite waypoint_home; exec; reflexivity).
      erewrite bind_t_waiting; [reflexivity|].
      apply send_goal_t_waits. }
  cbv beta. run1. cbn [cycle_at handlers_at push]. rewrite ?bind_assoc.
  (* the delivery thread wakes: the client is the handler's *)
  erewrite bind_Ok.
  2:{ eapply runs_on_ended. cbv beta. unfold lift at 1.
      erewrite extend_ended
        by (apply send_goal_wakes_to_another_client; simpl_world;
            [lia | vm_compute; discriminate]).
      cbn [negb]. unfold lift at 1.
      erewrite extend_ended by (exec; reflexivity).
      cbn [negb]. unfold lift. exec. reflexivity. }
  cbv beta. run1. cbn [cycle_at handlers_at push]. rewrite ?bind_assoc.
  (* the handler wakes, and returns *)
  match goal with |- context [settle ?c ?p] =>
    match goal with |- context [bind (runs_on _) _ ?W] =>
      destruct (send_goal_wakes_to_its_client O c p W eq_refl) as (ok & msg & Ego)
    end
  end.
  erewrite bind_Ok.
  2:{ eapply runs_on_ended. cbv beta. unfold lift at 1.
      erewrite extend_ended by exact Ego.
      unfold lift at 1. erewrite extend_ended by reflexivity.
      unfold lift. rewrite lock_release_held by reflexivity. reflexivity. }
  cbv beta. run1. cbn [cycle_at handlers_at push comes_to all_ended ret].
  eexists; eexists. split; [reflexivity|]. simpl_world.
  rewrite <- !app_assoc. cbn [app].
  split; [reflexivity|].
  split.
  { rewrite !visits_skip by exact I. rewrite visits_kitchen. f_equal.
    rewrite visits_app, (goals_sent_nil_visits _ Hgl). cbn [app].
    rewrite !visits_skip by exact I. rewrite visits_home. reflexivity. }
  split.
  { cbn [state_writes]. rewrite state_writes_app, Hwl. reflexivity. }
  split.
  { match goal with
    | |- exists b s a, (?e1 :: ?e2 :: ?e3 :: ?e4 :: ?e5 :: ?e6 :: (evl ++ ?l))%list = _ =>
        exists ([e1; e2; e3; e4; e5; e6] ++ evl ++ firstn 11 l)%list
    end.
    eexists; eexists. cbn [app firstn]. rewrite <- app_assoc. reflexivity. }
  repeat split; reflexivity.
Qed.

Lemma cancel_on_the_way_to_the_kitchen_witness :
  let O := mkOracle (fun _ => SUCCEEDED) (fun _ => None) (fun k => Z.of_nat k)
                    (fun _ => false) (fun _ => false) in
  let w := with_order_queue ["table1"] initial in
  exists w' evs,
    comes_to (schedule O 1
                [Cycle_goes_on; Listener_runs; Sigint; Cycle_goes_on; Handler_goes_on]
                (cycle_started O 1) w) = Ok true w'
    /\ trace w' = (trace w ++ evs)%list
    /\ visits evs = ["kitchen"; "home"]
    /\ state_writes evs = [DELIVERY; CANCELED; IDLE]
    /\ (exists before status after,
           evs = (before ++ SetState IDLE
                         :: GoalDone (pose_of "home") status :: after)%list)
    /\ state w' = IDLE
    /\ lock w' = false
    /\ order_queue w' = ["table1"]
    /\ is_goal_cancel w' = false.
Proof.
  cbv zeta.
  exact (cancel_on_the_way_to_the_kitchen
           (mkOracle (fun _ => SUCCEEDED) (fun _ => None) (fun k => Z.of_nat k)
                     (fun _ => false) (fun _ => false))
           0 (with_order_queue ["table1"] initial) eq_refl eq_refl eq_refl eq_refl).
Defined.

(** X26.  The handler reads the status of whatever client is in
    [self.move_base_client] when its wait returns.  A SIGINT taken while
    the goal location is a table makes the handler mark the cancellation
    as pending, send its kitchen goal on a new client and wait for it with
    the lock held.  If, when the wait returns, another thread has put a
    client of its own in that place and that client's goal has not
    succeeded, the handler takes its own goal for failed whatever it has
    come to: it sends no further goal, leaves the mark set, gives the lock
    back and returns. *)
Theorem handler_reads_the_status_of_another_client :
  forall O w table,
    lock w = false ->
    goal_location w = Some table ->
    PyStr.contains "table" table = true ->
    exists w1 rest,
      runs_on (signal_handler_t O) w = Ok (Some rest) w1
      /\ is_goal_cancel w1 = true
      /\ state w1 = CANCELED
      /\ lock w1 = true
      /\ client w1 = S (client w)
      /\ (exists evs, trace w1 = (trace w ++ evs)%list /\ visits evs = ["kitchen"])
      /\ forall w2,
           client w2 <> client w1 ->
           client_status w2 <> SUCCEEDED ->
           lock w2 = true ->
           is_goal_cancel w2 = true ->
           exists w' evs,
             runs_on rest w2 = Ok None w'
             /\ trace w' = (trace w2 ++ evs)%list
             /\ goal_traffic evs = [GoalDone (pose_of "kitchen") (nav O (nav_ix w2))]
             /\ is_goal_cancel w' = true
             /\ lock w' = false.
Proof.
  intros O w table Hl Hg Ht.
  destruct (contains_table_not_kitchen table Ht) as [Hk He].
  eexists; eexists. split.
  { apply runs_on_waiting.
    unfold signal_handler_t.
    erewrite bind_t_lift
      by (exec; erewrite bind_Ok by (apply lock_acquire_free; exact Hl); exec;
          reflexivity).
    simpl_world. rewrite Hg. cbv iota. rewrite Hk, He, Ht. cbn [negb andb]. cbv iota.
    erewrite bind_t_waiting; [reflexivity|].
    erewrite bind_t_lift by (exec; reflexivity).
    unfold return_to_kitchen_t.
    erewrite bind_t_lift by (exec; rewrite waypoint_kitchen; exec; reflexivity).
    erewrite bind_t_waiting; [reflexivity|].
    apply send_goal_t_waits. }
  simpl_world.
  split; [reflexivity|]. split; [reflexivity|]. split; [reflexivity|].
  split; [reflexivity|].
  split.
  { eexists. rewrite <- !app_assoc. cbn [app]. split; [reflexivity|].
    vm_compute. reflexivity. }
  intros w2 Hc Hst Hl2 Hf2.
  eexists; eexists. split.
  { eapply runs_on_ended. cbv beta. unfold lift at 1.
    erewrite extend_ended
      by (apply send_goal_wakes_to_another_client; [exact Hc | exact Hst]).
    cbv beta.
    erewrite bind_t_lift
      by (exec; rewrite Hf2; exec; rewrite (proj2 (Nat.eqb_neq _ _) Hst); reflexivity).
    cbv iota. unfold lift at 1. erewrite extend_ended by reflexivity.
    unfold lift. rewrite lock_release_held by exact Hl2. reflexivity. }
  simpl_world. rewrite <- !app_assoc. cbn [app].
  split; [reflexivity|]. split; [reflexivity|]. split; reflexivity.
Qed.

Lemma handler_reads_the_status_of_another_client_witness :
  let O := mkOracle (fun _ => SUCCEEDED) (fun _ => None) (fun _ => 0%Z)
                    (fun _ => false) (fun _ => false) in
  let w := with_goal_location (Some "table1") (with_state DELIVERY initial) in
  exists w1 rest w' evs,
    runs_on (signal_handler_t O) w = Ok (Some rest) w1
    /\ is_goal_cancel w1 = true
    /\ runs_on rest (with_client 5 LOST w1) = Ok None w'
    /\ trace w' = (trace w1 ++ evs)%list
    /\ goal_traffic evs = [GoalDone (pose_of "kitchen") SUCCEEDED]
    /\ is_goal_cancel w' = true
    /\ lock w' = false.
Proof.
  cbv zeta.
  destruct (handler_reads_the_status_of_another_client
              (mkOracle (fun _ => SUCCEEDED) (fun _ => None) (fun _ => 0%Z)
                        (fun _ => false) (fun _ => false))
              (with_goal_location (Some "table1") (with_state DELIVERY initial))
              "table1" eq_refl eq_refl eq_refl)
    as (w1 & rest & E & Hf & _ & Hl & Hc & _ & Hrest).
  destruct (Hrest (with_client 5 LOST w1)) as (w' & evs & E' & Ht & Hg & Hf' & Hl').
  - cbn [client with_client]. rewrite Hc. discriminate.
  - discriminate.
  - exact Hl.
  - exact Hf.
  - exists w1, rest, w', evs. repeat split; assumption.
Defined.
